(** * BluePeanits: the template manager (src/src/templateManager.js)

    A shallow embedding of the [TemplateManager] class: the persisted JSON
    document, the runtime [Template] array, the tile compositor and the
    pixel-count reconstructor, followed by the properties the design
    document states about them.

    Conventions of the embedding
    - JavaScript numbers that the manager handles are integers; they are
      modelled as [Z].  [NaN] and the infinities are explicit where the code
      tests for them ([JSNum]).
    - A JavaScript object used as an ordered map (the [templates] map of the
      document, the [tiles] map of an entry, the [chunked] map of a
      Template) is an association list in insertion order.  Keys that look
      like array indices, which JavaScript would enumerate first, are
      outside the composite-key and fragment-key grammars and are not
      modelled.
    - Template entries of a document are objects shared by reference between
      the imported document and the manager document; they live in a heap
      and the maps hold their addresses.
    - [async] methods are run to completion one after the other. *)

From Stdlib Require Import ZArith String Ascii List Lia Bool Permutation Sorted.
From stdpp Require Import base list strings pretty numbers.
Import ListNotations.

Local Open Scope string_scope.
Local Open Scope Z_scope.

(** ** JavaScript strings *)

Module JSString.

(** [s.split(c)] for a one-character separator. *)
Fixpoint split_go (c : ascii) (s : string) (cur : string) : list string :=
  match s with
  | EmptyString => [String.rev cur]
  | String a s' =>
      if Ascii.eqb a c then String.rev cur :: split_go c s' EmptyString
      else split_go c s' (String a cur)
  end.

Definition split (c : ascii) (s : string) : list string :=
  split_go c s EmptyString.

(** [s.startsWith(p)]. *)
Definition startsWith (s p : string) : bool := String.prefix p s.

Fixpoint repeat_char (c : ascii) (n : nat) : string :=
  match n with
  | O => EmptyString
  | S n' => String c (repeat_char c n')
  end.

(** [s.padStart(n, c)] for a one-character filler. *)
Definition padStart (n : nat) (c : ascii) (s : string) : string :=
  repeat_char c (n - String.length s) ++ s.

(** [xs.join(sep)]. *)
Fixpoint join (sep : string) (xs : list string) : string :=
  match xs with
  | [] => EmptyString
  | [x] => x
  | x :: rest => x ++ sep ++ join sep rest
  end.

Definition is_space (a : ascii) : bool :=
  let n := nat_of_ascii a in
  ((n =? 32) || ((9 <=? n) && (n <=? 13)))%nat.

(** [s.replace(/\s+/g, '')]: every white-space character is dropped (the
    ASCII ones; a script name holds no other). *)
Fixpoint remove_whitespace (s : string) : string :=
  match s with
  | EmptyString => EmptyString
  | String a s' =>
      if is_space a then remove_whitespace s' else String a (remove_whitespace s')
  end.

(** [s.replace(' ', '')]: only the first space is dropped. *)
Fixpoint remove_first_space (s : string) : string :=
  match s with
  | EmptyString => EmptyString
  | String a s' =>
      if Ascii.eqb a " "%char then s' else String a (remove_first_space s')
  end.

Definition digit_of (a : ascii) : option Z :=
  let n := Z.of_nat (nat_of_ascii a) in
  if (48 <=? n) && (n <=? 57) then Some (n - 48) else None.

Fixpoint digits_go (s : string) (acc : Z) : option Z :=
  match s with
  | EmptyString => Some acc
  | String a s' =>
      match digit_of a with
      | Some d => digits_go s' (10 * acc + d)
      | None => None
      end
  end.

(** [Number(s)] on signed decimal numerals, where it is exact: the empty
    string is 0, a decimal numeral with an optional sign is its value.
    Every other string is given as [NaN] ([None]); [Number] reads more than
    that (fractions, exponents, radix prefixes, surrounding white space,
    the word Infinity), so a statement that depends on the numeral of a key
    is made for keys whose numerals are decimal. *)
Definition Number (s : string) : option Z :=
  match s with
  | EmptyString => Some 0
  | String "-"%char (String a r) => option_map Z.opp (digits_go (String a r) 0)
  | String "+"%char (String a r) => digits_go (String a r) 0
  | _ => digits_go s 0
  end.

(** [Number(x)] where [x] may be [undefined]. *)
Definition Number_opt (x : option string) : option Z :=
  match x with
  | Some s => Number s
  | None => None
  end.

End JSString.

(** ** JavaScript numbers as the coordinate validation sees them *)

Inductive JSNum : Type :=
| JNum (z : Z)
| JNaN
| JPosInf
| JNegInf.

Definition JSNum_isNaN (n : JSNum) : bool :=
  match n with JNaN => true | _ => false end.

Definition JSNum_isFinite (n : JSNum) : bool :=
  match n with JNum _ => true | _ => false end.

(** [String(n)], as [join] applies it.  An integer is printed with all its
    digits, which is what JavaScript does below 10^21; the integers that
    are numbers at all are the safe ones and those beyond that happen to be
    representable. *)
Definition JSNum_toString (n : JSNum) : string :=
  match n with
  | JNum z => pretty z
  | JNaN => "NaN"
  | JPosInf => "Infinity"
  | JNegInf => "-Infinity"
  end.

(** ** Images and the 2D canvas *)

Record RGBA : Type := mkRGBA { red : Z; green : Z; blue : Z; alpha : Z }.

Definition transparent : RGBA := mkRGBA 0 0 0 0.

(** A decoded image ([ImageBitmap], canvas surface, or the PNG blob that
    carries it: PNG is lossless, so a blob is identified with its image). *)
Record Image : Type := mkImage {
  width : positive;
  height : positive;
  pixelAt : Z -> Z -> RGBA
}.

Definition inside (img : Image) (x y : Z) : bool :=
  (0 <=? x) && (x <? Z.pos (width img)) && (0 <=? y) && (y <? Z.pos (height img)).

Module Canvas2D.

(** A fresh or cleared surface is transparent black. *)
Definition blank (w h : positive) : Image := mkImage w h (fun _ _ => transparent).

Section Compositing.

(** Blend of a partially transparent source over a non-transparent
    destination; the browser computes it. *)
Variable mix : RGBA -> RGBA -> RGBA.

(** The default compositing operator, source-over.  A transparent source
    leaves the destination, an opaque one replaces it, and over a
    transparent destination the source shows as it is; channel values are
    exact, the rounding of premultiplied storage is not modelled. *)
Definition source_over (src dst : RGBA) : RGBA :=
  if alpha src <=? 0 then dst
  else if 255 <=? alpha src then src
  else if alpha dst <=? 0 then src
  else mix src dst.

(** [ctx.drawImage(src, dx, dy)]: unscaled, clipped to the surface. *)
Definition drawImage (src : Image) (dx dy : Z) (dst : Image) : Image :=
  mkImage (width dst) (height dst)
    (fun x y =>
       if inside dst x y && inside src (x - dx) (y - dy)
       then source_over (pixelAt src (x - dx) (y - dy)) (pixelAt dst x y)
       else pixelAt dst x y).

(** [ctx.drawImage(src, 0, 0, dw, dh)] with smoothing disabled: every
    destination cell of the [dw] x [dh] rectangle samples the source cell
    it falls into. *)
Definition drawImageScaled (src : Image) (dw dh : Z) (dst : Image) : Image :=
  mkImage (width dst) (height dst)
    (fun x y =>
       if inside dst x y && (x <? dw) && (y <? dh)
       then source_over
              (pixelAt src (x * Z.pos (width src) / dw) (y * Z.pos (height src) / dh))
              (pixelAt dst x y)
       else pixelAt dst x y).

End Compositing.

(** [ctx.getImageData(0, 0, w, h).data]: row-major, four channels a cell. *)
Definition getImageData (img : Image) : list Z :=
  flat_map
    (fun y =>
       flat_map
         (fun x => let p := pixelAt img x y in [red p; green p; blue p; alpha p])
         (seqZ 0 (Z.pos (width img))))
    (seqZ 0 (Z.pos (height img))).

End Canvas2D.

(** ** JavaScript objects used as ordered maps *)

Module JSObject.

Section WithValue.

Context {V : Type}.

(** [o[k]], [undefined] when the key is absent. *)
Fixpoint get (k : string) (o : list (string * V)) : option V :=
  match o with
  | [] => None
  | (k', v) :: rest => if String.eqb k' k then Some v else get k rest
  end.

(** [o[k] = v]: an existing key keeps its place, a new one goes last. *)
Fixpoint set (k : string) (v : V) (o : list (string * V)) : list (string * V) :=
  match o with
  | [] => [(k, v)]
  | (k', v') :: rest =>
      if String.eqb k' k then (k, v) :: rest else (k', v') :: set k v rest
  end.

(** [delete o[k]]. *)
Fixpoint delete (k : string) (o : list (string * V)) : list (string * V) :=
  match o with
  | [] => []
  | (k', v) :: rest =>
      if String.eqb k' k then delete k rest else (k', v) :: delete k rest
  end.

(** [Object.keys(o)]. *)
Definition keys (o : list (string * V)) : list string := map fst o.

End WithValue.

End JSObject.

(** ** Data model *)

(** [pixelCount] of a document entry as the import looks at it: absent, a
    number, or a value of another type. *)
Inductive PixelCountField : Type :=
| PCAbsent
| PCNumber (n : Z)
| PCOther.

(** One value of the [templates] map of the persisted document. *)
Record Entry : Type := mkEntry {
  e_name : option string;
  e_coords : option string;
  e_enabled : option bool;
  e_tiles : list (string * string);
  e_pixelCount : PixelCountField
}.

Definition addr : Type := nat.

(** The persisted collection document; [templates] maps a composite key to
    the address of its entry. *)
Record Doc : Type := mkDoc {
  whoami : option string;
  scriptVersion : option string;
  schemaVersion : option string;
  templates : option (list (string * addr))
}.

(** A runtime [Template] instance. *)
Record Template : Type := mkTemplate {
  displayName : string;
  sortID : Z;
  authorID : string;
  coords : option (list JSNum);
  enabled : bool;
  chunked : list (string * Image);
  pixelCount : Z
}.

(** The fields of [TemplateManager] the modelled methods read or write. *)
Record TemplateManager : Type := mkTemplateManager {
  name : string;
  version : string;
  templatesVersion : string;
  userID : option Z;
  encodingBase : string;
  tileSize : Z;
  drawMult : Z;
  templatesArray : list Template;
  templatesJSON : option Doc;
  templatesShouldBeDrawn : bool
}.

(** [new TemplateManager(name, version, overlay)]. *)
Definition constructor (name version : string) : TemplateManager :=
  mkTemplateManager name version "1.0.0" None
    "!#$%&'()*+,-./0123456789:;<=>?@ABCDEFGHIJKLMNOPQRSTUVWXYZ[]^_`abcdefghijklmnopqrstuvwxyz{|}~"
    1000 3 [] None true.

(** What [JSON.stringify(this.templatesJSON)] writes: the document with its
    entries resolved. *)
Record Snapshot : Type := mkSnapshot {
  s_whoami : option string;
  s_scriptVersion : option string;
  s_schemaVersion : option string;
  s_templates : option (list (string * Entry))
}.

(** What a method lets the outside see. *)
Inductive Event : Type :=
| Status (msg : string)               (* overlay.handleDisplayStatus *)
| Stored (doc : option Snapshot)      (* GM.setValue and localStorage.setItem *)
| Warned (msg : string)               (* console.warn *)
| Errored (msg : string).             (* console.error *)

(** The manager, the heap of document entries, and the events so far
    (oldest first). *)
Record World : Type := mkWorld {
  mgr : TemplateManager;
  heap : list Entry;
  events : list Event
}.

Definition set_templatesArray (ts : list Template) (m : TemplateManager) : TemplateManager :=
  mkTemplateManager (name m) (version m) (templatesVersion m) (userID m) (encodingBase m)
    (tileSize m) (drawMult m) ts (templatesJSON m) (templatesShouldBeDrawn m).

Definition set_templatesJSON (d : option Doc) (m : TemplateManager) : TemplateManager :=
  mkTemplateManager (name m) (version m) (templatesVersion m) (userID m) (encodingBase m)
    (tileSize m) (drawMult m) (templatesArray m) d (templatesShouldBeDrawn m).

(** [setTemplatesShouldBeDrawn(value)]. *)
Definition setTemplatesShouldBeDrawn (value : bool) (m : TemplateManager) : TemplateManager :=
  mkTemplateManager (name m) (version m) (templatesVersion m) (userID m) (encodingBase m)
    (tileSize m) (drawMult m) (templatesArray m) (templatesJSON m) value.

Definition set_templates (ts : option (list (string * addr))) (d : Doc) : Doc :=
  mkDoc (whoami d) (scriptVersion d) (schemaVersion d) ts.

Definition set_whoami (w : option string) (d : Doc) : Doc :=
  mkDoc w (scriptVersion d) (schemaVersion d) (templates d).

Definition set_e_coords (c : option string) (e : Entry) : Entry :=
  mkEntry (e_name e) c (e_enabled e) (e_tiles e) (e_pixelCount e).

Definition set_e_pixelCount (p : PixelCountField) (e : Entry) : Entry :=
  mkEntry (e_name e) (e_coords e) (e_enabled e) (e_tiles e) p.

Definition set_coords (c : option (list JSNum)) (t : Template) : Template :=
  mkTemplate (displayName t) (sortID t) (authorID t) c (enabled t) (chunked t) (pixelCount t).

Definition set_pixelCount (n : Z) (t : Template) : Template :=
  mkTemplate (displayName t) (sortID t) (authorID t) (coords t) (enabled t) (chunked t) n.

Definition with_mgr (f : TemplateManager -> TemplateManager) (w : World) : World :=
  mkWorld (f (mgr w)) (heap w) (events w).

Definition with_heap (f : list Entry -> list Entry) (w : World) : World :=
  mkWorld (mgr w) (f (heap w)) (events w).

Definition emit (e : Event) (w : World) : World :=
  mkWorld (mgr w) (heap w) (events w ++ [e])%list.

(** The entry at an address; every address a document holds is allocated. *)
Definition blank_entry : Entry := mkEntry None None None [] PCAbsent.

Definition deref (h : list Entry) (a : addr) : Entry := default blank_entry (h !! a).

Definition snapshot (h : list Entry) (d : Doc) : Snapshot :=
  mkSnapshot (whoami d) (scriptVersion d) (schemaVersion d)
    (option_map (map (fun '(k, a) => (k, deref h a))) (templates d)).

(** ** Methods that may throw *)

Inductive Result (A : Type) : Type :=
| Ok (a : A)
| Err (e : string).
Arguments Ok {A} a.
Arguments Err {A} e.

(** The outcome of a method: it returns or throws, and in both cases leaves
    a world behind. *)
Inductive Outcome (A : Type) : Type :=
| Ret (a : A) (w : World)
| Throw (e : string) (w : World).
Arguments Ret {A} a w.
Arguments Throw {A} e w.

Definition M (A : Type) : Type := World -> Outcome A.

Definition ret {A} (a : A) : M A := fun w => Ret a w.

Definition throw {A} (e : string) : M A := fun w => Throw e w.

Definition bind {A B} (m : M A) (k : A -> M B) : M B :=
  fun w =>
    match m w with
    | Ret a w' => k a w'
    | Throw e w' => Throw e w'
    end.

Definition modify (f : World -> World) : M unit := fun w => Ret tt (f w).

Definition gets {A} (f : World -> A) : M A := fun w => Ret (f w) w.

Declare Scope js_scope.
Delimit Scope js_scope with js.
Notation "x <- m ;; k" := (bind m (fun x => k))
  (at level 100, m at next level, right associativity) : js_scope.
Notation "m ;;; k" := (bind m (fun _ => k))
  (at level 100, right associativity) : js_scope.

Definition world_of {A} (o : Outcome A) : World :=
  match o with
  | Ret _ w => w
  | Throw _ w => w
  end.

Definition returned {A} (o : Outcome A) : option A :=
  match o with
  | Ret a _ => Some a
  | Throw _ _ => None
  end.

(** ** Collaborators outside templateManager.js *)

(** How the 2D canvas answers [#computePixelCountFromTiles]: it works, or
    the context it hands out is [null].  Creating the canvas does not
    throw: [OffscreenCanvas] or, without it, [document] is there. *)
Inductive CanvasSupport : Type :=
| CanvasReady
| ContextNull.

(** What [createTemplateTiles] hands back: the chunked bitmaps, their base64
    buffers and the pixel count it leaves on the Template. *)
Record Chunks : Type := mkChunks {
  templateTiles : list (string * Image);
  templateTilesBuffers : list (string * string);
  chunkedPixelCount : Z
}.

(** Template.js, utils.js and the browser are not part of the modelled file;
    the manager is parameterised by them. *)
Record Platform : Type := mkPlatform {
  (* utils.js: numberToEncoded(number, encoding) *)
  numberToEncoded : Z -> string -> string;
  (* Template.js: createTemplateTiles(tileSize) on a Template built from a
     file and coordinates; it fails when the file does not decode *)
  createTemplateTiles : Image -> list JSNum -> Z -> Result Chunks;
  (* Template.js: the value the constructor gives [enabled] when the caller
     passes none *)
  template_enabled_default : bool;
  (* utils.js base64ToUint8, then new Blob, then createImageBitmap; the
     promise rejects when the bytes do not decode *)
  decodeTile : string -> Result Image;
  (* new Intl.NumberFormat().format(n), which depends on the locale *)
  formatNumber : Z -> string;
  (* the browser blend, see Canvas2D.source_over *)
  mix : RGBA -> RGBA -> RGBA;
  canvas_support : CanvasSupport
}.

(** ** Sorting the template array *)

(** [Array.prototype.sort] with the comparator [a.sortID - b.sortID]: the
    sort is stable, so its result is the stable ascending arrangement, which
    insertion computes. *)
Fixpoint insert_by_sortID (t : Template) (l : list Template) : list Template :=
  match l with
  | [] => [t]
  | u :: rest =>
      if sortID t <=? sortID u then t :: u :: rest
      else u :: insert_by_sortID t rest
  end.

Definition sort_by_sortID (l : list Template) : list Template :=
  foldr insert_by_sortID [] l.

(** ** Loops of the reconstructor *)

(** [for (let i = start; i < bound; i += 3) acc = body(i, acc)]. *)
Fixpoint for_step3 {A : Type} (fuel : nat) (i bound : Z) (body : Z -> A -> A) (acc : A) : A :=
  match fuel with
  | O => acc
  | S fuel' =>
      if i <? bound then for_step3 fuel' (i + 3) bound body (body i acc)
      else acc
  end.

(** [data[i] > 0]; reading past the end gives [undefined], which is not
    greater than zero. *)
Definition byte_positive (data : list Z) (i : Z) : bool :=
  match data !! Z.to_nat i with
  | Some a => 0 <? a
  | None => false
  end.

(** The two nested loops over one fragment: centre cells of the 3x3 blocks. *)
Definition count_centers (data : list Z) (width height : Z) (total : Z) : Z :=
  for_step3 (Z.to_nat height) 1 height
    (fun y total =>
       for_step3 (Z.to_nat width) 1 width
         (fun x total =>
            let idx := (y * width + x) * 4 in
            if byte_positive data (idx + 3) then total + 1 else total)
         total)
    total.

(** ** The manager's methods *)

Section Manager.

Variable P : Platform.

Local Open Scope js_scope.

(** [createJSON()]. *)
Definition createJSON (m : TemplateManager) : Doc :=
  mkDoc (Some (JSString.remove_first_space (name m)))
        (Some (version m))
        (Some (templatesVersion m))
        (Some []).

(** [if (!this.templatesJSON) { this.templatesJSON = await this.createJSON(); }] *)
Definition ensureJSON : M Doc :=
  fun w =>
    match templatesJSON (mgr w) with
    | Some d => Ret d w
    | None =>
        let d := createJSON (mgr w) in
        Ret d (with_mgr (set_templatesJSON (Some d)) w)
    end.

(** [#storeTemplates()]: both sinks receive the serialised document. *)
Definition storeTemplates : M unit :=
  fun w =>
    Ret tt (emit (Stored (option_map (snapshot (heap w)) (templatesJSON (mgr w)))) w).

(** The [templates] map of the manager document; reading a property of
    [undefined] throws. *)
Definition templates_of (d : Doc) : M (list (string * addr)) :=
  match templates d with
  | Some ts => ret ts
  | None => throw "TypeError: templates is undefined"
  end.

Definition coords_string (cs : list JSNum) : string :=
  JSString.join ", " (map JSNum_toString cs).

(** [createTemplate(blob, name, coords)]. *)
Definition createTemplate (blob : Image) (nm : string) (cs : list JSNum) : M unit :=
  d <- ensureJSON ;;
  modify (emit (Status ("Creating template at " ++ coords_string cs ++ "..."))) ;;;
  ts <- templates_of d ;;
  m <- gets mgr ;;
  let sid := Z.of_nat (length (JSObject.keys ts)) in
  let aid := numberToEncoded P (default 0 (userID m)) (encodingBase m) in
  match createTemplateTiles P blob cs (tileSize m) with
  | Err e => throw e
  | Ok ch =>
      let template :=
        mkTemplate nm sid aid (Some cs) (template_enabled_default P)
                   (templateTiles ch) (chunkedPixelCount ch) in
      let entry :=
        mkEntry (Some nm) (Some (coords_string cs)) (Some true)
                (templateTilesBuffers ch) (PCNumber (chunkedPixelCount ch)) in
      let key := pretty sid ++ " " ++ aid in
      a <- gets (fun w => length (heap w)) ;;
      modify (with_heap (fun h => (h ++ [entry])%list)) ;;;
      modify (with_mgr (set_templatesJSON
                          (Some (set_templates (Some (JSObject.set key a ts)) d)))) ;;;
      modify (with_mgr (fun m => set_templatesArray (templatesArray m ++ [template])%list m)) ;;;
      modify (emit (Status ("Template created at " ++ coords_string cs
                            ++ "! Total pixels: "
                            ++ formatNumber P (chunkedPixelCount ch)))) ;;;
      storeTemplates
  end.

(** [t.sortID == Number(sortID) && t.authorID === authorID] with
    [[sortID, authorID] = templateKey.split(' ')]. *)
Definition key_matches (templateKey : string) (t : Template) : bool :=
  let parts := JSString.split " " templateKey in
  match JSString.Number_opt (parts !! 0%nat), parts !! 1%nat with
  | Some n, Some a => (sortID t =? n) && String.eqb (authorID t) a
  | _, _ => false
  end.

(** [deleteTemplate(templateKey)]. *)
Definition deleteTemplate (templateKey : string) : M unit :=
  d <- ensureJSON ;;
  ts <- templates_of d ;;
  modify (with_mgr (set_templatesJSON
                      (Some (set_templates (Some (JSObject.delete templateKey ts)) d)))) ;;;
  modify (with_mgr (fun m =>
                      set_templatesArray
                        (List.filter (fun t => negb (key_matches templateKey t))
                                     (templatesArray m)) m)) ;;;
  storeTemplates.

(** [find] followed by an assignment to a field of what it found. *)
Fixpoint update_first (p : Template -> bool) (f : Template -> Template)
         (l : list Template) : list Template :=
  match l with
  | [] => []
  | t :: rest => if p t then f t :: rest else t :: update_first p f rest
  end.

(** [updateTemplateCoordinates(templateKey, newCoords)]; [newCoords] is
    an array of numbers. *)
Definition updateTemplateCoordinates (templateKey : string) (newCoords : list JSNum)
  : M string :=
  d <- ensureJSON ;;
  if negb (length newCoords =? 4)%nat then
    throw "Coordinates must be an array of 4 numbers [tileX, tileY, pixelX, pixelY]"
  else if negb (forallb (fun c => negb (JSNum_isNaN c) && JSNum_isFinite c) newCoords) then
    throw "All coordinates must be valid numbers"
  else
    ts <- templates_of d ;;
    match JSObject.get templateKey ts with
    | Some a =>
        modify (with_heap (fun h =>
                  <[a := set_e_coords (Some (coords_string newCoords)) (deref h a)]> h))
    | None => ret tt
    end ;;;
    modify (with_mgr (fun m =>
              set_templatesArray
                (update_first (key_matches templateKey) (set_coords (Some newCoords))
                              (templatesArray m)) m)) ;;;
    storeTemplates ;;;
    ret ("Template coordinates updated to: " ++ coords_string newCoords).

(** [#computePixelCountFromTiles(tileBitmaps)].  Every bitmap is an
    object, so the [if (!bmp) continue] guard never fires.  The canvas is
    resized to the bitmap, cleared, and the bitmap is drawn at the origin
    before its pixels are read back. *)
Definition computePixelCountFromTiles (tileBitmaps : list (string * Image)) : Result Z :=
  fold_left
    (fun (acc : Result Z) (kv : string * Image) =>
       match acc with
       | Err e => Err e
       | Ok total =>
           match canvas_support P with
           | CanvasReady =>
               let bmp := snd kv in
               let canvas :=
                 Canvas2D.drawImage (mix P) bmp 0 0
                   (Canvas2D.blank (width bmp) (height bmp)) in
               let data := Canvas2D.getImageData canvas in
               Ok (count_centers data (Z.pos (width bmp)) (Z.pos (height bmp)) total)
           | ContextNull => Err "TypeError: ctx is null"
           end
       end)
    tileBitmaps (Ok 0).

(** The inner loop of [#parseBlueMarble]: every base64 tile becomes a
    bitmap; a tile that does not decode rejects the whole parse. *)
Fixpoint decodeTiles (tilesbase64 : list (string * string))
         (acc : list (string * Image)) : Result (list (string * Image)) :=
  match tilesbase64 with
  | [] => Ok acc
  | (tile, encoded) :: rest =>
      match decodeTile P encoded with
      | Ok bmp => decodeTiles rest (JSObject.set tile bmp acc)
      | Err e => Err e
      end
  end.

(** [a || b] on strings that may be [undefined]. *)
Definition or_string (a : option string) (b : string) : string :=
  match a with
  | Some (String c s) => String c s
  | _ => b
  end.

(** [n || k] on a number that may be [NaN]. *)
Definition or_number (n : option Z) (k : Z) : Z :=
  match n with
  | Some z => if z =? 0 then k else z
  | None => k
  end.

(** The fallback of [#parseBlueMarble] when the reconstruction throws. *)
Definition heuristicPixelCount (templateTiles : list (string * Image)) : Z :=
  let tileCount := or_number (Some (Z.of_nat (length (JSObject.keys templateTiles)))) 1 in
  tileCount * 500.

(** The pixel count of an imported template and, when it is recomputed,
    the value written back to the document entry. *)
Definition resolvePixelCount (a : addr) (templateValue : Entry)
           (templateTiles : list (string * Image)) : M Z :=
  let recompute : M Z :=
    match computePixelCountFromTiles templateTiles with
    | Ok n =>
        modify (with_heap (fun h => <[a := set_e_pixelCount (PCNumber n) (deref h a)]> h)) ;;;
        ret n
    | Err e =>
        modify (emit (Warned ("[BlueMarble] Failed to compute precise pixel count; falling back to heuristic: " ++ e))) ;;;
        let n := heuristicPixelCount templateTiles in
        modify (with_heap (fun h => <[a := set_e_pixelCount (PCNumber n) (deref h a)]> h)) ;;;
        ret n
    end in
  match e_pixelCount templateValue with
  | PCNumber n => if 0 <=? n then ret n else recompute
  | _ => recompute
  end.

(** The body of the outer loop of [#parseBlueMarble] for one key. *)
Definition parseTemplate (templateKey : string) (a : addr) : M unit :=
  templateValue <- gets (fun w => deref (heap w) a) ;;
  let templateKeyArray := JSString.split " " templateKey in
  let sid := JSString.Number_opt (templateKeyArray !! 0%nat) in
  let aid := or_string (templateKeyArray !! 1%nat) "0" in
  let dname :=
    or_string (e_name templateValue)
              ("Template " ++ match sid with
                              | Some z => if z =? 0 then "" else pretty z
                              | None => ""
                              end) in
  let en := default true (e_enabled templateValue) in
  match decodeTiles (e_tiles templateValue) [] with
  | Err e => throw e
  | Ok tiles =>
      n <- gets (fun w => Z.of_nat (length (templatesArray (mgr w)))) ;;
      pc <- resolvePixelCount a templateValue tiles ;;
      let template := mkTemplate dname (or_number sid n) aid None en tiles pc in
      modify (with_mgr (fun m => set_templatesArray (templatesArray m ++ [template])%list m))
  end.

Fixpoint parseTemplates (ts : list (string * addr)) : M unit :=
  match ts with
  | [] => ret tt
  | (k, a) :: rest => parseTemplate k a ;;; parseTemplates rest
  end.

(** [#parseBlueMarble(json)]. *)
Definition parseBlueMarble (json : Doc) : M unit :=
  match templates json with
  | None => throw "TypeError: Cannot convert undefined or null to object"
  | Some ts => parseTemplates ts
  end.

(** [promise.catch(handler)]. *)
Definition catch {A} (m : M A) (handler : string -> M A) : M A :=
  fun w =>
    match m w with
    | Ret a w' => Ret a w'
    | Throw e w' => handler e w'
    end.

(** The merge loop of [importJSON]: a key the manager document already
    holds is skipped. *)
Fixpoint mergeTemplates (incoming : list (string * addr))
         (current : list (string * addr)) : list (string * addr) :=
  match incoming with
  | [] => current
  | (key, a) :: rest =>
      match JSObject.get key current with
      | Some _ => mergeTemplates rest current
      | None => mergeTemplates rest (JSObject.set key a current)
      end
  end.

Definition dquote : string := String (ascii_of_nat 34) EmptyString.

Definition newline : string := String (ascii_of_nat 10) EmptyString.

Definition acceptedWhoami (m : TemplateManager) : list string :=
  ["BlueMarble"; "BluePeanits"; "BluePeanuts"; JSString.remove_whitespace (name m)].

(** [!json.whoami]: the field is missing or the empty string. *)
Definition whoami_falsy (json : Doc) : bool :=
  match whoami json with
  | Some (String _ _) => false
  | _ => true
  end.

(** [acceptedWhoami.includes(json.whoami)]. *)
Definition whoami_accepted (m : TemplateManager) (json : Doc) : bool :=
  match whoami json with
  | Some w => existsb (String.eqb w) (acceptedWhoami m)
  | None => false
  end.

(** The identifier injection at the head of [importJSON]. *)
Definition injectWhoami (m : TemplateManager) (json : Doc) : Doc :=
  match templates json with
  | Some _ =>
      if whoami_falsy json
      then set_whoami (Some (JSString.remove_whitespace (name m))) json
      else json
  | None => json
  end.

(** [importJSON(json)] for a document object [json]. *)
Definition importJSON (json0 : Doc) : M unit :=
  m <- gets mgr ;;
  let json := injectWhoami m json0 in
  if whoami_accepted m json then
    match templatesJSON m with
    | None => modify (with_mgr (set_templatesJSON (Some json)))
    | Some current =>
        match templates json with
        | Some incoming =>
            match templates current, incoming with
            | Some cur, _ =>
                modify (with_mgr (set_templatesJSON
                          (Some (set_templates (Some (mergeTemplates incoming cur)) current))))
            | None, [] => ret tt
            | None, _ :: _ => throw "TypeError: templates is undefined"
            end
        | None => ret tt
        end
    end ;;;
    catch (parseBlueMarble json)
          (fun e => modify (emit (Errored ("[BlueMarble] Failed to parse templates: " ++ e))))
  else
    modify (emit (Warned ("Template JSON 'whoami' (" ++ dquote
                          ++ default "undefined" (whoami json) ++ dquote
                          ++ ") did not match any accepted identifiers: "
                          ++ JSString.join ", " (acceptedWhoami m)))).

(** What the compositor keeps of a template for one tile. *)
Record Fragment : Type := mkFragment {
  bitmap : Image;
  tileCoords : option string * option string;
  pixelCoords : option string * option string
}.

(** [Object.keys(template.chunked).filter(tile => tile.startsWith(tileCoords))]. *)
Definition matchingTiles (prefix : string) (t : Template) : list (string * Image) :=
  List.filter (fun kv => JSString.startsWith (fst kv) prefix) (chunked t).

(** The callback of [map] in [drawTemplateOnTile]: the first matching
    fragment of a template, [null] when it has none. *)
Definition fragmentFor (prefix : string) (t : Template) : option Fragment :=
  match matchingTiles prefix t with
  | [] => None
  | (tile, bmp) :: _ =>
      let cs := JSString.split "," tile in
      Some (mkFragment bmp (cs !! 0%nat, cs !! 1%nat) (cs !! 2%nat, cs !! 3%nat))
  end.

(** One pass of the drawing loop.  [drawImage] returns without drawing
    when a coordinate is [NaN]. *)
Definition drawFragment (mult : Z) (canvas : Image) (f : Fragment) : Image :=
  match JSString.Number_opt (fst (pixelCoords f)), JSString.Number_opt (snd (pixelCoords f)) with
  | Some px, Some py => Canvas2D.drawImage (mix P) (bitmap f) (px * mult) (py * mult) canvas
  | _, _ => canvas
  end.

Definition tilePrefix (tileXY : Z * Z) : string :=
  JSString.padStart 4 "0" (pretty (fst tileXY)) ++ ","
    ++ JSString.padStart 4 "0" (pretty (snd tileXY)).

(** [templateArray.filter(enabled).map(first fragment).filter(Boolean)]. *)
Definition templatesToDraw (prefix : string) (templateArray : list Template) : list Fragment :=
  omap (fragmentFor prefix) (List.filter enabled templateArray).

(** The sum the status line shows. *)
Definition totalPixels (prefix : string) (templateArray : list Template) : Z :=
  fold_left (fun sum t => sum + pixelCount t)
    (List.filter
       (fun t => (0 <? length (matchingTiles prefix t))%nat && enabled t)
       templateArray)
    0.

Definition displayStatus (prefix : string) (templateArray : list Template) : string :=
  let templateCount := Z.of_nat (length (templatesToDraw prefix templateArray)) in
  if 0 <? templateCount then
    "Displaying " ++ pretty templateCount ++ " template"
      ++ (if templateCount =? 1 then "" else "s") ++ "." ++ newline
      ++ "Total pixels: " ++ formatNumber P (totalPixels prefix templateArray)
  else
    "Displaying " ++ pretty templateCount ++ " templates.".

(** [drawTemplateOnTile(tileBlob, tileCoords)].  [templateArray] is the
    manager's own array, so sorting it sorts [this.templatesArray].  A
    surface of non-positive size cannot be created or encoded. *)
Definition drawTemplateOnTile (tileBlob : Image) (tileXY : Z * Z) : M Image :=
  fun w =>
    if negb (templatesShouldBeDrawn (mgr w)) then Ret tileBlob w
    else
      let drawSize := tileSize (mgr w) * drawMult (mgr w) in
      let prefix := tilePrefix tileXY in
      let templateArray := sort_by_sortID (templatesArray (mgr w)) in
      let w1 := with_mgr (set_templatesArray templateArray) w in
      let toDraw := templatesToDraw prefix templateArray in
      let w2 := emit (Status (displayStatus prefix templateArray)) w1 in
      match drawSize with
      | Z.pos size =>
          let base :=
            Canvas2D.drawImageScaled (mix P) tileBlob drawSize drawSize
              (Canvas2D.blank size size) in
          Ret (fold_left (drawFragment (drawMult (mgr w))) toDraw base) w2
      | _ => Throw "the surface has no area" w2
      end.

End Manager.

(** ** The reconstructed pixel count as the design document words it *)

Module PixelCountSpec.

(** Every cell of a bitmap, row by row. *)
Definition cells (img : Image) : list (Z * Z) :=
  flat_map (fun y => map (fun x => (x, y)) (seqZ 0 (Z.pos (width img))))
           (seqZ 0 (Z.pos (height img))).

(** Index congruent to 1 modulo 3: the centre of a 3x3 block. *)
Definition center (i : Z) : bool := i mod 3 =? 1.

(** A centre cell whose alpha channel is greater than zero. *)
Definition counted (img : Image) (c : Z * Z) : bool :=
  center (fst c) && center (snd c) && (0 <? alpha (pixelAt img (fst c) (snd c))).

Definition fragmentCount (img : Image) : nat :=
  length (List.filter (counted img) (cells img)).

(** The sum over all fragments of a template. *)
Definition logicalPixelCount (tileBitmaps : list (string * Image)) : Z :=
  Z.of_nat (sum_list (map (fun kv => fragmentCount (snd kv)) tileBitmaps)).

End PixelCountSpec.

(** ** A concrete platform for running the model *)

Module Demo.

(** Modelled from the spec: utils.js is not among the sources.  The
    author identifier is the positional encoding of the user number over
    the alphabet, most significant digit first, and 0 is the first
    character of the alphabet. *)
Fixpoint encode_go (fuel : nat) (n : Z) (alphabet : string) (acc : string) : string :=
  match fuel with
  | O => acc
  | S fuel' =>
      if n <=? 0 then acc
      else
        let base := Z.of_nat (String.length alphabet) in
        let digit :=
          match String.get (Z.to_nat (n mod base)) alphabet with
          | Some c => String c EmptyString
          | None => EmptyString
          end in
        encode_go fuel' (n / base) alphabet (digit ++ acc)
  end.

(** Modelled from the spec: [numberToEncoded(number, encoding)] of utils.js,
    which is not among the sources; see [encode_go]. *)
Definition numberToEncoded (n : Z) (alphabet : string) : string :=
  if n =? 0 then
    match String.get 0 alphabet with
    | Some c => String c EmptyString
    | None => EmptyString
    end
  else encode_go (Z.to_nat n) n alphabet EmptyString.

Definition opaque_red : RGBA := mkRGBA 255 0 0 255.

Definition opaque_blue : RGBA := mkRGBA 0 0 255 255.

(** One logical pixel after shredding: a 3x3 block whose centre carries
    the colour. *)
Definition dot (c : RGBA) : Image :=
  mkImage 3 3 (fun x y => if (x =? 1) && (y =? 1) then c else transparent).

(** A 6x3 bitmap with two logical pixels, the second one transparent. *)
Definition two_cells : Image :=
  mkImage 6 3 (fun x y => if (x =? 1) && (y =? 1) then opaque_red else transparent).

(** A live tile of one colour. *)
Definition plain_tile (w h : positive) (c : RGBA) : Image :=
  mkImage w h (fun _ _ => c).

(** The tile payloads of the sample documents name their bitmap. *)
Definition decodeTile (encoded : string) : Result Image :=
  if String.eqb encoded "red-dot" then Ok (dot opaque_red)
  else if String.eqb encoded "blue-dot" then Ok (dot opaque_blue)
  else if String.eqb encoded "two-cells" then Ok two_cells
  else Err "The source image could not be decoded.".

(** A chunker for files without a visible pixel: no fragment, count 0. *)
Definition createTemplateTiles (file : Image) (cs : list JSNum) (tileSize : Z)
  : Result Chunks :=
  Ok (mkChunks [] [] 0).

Definition platform (support : CanvasSupport) : Platform :=
  mkPlatform numberToEncoded createTemplateTiles true decodeTile pretty
             (fun src dst => src) support.

Definition fresh (nm : string) : World :=
  mkWorld (constructor nm "0.81.1") [] [].

(** Runs a method and keeps the world it leaves. *)
Definition run {A} (m : M A) (w : World) : World := world_of (m w).

(** A file to upload and a place to put it. *)
Definition blank_file : Image := Canvas2D.blank 2 2.

Definition somewhere : list JSNum := [JNum 1; JNum 2; JNum 3; JNum 4].

(** Entries of stored documents. *)
Definition entry_red : Entry :=
  mkEntry (Some "red") (Some "0, 0, 1, 1") (Some true)
          [("0000,0000,1,1", "red-dot")] (PCNumber 1).

Definition entry_blue : Entry :=
  mkEntry (Some "blue") (Some "0, 0, 1, 1") (Some true)
          [("0000,0000,1,1", "blue-dot")] (PCNumber 1).

Definition entry_uncounted : Entry :=
  mkEntry (Some "uncounted") None (Some true) [("0000,0000,0,0", "two-cells")] PCAbsent.

(** A stored document with two overlapping templates, the one with the
    higher sortID first. *)
Definition two_templates : Doc :=
  mkDoc (Some "BluePeanits") (Some "0.81.1") (Some "1.0.0")
        (Some [("5 !", 0%nat); ("2 !", 1%nat)]).

(** The world once [JSON.parse] has built that document. *)
Definition parsed : World :=
  mkWorld (constructor "Blue Peanits" "0.81.1") [entry_blue; entry_red] [].

(** The world once the document is imported. *)
Definition imported : World :=
  run (importJSON (platform CanvasReady) two_templates) parsed.

(** The two templates the import builds, and their fragments for tile (0, 0). *)
Definition red_template : Template :=
  mkTemplate "red" 2 "!" None true [("0000,0000,1,1", dot opaque_red)] 1.

Definition blue_template : Template :=
  mkTemplate "blue" 5 "!" None true [("0000,0000,1,1", dot opaque_blue)] 1.

Definition red_fragment : Fragment :=
  mkFragment (dot opaque_red) (Some "0000", Some "0000") (Some "1", Some "1").

Definition blue_fragment : Fragment :=
  mkFragment (dot opaque_blue) (Some "0000", Some "0000") (Some "1", Some "1").

(** The world that holds a parsed entry without a pixel count. *)
Definition uncounted_parsed : World :=
  mkWorld (constructor "Blue Peanits" "0.81.1") [entry_uncounted] [].

(** The world after one upload. *)
Definition created : World :=
  run (createTemplate (platform CanvasReady) blank_file "first" somewhere)
      (fresh "Blue Peanits").

(** A second document, parsed while [imported] is loaded: it files another
    template under the key the manager holds for the blue one; its entry,
    at the next address, has two fragments and carries no pixel count. *)
Definition entry_recount : Entry :=
  mkEntry (Some "recount") None (Some true)
          [("0000,0000,0,0", "two-cells"); ("0001,0000,0,0", "red-dot")] PCAbsent.

Definition colliding_document : Doc :=
  mkDoc (Some "BluePeanits") (Some "0.81.1") (Some "1.0.0") (Some [("5 !", 2%nat)]).

Definition colliding_parsed : World :=
  with_heap (fun h => h ++ [entry_recount])%list imported.

End Demo.

(** ** Vocabulary of the statements *)

(** The templates the compositor draws for a tile, in drawing order, each
    with the fragment it contributes. *)
Definition drawOrder (prefix : string) (templateArray : list Template)
  : list (Template * Fragment) :=
  omap (fun t => option_map (pair t) (fragmentFor prefix t))
       (List.filter enabled templateArray).

(** The pixel a fragment puts on the surface cell (x, y), when its bitmap
    reaches that cell. *)
Definition placed (mult : Z) (f : Fragment) (x y : Z) : option RGBA :=
  match JSString.Number_opt (fst (pixelCoords f)), JSString.Number_opt (snd (pixelCoords f)) with
  | Some px, Some py =>
      if inside (bitmap f) (x - px * mult) (y - py * mult)
      then Some (pixelAt (bitmap f) (x - px * mult) (y - py * mult))
      else None
  | _, _ => None
  end.

(** A fragment that leaves the cell (x, y) as it is. *)
Definition untouched (mult : Z) (x y : Z) (f : Fragment) : Prop :=
  forall q, placed mult f x y = Some q -> alpha q <= 0.

(** What a pixel looks like on a surface that was transparent before. *)
Definition visiblePixel (p : RGBA) : RGBA :=
  if alpha p <=? 0 then transparent else p.

(** The number of entries of the persisted collection. *)
Definition persistedCount (w : World) : nat :=
  match templatesJSON (mgr w) with
  | Some d => length (default [] (templates d))
  | None => 0
  end.

(** The document is missing or carries a [templates] map. *)
Definition document_usable (w : World) : Prop :=
  match templatesJSON (mgr w) with
  | Some d => templates d <> None
  | None => True
  end.

(** Ascending sortID. *)
Definition by_sortID (a b : Template) : Prop := sortID a <= sortID b.

(** The coordinates the document stores for a composite key. *)
Definition storedCoords (w : World) (templateKey : string) : option string :=
  match templatesJSON (mgr w) with
  | Some d =>
      match JSObject.get templateKey (default [] (templates d)) with
      | Some a => e_coords (deref (heap w) a)
      | None => None
      end
  | None => None
  end.

(** Unfolds the plumbing of a method. *)
Ltac run_method :=
  unfold bind, ensureJSON, modify, gets, templates_of, ret, throw, storeTemplates, catch.

(** ** The other methods of the manager *)

Definition set_enabled (b : bool) (t : Template) : Template :=
  mkTemplate (displayName t) (sortID t) (authorID t) (coords t) b (chunked t) (pixelCount t).

Definition set_displayName (s : string) (t : Template) : Template :=
  mkTemplate s (sortID t) (authorID t) (coords t) (enabled t) (chunked t) (pixelCount t).

Definition set_e_enabled (b : option bool) (e : Entry) : Entry :=
  mkEntry (e_name e) (e_coords e) b (e_tiles e) (e_pixelCount e).

Definition set_e_name (s : option string) (e : Entry) : Entry :=
  mkEntry s (e_coords e) (e_enabled e) (e_tiles e) (e_pixelCount e).

(** The string [`${t.sortID} ${t.authorID}`]: the key [createTemplate] files
    a template under and the one [getAllTemplates] looks it up by. *)
Definition compositeKey (t : Template) : string :=
  pretty (sortID t) ++ " " ++ authorID t.

(** The tail shared by [toggleTemplate], [updateTemplateName] and
    [updateTemplateCoordinates]: the entry under the key, when there is one,
    and the first Template that answers to the key are updated, then the
    document is stored. *)
Definition updateBoth (templateKey : string) (onEntry : Entry -> Entry)
           (onTemplate : Template -> Template) (d : Doc) : M unit :=
  (ts <- templates_of d ;;
   match JSObject.get templateKey ts with
   | Some a => modify (with_heap (fun h => <[a := onEntry (deref h a)]> h))
   | None => ret tt
   end ;;;
   modify (with_mgr (fun m =>
             set_templatesArray
               (update_first (key_matches templateKey) onTemplate (templatesArray m)) m)) ;;;
   storeTemplates)%js.

(** [toggleTemplate(templateKey, enabled)]. *)
Definition toggleTemplate (templateKey : string) (en : bool) : M unit :=
  (d <- ensureJSON ;;
   updateBoth templateKey (set_e_enabled (Some en)) (set_enabled en) d)%js.

(** [updateTemplateName(templateKey, newName)]. *)
Definition updateTemplateName (templateKey : string) (newName : string) : M unit :=
  (d <- ensureJSON ;;
   updateBoth templateKey (set_e_name (Some newName)) (set_displayName newName) d)%js.

(** One element of what [getAllTemplates] returns. *)
Record TemplateInfo : Type := mkTemplateInfo {
  i_key : string;
  i_name : option string;
  i_coords : option string;
  i_enabled : option bool;
  i_pixelCount : PixelCountField
}.

(** [template.pixelCount || 0] on a document entry.  A value of another
    type is handed on when it is truthy and gives 0 otherwise; the model
    keeps it as the value of another type. *)
Definition entryPixelCount (e : Entry) : PixelCountField :=
  match e_pixelCount e with
  | PCNumber n => PCNumber n
  | PCAbsent => PCNumber 0
  | PCOther => PCOther
  end.

(** [getAllTemplates()]: the count of the runtime Template is preferred
    unless it is missing or 0. *)
Definition getAllTemplates (w : World) : list TemplateInfo :=
  match templatesJSON (mgr w) with
  | None => []
  | Some d =>
      match templates d with
      | None => []
      | Some ts =>
          map (fun ka : string * addr =>
                 let e := deref (heap w) (snd ka) in
                 mkTemplateInfo (fst ka) (e_name e) (e_coords e) (e_enabled e)
                   (match List.find (fun t => String.eqb (compositeKey t) (fst ka))
                                    (templatesArray (mgr w)) with
                    | Some t =>
                        if pixelCount t =? 0 then entryPixelCount e
                        else PCNumber (pixelCount t)
                    | None => entryPixelCount e
                    end))
              ts
      end
  end.

(** The loop of [setAllTemplatesEnabled]. *)
Fixpoint toggleEach (keys : list string) (en : bool) : M unit :=
  match keys with
  | [] => ret tt
  | k :: rest => (toggleTemplate k en ;;; toggleEach rest en)%js
  end.

(** [setAllTemplatesEnabled(enabled)]: the list is taken once, before the
    first toggle. *)
Definition setAllTemplatesEnabled (en : bool) : M unit :=
  fun w => toggleEach (map i_key (getAllTemplates w)) en w.

(** ** The edit dialogs of main.js *)

Module Dialog.

(** [s.trimStart()] and [s.trimEnd()] for ASCII white space. *)
Fixpoint trimStart (s : string) : string :=
  match s with
  | EmptyString => EmptyString
  | String a r => if JSString.is_space a then trimStart r else s
  end.

Fixpoint trimEnd (s : string) : string :=
  match s with
  | EmptyString => EmptyString
  | String a r =>
      match trimEnd r with
      | EmptyString => if JSString.is_space a then EmptyString else String a EmptyString
      | r' => String a r'
      end
  end.

(** [s.trim()]. *)
Definition trim (s : string) : string := trimEnd (trimStart s).

Definition hex_digit_of (a : ascii) : option Z :=
  let n := Z.of_nat (nat_of_ascii a) in
  if (48 <=? n) && (n <=? 57) then Some (n - 48)
  else if (97 <=? n) && (n <=? 102) then Some (n - 87)
  else if (65 <=? n) && (n <=? 70) then Some (n - 55)
  else None.

(** The value of the longest prefix of digits, [None] when there is none. *)
Fixpoint leading_digits (digit : ascii -> option Z) (radix : Z) (s : string)
         (acc : option Z) : option Z :=
  match s with
  | EmptyString => acc
  | String a r =>
      match digit a with
      | Some d => leading_digits digit radix r (Some (radix * default 0 acc + d))
      | None => acc
      end
  end.

(** [parseInt(s)] without a radix: leading white space, a sign, a 0x prefix
    for base 16, then the digits up to the first character that is none;
    [NaN] when no digit is found.  Integers are exact. *)
Definition parseInt (s : string) : JSNum :=
  let s1 := trimStart s in
  let negative := match s1 with String "-"%char _ => true | _ => false end in
  let s2 :=
    match s1 with
    | String "-"%char r => r
    | String "+"%char r => r
    | _ => s1
    end in
  let magnitude :=
    match s2 with
    | String "0"%char (String "x"%char r) => leading_digits hex_digit_of 16 r None
    | String "0"%char (String "X"%char r) => leading_digits hex_digit_of 16 r None
    | _ => leading_digits JSString.digit_of 10 s2 None
    end in
  match magnitude with
  | Some v => JNum (if negative then - v else v)
  | None => JNaN
  end.

(** [n < k] and [n > k] on a number that may be [NaN] or infinite. *)
Definition JSNum_lt (n : JSNum) (k : Z) : bool :=
  match n with
  | JNum z => z <? k
  | JNegInf => true
  | _ => false
  end.

Definition JSNum_gt (n : JSNum) (k : Z) : bool :=
  match n with
  | JNum z => k <? z
  | JPosInf => true
  | _ => false
  end.

Definition nth_coord (i : nat) (cs : list JSNum) : JSNum := default JNaN (cs !! i).

(** The checks of the handler of the save button of the coordinate editor. *)
Definition checkCoordinates (newCoords : list JSNum) : Result unit :=
  if existsb (fun c => JSNum_isNaN c || JSNum_lt c 0) newCoords then
    Err "All coordinates must be non-negative numbers"
  else if JSNum_gt (nth_coord 0 newCoords) 2047 || JSNum_gt (nth_coord 1 newCoords) 2047 then
    Err "Tile coordinates must be between 0-2047"
  else if JSNum_gt (nth_coord 2 newCoords) 999 || JSNum_gt (nth_coord 3 newCoords) 999 then
    Err "Pixel coordinates must be between 0-999"
  else Ok tt.

(** The handler of the save button of the coordinate editor, for the
    template listed under [templateKey] and the text of the four inputs.
    What it writes to the page is left out; the alert and the console error
    of its [catch] are one event. *)
Definition saveCoordinates (templateKey : string) (tileX tileY pixelX pixelY : string)
  : M unit :=
  let newCoords := [parseInt tileX; parseInt tileY; parseInt pixelX; parseInt pixelY] in
  catch
    (match checkCoordinates newCoords with
     | Err e => throw e
     | Ok _ =>
         (result <- updateTemplateCoordinates templateKey newCoords ;;
          modify (emit (Status result)))%js
     end)
    (fun e => modify (emit (Errored ("Failed to update coordinates: " ++ e)))).

(** The handler of the save button of the name editor. *)
Definition saveName (templateKey : string) (input : string) : M unit :=
  let newName := trim input in
  catch
    (match newName with
     | EmptyString => throw "Template name cannot be empty"
     | _ =>
         if (100 <? String.length newName)%nat then
           throw "Template name must be 100 characters or less"
         else
           (updateTemplateName templateKey newName ;;;
            modify (emit (Status ("Template renamed to " ++ dquote ++ newName ++ dquote))))%js
     end)
    (fun e => modify (emit (Errored ("Failed to update name: " ++ e)))).

(** [template.coords.split(',').map(s => parseInt(s.trim()))]: the
    coordinates the information dialog reads from the listing when it
    opens. *)
Definition currentCoords (coords : string) : list JSNum :=
  map (fun s => parseInt (trim s)) (JSString.split "," coords).

(** [input.value = currentCoords[i] || '']: a coordinate of 0, [NaN] and a
    missing member leave the input empty.  [parseInt] gives no infinity, so
    the two cases for one are never met. *)
Definition populate (c : option JSNum) : string :=
  match c with
  | Some (JNum z) => if z =? 0 then EmptyString else pretty z
  | Some JPosInf => "Infinity"
  | Some JNegInf => "-Infinity"
  | Some JNaN | None => EmptyString
  end.

(** The edit button followed by the save button, with nothing typed in
    between, in the dialog opened on a listing element with the given
    [coords]. *)
Definition editThenSave (templateKey : string) (coords : string) : M unit :=
  let cs := currentCoords coords in
  saveCoordinates templateKey (populate (cs !! 0%nat)) (populate (cs !! 1%nat))
                  (populate (cs !! 2%nat)) (populate (cs !! 3%nat)).

End Dialog.

(** ** The start of main.js *)

Module Startup.

(** [JSON.parse] of a stored document: every entry is a new object,
    allocated after those the heap holds.  The keys come back in the order
    they were written in, none of them being an array index. *)
Definition parse (s : Snapshot) (h : list Entry) : Doc * list Entry :=
  let entries := default [] (s_templates s) in
  (mkDoc (s_whoami s) (s_scriptVersion s) (s_schemaVersion s)
         (option_map (fun es => combine (map fst es) (seq (length h) (length es)))
                     (s_templates s)),
   (h ++ map snd entries)%list).

(** An object without properties, what [JSON.parse('{}')] gives. *)
Definition empty_object : Snapshot := mkSnapshot None None None None.

(** [o.templates && Object.keys(o.templates).length] as a condition. *)
Definition has_templates (s : Snapshot) : bool :=
  match s_templates s with
  | Some (_ :: _) => true
  | _ => false
  end.

(** The choice of [storageTemplates]: what the userscript storage holds,
    unless it holds no template and the localStorage backup holds one.
    [None] is a value never written, one that does not parse, or the
    string null. *)
Definition storageTemplates (userscript backup : option Snapshot) : Snapshot :=
  let stored := default empty_object userscript in
  if has_templates stored then stored
  else
    match backup with
    | Some parsed => if has_templates parsed then parsed else stored
    | None => stored
    end.

(** The manager is constructed and imports the stored document. *)
Definition start (P : Platform) (nm ver : string) (userscript backup : option Snapshot)
  : Outcome unit :=
  let json_heap := parse (storageTemplates userscript backup) [] in
  importJSON P (fst json_heap) (mkWorld (constructor nm ver) (snd json_heap) []).

End Startup.

(** ** More vocabulary *)

(** The entry the document holds under a composite key. *)
Definition storedEntry (w : World) (templateKey : string) : option Entry :=
  match templatesJSON (mgr w) with
  | Some d =>
      match JSObject.get templateKey (default [] (templates d)) with
      | Some a => Some (deref (heap w) a)
      | None => None
      end
  | None => None
  end.

(** The [templates] map of the manager document, empty when there is none. *)
Definition storedTemplates (w : World) : list (string * addr) :=
  match templatesJSON (mgr w) with
  | Some d => default [] (templates d)
  | None => []
  end.

(** The document map is that of an object: its keys are distinct, every
    address is allocated and no two keys share an entry. *)
Definition document_sound (w : World) : Prop :=
  NoDup (map fst (storedTemplates w))
  /\ NoDup (map snd (storedTemplates w))
  /\ Forall (fun ka : string * addr => (snd ka < length (heap w))%nat) (storedTemplates w).

Definition set_i_enabled (b : option bool) (i : TemplateInfo) : TemplateInfo :=
  mkTemplateInfo (i_key i) (i_name i) (i_coords i) b (i_pixelCount i).

Definition set_i_name (s : option string) (i : TemplateInfo) : TemplateInfo :=
  mkTemplateInfo (i_key i) s (i_coords i) (i_enabled i) (i_pixelCount i).

Definition set_i_coords (c : option string) (i : TemplateInfo) : TemplateInfo :=
  mkTemplateInfo (i_key i) (i_name i) c (i_enabled i) (i_pixelCount i).

(** The listing with one change applied to the element under a key. *)
Definition relist (templateKey : string) (change : TemplateInfo -> TemplateInfo)
           (l : list TemplateInfo) : list TemplateInfo :=
  map (fun i => if String.eqb (i_key i) templateKey then change i else i) l.

(** A string without the given character. *)
Fixpoint lacks (c : ascii) (s : string) : Prop :=
  match s with
  | EmptyString => True
  | String a r => a <> c /\ lacks c r
  end.

(** The last thing the world saw is the manager document being stored as
    it now is. *)
Definition persisted (w : World) : Prop :=
  exists earlier d,
    templatesJSON (mgr w) = Some d
    /\ events w = (earlier ++ [Stored (Some (snapshot (heap w) d))])%list.

Definition is_Stored (e : Event) : bool :=
  match e with
  | Stored _ => true
  | _ => false
  end.

(** The sum of the pixel counts of the templates drawn. *)
Definition drawnPixels (order : list (Template * Fragment)) : Z :=
  foldr (fun tf sum => pixelCount (fst tf) + sum) 0 order.

(** An entry that differs from another in its pixel count at most. *)
Definition same_fields (e e' : Entry) : Prop :=
  e_name e' = e_name e /\ e_coords e' = e_coords e
  /\ e_enabled e' = e_enabled e /\ e_tiles e' = e_tiles e.

(** The second world continues the first: the array and the event log are
    extended, nothing is stored, no entry is allocated and no entry changes
    in more than its pixel count. *)
Definition grows (w w' : World) : Prop :=
  (exists added, templatesArray (mgr w') = (templatesArray (mgr w) ++ added)%list)
  /\ (exists logged, events w' = (events w ++ logged)%list
                     /\ existsb is_Stored logged = false)
  /\ length (heap w') = length (heap w)
  /\ (forall a, same_fields (deref (heap w) a) (deref (heap w') a)).

(** A string without white space. *)
Definition whitespace_free (s : string) : Prop := JSString.remove_whitespace s = s.

(** A tile index of at most four digits. *)
Definition four_digits (z : Z) : Prop := 0 <= z <= 9999.

(** What the two sinks of [#storeTemplates] hold after the events: the
    document of the last [Stored] one. *)
Definition lastStored (evs : list Event) : option Snapshot :=
  fold_left (fun held e => match e with Stored d => d | _ => held end) evs None.

(** A listing element without its pixel count. *)
Definition listed (i : TemplateInfo) : string * option string * option string * option bool :=
  (i_key i, i_name i, i_coords i, i_enabled i).

(** An integer every number of JavaScript represents exactly. *)
Definition safe_integer (z : Z) : Prop :=
  - 9007199254740991 <= z <= 9007199254740991.

(** The text of an input reads, with [parseInt], as an integer from 0 to
    the limit. *)
Definition reads_within (input : string) (limit : Z) : Prop :=
  exists z, Dialog.parseInt input = JNum z /\ 0 <= z <= limit.

(** ** The compositor as the design document words it *)

Module CompositorSpec.

(** Where a fragment lies: the tile that owns it, the offset of its top
    left corner inside the tile in unscaled pixels, and the width the two
    offsets are zero-padded to in its key. *)
Record Placement : Type := mkPlacement {
  p_tile : Z * Z;
  p_offset : Z * Z;
  p_padding : nat
}.

(** Modelled from the spec: the key grammar of the Chunker, whose code
    (Template.js) is not among the sources: the two tile indices padded to
    four digits, then the two offsets, separated by commas. *)
Definition fragmentKey (p : Placement) : string :=
  JSString.padStart 4 "0" (pretty (fst (p_tile p))) ++ ","
    ++ JSString.padStart 4 "0" (pretty (snd (p_tile p))) ++ ","
    ++ JSString.padStart (p_padding p) "0" (pretty (fst (p_offset p))) ++ ","
    ++ JSString.padStart (p_padding p) "0" (pretty (snd (p_offset p))).

(** Tile indices of at most four digits and offsets inside a tile of 1000
    pixels a side. *)
Definition wellPlaced (p : Placement) : Prop :=
  (0 <= fst (p_tile p) <= 9999 /\ 0 <= snd (p_tile p) <= 9999)
  /\ (0 <= fst (p_offset p) <= 999 /\ 0 <= snd (p_offset p) <= 999).

Definition in_tile (xy : Z * Z) (p : Placement) : bool :=
  (fst (p_tile p) =? fst xy) && (snd (p_tile p) =? snd xy).

(** At most one fragment of a template is taken for a tile: the first one
    that lies in it. *)
Definition fragmentAt (xy : Z * Z) (fragments : list (Placement * Image))
  : option (Placement * Image) :=
  List.find (fun pf => in_tile xy (fst pf)) fragments.

(** The candidates for a tile, in the order of the array: the enabled
    templates with a fragment in the tile, each with that fragment. *)
Definition candidates (xy : Z * Z) (fragmentsOf : Template -> list (Placement * Image))
           (array : list Template) : list (Template * (Placement * Image)) :=
  omap (fun t => if enabled t
                 then option_map (pair t) (fragmentAt xy (fragmentsOf t))
                 else None)
       array.

(** A candidate is drawn unscaled, its corner at the offset times the
    multiplier. *)
Definition draw (mix : RGBA -> RGBA -> RGBA) (mult : Z) (surface : Image)
           (c : Template * (Placement * Image)) : Image :=
  let p := fst (snd c) in
  Canvas2D.drawImage mix (snd (snd c))
                     (fst (p_offset p) * mult) (snd (p_offset p) * mult) surface.

(** The candidates drawn one after the other, the first of the list first. *)
Definition paint (mix : RGBA -> RGBA -> RGBA) (mult : Z)
           (order : list (Template * (Placement * Image))) (base : Image) : Image :=
  fold_left (draw mix mult) order base.

(** The pixel a candidate has for the surface cell (x, y), when its bitmap
    reaches that cell. *)
Definition shows (mult : Z) (c : Template * (Placement * Image)) (x y : Z) : option RGBA :=
  let p := fst (snd c) in
  let dx := x - fst (p_offset p) * mult in
  let dy := y - snd (p_offset p) * mult in
  if inside (snd (snd c)) dx dy then Some (pixelAt (snd (snd c)) dx dy) else None.

(** A candidate that leaves the cell (x, y) as it is. *)
Definition passes (mult : Z) (x y : Z) (c : Template * (Placement * Image)) : Prop :=
  forall q, shows mult c x y = Some q -> alpha q <= 0.

End CompositorSpec.

(** The fragments of a template are filed under keys of the grammar, as
    [fragmentsOf] describes them. *)
Definition follows_grammar
           (fragmentsOf : Template -> list (CompositorSpec.Placement * Image))
           (t : Template) : Prop :=
  chunked t = map (fun pf => (CompositorSpec.fragmentKey (fst pf), snd pf)) (fragmentsOf t)
  /\ Forall (fun pf => CompositorSpec.wellPlaced (fst pf)) (fragmentsOf t).

(** Four templates on two tiles.  The red one has a fragment in tile (1, 0)
    before its fragment in tile (0, 0); the green one, with the highest
    sortID of the enabled ones, has a fragment in tile (1, 0) only; the
    grey one lies in tile (0, 0) and is switched off. *)
Module CompositorDemo.

Definition opaque_green : RGBA := mkRGBA 0 255 0 255.

Definition opaque_grey : RGBA := mkRGBA 128 128 128 255.

Definition red : Template :=
  mkTemplate "red" 2 "!" None true
             [("0001,0000,0,0", Demo.dot Demo.opaque_red);
              ("0000,0000,001,001", Demo.dot Demo.opaque_red)] 2.

Definition blue : Template :=
  mkTemplate "blue" 5 "!" None true [("0000,0000,1,1", Demo.dot Demo.opaque_blue)] 1.

Definition green : Template :=
  mkTemplate "green" 7 "!" None true [("0001,0000,1,1", Demo.dot opaque_green)] 1.

Definition grey : Template :=
  mkTemplate "grey" 9 "!" None false [("0000,0000,1,1", Demo.dot opaque_grey)] 1.

Definition world : World :=
  mkWorld (set_templatesArray [green; blue; grey; red] (constructor "Blue Peanits" "0.81.1"))
          [] [].

Definition fragmentsOf (t : Template) : list (CompositorSpec.Placement * Image) :=
  if sortID t =? 2 then
    [(CompositorSpec.mkPlacement (1, 0) (0, 0) 0, Demo.dot Demo.opaque_red);
     (CompositorSpec.mkPlacement (0, 0) (1, 1) 3, Demo.dot Demo.opaque_red)]
  else if sortID t =? 5 then
    [(CompositorSpec.mkPlacement (0, 0) (1, 1) 0, Demo.dot Demo.opaque_blue)]
  else if sortID t =? 7 then
    [(CompositorSpec.mkPlacement (1, 0) (1, 1) 0, Demo.dot opaque_green)]
  else
    [(CompositorSpec.mkPlacement (0, 0) (1, 1) 0, Demo.dot opaque_grey)].

End CompositorDemo.

(** [parseInt] of a string that starts with a decimal digit other than a
    radix prefix, given the value [Hl] of its digits. *)
Ltac by_leading_digits Hl :=
  match goal with
  | |- Dialog.parseInt ?s = _ =>
      transitivity
        (match Dialog.leading_digits JSString.digit_of 10 s None with
         | Some v => JNum v
         | None => JNaN
         end); [reflexivity|rewrite Hl; reflexivity]
  end.

(** * Properties *)

(** ** Counting in lists *)

Section ListCounting.

Context {A B : Type}.

Lemma length_filter_flat_map (p : B -> bool) (f : A -> list B) (l : list A) :
  length (List.filter p (flat_map f l))
  = sum_list (map (fun a => length (List.filter p (f a))) l).
Proof.
  induction l as [|a l IH]; simpl; [reflexivity|].
  rewrite List.filter_app, length_app, IH. reflexivity.
Qed.

Lemma length_filter_map (p : B -> bool) (f : A -> B) (l : list A) :
  length (List.filter p (map f l)) = length (List.filter (fun a => p (f a)) l).
Proof.
  induction l as [|a l IH]; simpl; [reflexivity|].
  destruct (p (f a)); simpl; rewrite IH; reflexivity.
Qed.

Lemma length_filter_andb (p q : A -> bool) (l : list A) :
  length (List.filter (fun a => p a && q a) l)
  = length (List.filter q (List.filter p l)).
Proof.
  induction l as [|a l IH]; simpl; [reflexivity|].
  destruct (p a); simpl; [destruct (q a); simpl; rewrite IH|]; auto.
Qed.

Lemma length_filter_false (p : A -> bool) (l : list A) :
  (forall a, p a = false) -> length (List.filter p l) = 0%nat.
Proof.
  intros H. induction l as [|a l IH]; simpl; [reflexivity|].
  rewrite H. exact IH.
Qed.

Lemma sum_list_filter (p : A -> bool) (g : A -> nat) (l : list A) :
  (forall a, p a = false -> g a = 0%nat) ->
  sum_list (map g l) = sum_list (map g (List.filter p l)).
Proof.
  intros H. induction l as [|a l IH]; simpl; [reflexivity|].
  destruct (p a) eqn:E; simpl; rewrite IH; [reflexivity|].
  rewrite (H a E). reflexivity.
Qed.

Lemma lookup_flat_map_uniform (f : A -> list B) (k : nat) (l : list A) :
  (forall a, length (f a) = k) ->
  forall (i j : nat) (a : A),
    l !! i = Some a -> (j < k)%nat -> flat_map f l !! (i * k + j)%nat = f a !! j.
Proof.
  intros Hk. induction l as [|b l IH]; intros i j a Hi Hj; [discriminate|].
  destruct i as [|i]; simpl in *.
  - injection Hi as ->. apply lookup_app_l. rewrite Hk. exact Hj.
  - rewrite lookup_app_r by (rewrite Hk; lia).
    rewrite Hk. replace (k + i * k + j - k)%nat with (i * k + j)%nat by lia.
    apply IH; assumption.
Qed.

End ListCounting.

(** ** The pixel-count reconstructor *)

Import PixelCountSpec.

Lemma center_step (i n : Z) :
  i mod 3 = 1 -> 0 < n ->
  List.filter center (seqZ i n) = i :: List.filter center (seqZ (i + 3) (n - 3)).
Proof.
  intros Hi Hn.
  assert (Hc : forall j, j mod 3 <> 1 -> center j = false).
  { intros j Hj. unfold center. apply Z.eqb_neq. exact Hj. }
  rewrite seqZ_cons by lia. simpl.
  replace (center i) with true by (unfold center; symmetry; apply Z.eqb_eq; exact Hi).
  f_equal.
  destruct (Z.le_gt_cases (Z.pred n) 0) as [H1|H1].
  { rewrite !seqZ_nil by lia. reflexivity. }
  rewrite seqZ_cons by lia. simpl.
  rewrite Hc by (Z.to_euclidean_division_equations; lia).
  destruct (Z.le_gt_cases (Z.pred (Z.pred n)) 0) as [H2|H2].
  { rewrite !seqZ_nil by lia. reflexivity. }
  rewrite seqZ_cons by lia. simpl.
  rewrite Hc by (Z.to_euclidean_division_equations; lia).
  replace (Z.succ (Z.succ (Z.succ i))) with (i + 3) by lia.
  replace (Z.pred (Z.pred (Z.pred n))) with (n - 3) by lia.
  reflexivity.
Qed.

Lemma for_step3_sum (bound lo : Z) (body : Z -> Z -> Z) (g : Z -> nat) :
  (forall i acc, lo <= i < bound -> body i acc = acc + Z.of_nat (g i)) ->
  forall (fuel : nat) (i acc : Z),
    i mod 3 = 1 -> lo <= i -> bound - i <= Z.of_nat fuel ->
    for_step3 fuel i bound body acc
    = acc + Z.of_nat (sum_list (map g (List.filter center (seqZ i (bound - i))))).
Proof.
  intros Hbody. induction fuel as [|fuel IH]; intros i acc Hi Hlo Hfuel; simpl.
  - rewrite seqZ_nil by lia. simpl. lia.
  - destruct (Z.ltb_spec i bound) as [Hlt|Hge].
    + rewrite IH by (try lia; Z.to_euclidean_division_equations; lia).
      rewrite Hbody by lia.
      rewrite (center_step i (bound - i)) by lia. simpl.
      replace (bound - (i + 3)) with (bound - i - 3) by lia. lia.
    + rewrite seqZ_nil by lia. simpl. lia.
Qed.

Lemma length_flat_map_uniform {A B} (f : A -> list B) (k : nat) (l : list A) :
  (forall a, length (f a) = k) -> length (flat_map f l) = (length l * k)%nat.
Proof.
  intros Hk. induction l as [|a l IH]; simpl; [reflexivity|].
  rewrite length_app, Hk, IH. reflexivity.
Qed.

Lemma getImageData_alpha (img : Image) (x y : Z) :
  0 <= x < Z.pos (width img) -> 0 <= y < Z.pos (height img) ->
  Canvas2D.getImageData img !! Z.to_nat ((y * Z.pos (width img) + x) * 4 + 3)
  = Some (alpha (pixelAt img x y)).
Proof.
  intros Hx Hy. unfold Canvas2D.getImageData.
  set (cell := fun y x => let p := pixelAt img x y in [red p; green p; blue p; alpha p]).
  set (row := fun y => flat_map (cell y) (seqZ 0 (Z.pos (width img)))).
  assert (Hrow : forall y', length (row y') = (Pos.to_nat (width img) * 4)%nat).
  { intros y'. unfold row.
    rewrite (length_flat_map_uniform _ 4%nat) by reflexivity.
    rewrite length_seqZ. reflexivity. }
  replace (Z.to_nat ((y * Z.pos (width img) + x) * 4 + 3))
    with (Z.to_nat y * (Pos.to_nat (width img) * 4) + (Z.to_nat x * 4 + 3))%nat by lia.
  rewrite (lookup_flat_map_uniform row _ _ Hrow _ _ y).
  - unfold row.
    rewrite (lookup_flat_map_uniform (cell y) 4%nat _ (fun _ => eq_refl) _ _ x).
    + reflexivity.
    + rewrite lookup_seqZ_lt by lia. f_equal. lia.
    + lia.
  - rewrite lookup_seqZ_lt by lia. f_equal. lia.
  - lia.
Qed.

Lemma blank_drawImage_visible (mix : RGBA -> RGBA -> RGBA) (bmp : Image) (x y : Z) :
  0 <= x < Z.pos (width bmp) -> 0 <= y < Z.pos (height bmp) ->
  (0 <? alpha (pixelAt (Canvas2D.drawImage mix bmp 0 0
                          (Canvas2D.blank (width bmp) (height bmp))) x y))
  = (0 <? alpha (pixelAt bmp x y)).
Proof.
  intros Hx Hy. simpl. unfold inside. simpl.
  rewrite !Z.sub_0_r.
  replace (0 <=? x) with true by (symmetry; apply Z.leb_le; lia).
  replace (0 <=? y) with true by (symmetry; apply Z.leb_le; lia).
  replace (x <? Z.pos (width bmp)) with true by (symmetry; apply Z.ltb_lt; lia).
  replace (y <? Z.pos (height bmp)) with true by (symmetry; apply Z.ltb_lt; lia).
  simpl. unfold Canvas2D.source_over. simpl.
  destruct (Z.leb_spec (alpha (pixelAt bmp x y)) 0) as [H|H].
  - simpl. symmetry. apply Z.ltb_ge. exact H.
  - destruct (255 <=? alpha (pixelAt bmp x y)); reflexivity.
Qed.

Lemma count_centers_spec (mix : RGBA -> RGBA -> RGBA) (bmp : Image) (total : Z) :
  count_centers
    (Canvas2D.getImageData
       (Canvas2D.drawImage mix bmp 0 0 (Canvas2D.blank (width bmp) (height bmp))))
    (Z.pos (width bmp)) (Z.pos (height bmp)) total
  = total + Z.of_nat (fragmentCount bmp).
Proof.
  set (canvas := Canvas2D.drawImage mix bmp 0 0 (Canvas2D.blank (width bmp) (height bmp))).
  set (w := Z.pos (width bmp)). set (h := Z.pos (height bmp)).
  set (visible := fun y x => 0 <? alpha (pixelAt bmp x y)).
  set (rowCount := fun y =>
         length (List.filter (visible y) (List.filter center (seqZ 1 (w - 1))))).
  unfold count_centers.
  rewrite (for_step3_sum h 1 _ rowCount).
  - f_equal. f_equal. unfold fragmentCount, cells. fold w h. symmetry.
    assert (Hskip : forall n, List.filter center (seqZ 0 n) = List.filter center (seqZ 1 (n - 1))).
    { intros n. destruct (Z.le_gt_cases n 0) as [Hn|Hn].
      - rewrite !seqZ_nil by lia. reflexivity.
      - rewrite seqZ_cons by lia. replace (Z.pred n) with (n - 1) by lia. reflexivity. }
    rewrite length_filter_flat_map.
    rewrite (sum_list_filter center
               (fun y => length (List.filter (counted bmp) (map (fun x => (x, y)) (seqZ 0 w))))).
    + rewrite Hskip. apply f_equal. apply map_ext_in. intros y Hy.
      apply List.filter_In in Hy. destruct Hy as [_ Hy].
      rewrite length_filter_map. unfold counted. simpl. unfold rowCount.
      rewrite <- Hskip.
      rewrite <- (length_filter_andb center (visible y)).
      apply f_equal. apply List.filter_ext. intros x.
      rewrite Hy, andb_true_r. reflexivity.
    + intros y Hy. rewrite length_filter_map.
      apply length_filter_false. intros x. unfold counted. simpl.
      rewrite Hy, andb_false_r. reflexivity.
  - intros y acc Hy.
    rewrite (for_step3_sum w 1 _ (fun x => if visible y x then 1%nat else 0%nat)).
    + f_equal. f_equal. unfold rowCount.
      generalize (List.filter center (seqZ 1 (w - 1))) as l.
      induction l as [|x l IH]; simpl; [reflexivity|].
      destruct (visible y x); simpl; rewrite IH; reflexivity.
    + intros x acc' Hx. unfold byte_positive.
      assert (Hw : Z.pos (width canvas) = w) by reflexivity.
      rewrite <- Hw at 1.
      rewrite getImageData_alpha by (unfold canvas, w, h in *; simpl; lia).
      unfold canvas. rewrite blank_drawImage_visible by (unfold w, h in *; lia).
      unfold visible. destruct (0 <? alpha (pixelAt bmp x y)); simpl; lia.
    + reflexivity.
    + lia.
    + unfold w. lia.
  - reflexivity.
  - lia.
  - unfold h. lia.
Qed.

Lemma computePixelCount_loop (mix : RGBA -> RGBA -> RGBA)
      (tileBitmaps : list (string * Image)) (total : Z) :
  fold_left
    (fun (acc : Result Z) (kv : string * Image) =>
       match acc with
       | Err e => Err e
       | Ok total =>
           let bmp := snd kv in
           let canvas :=
             Canvas2D.drawImage mix bmp 0 0 (Canvas2D.blank (width bmp) (height bmp)) in
           let data := Canvas2D.getImageData canvas in
           Ok (count_centers data (Z.pos (width bmp)) (Z.pos (height bmp)) total)
       end)
    tileBitmaps (Ok total)
  = Ok (total + logicalPixelCount tileBitmaps).
Proof.
  unfold logicalPixelCount. revert total.
  induction tileBitmaps as [|[key bmp] rest IH]; intros total.
  - simpl. f_equal. lia.
  - cbn [fold_left snd map]. rewrite count_centers_spec, IH. f_equal.
    change (sum_list (fragmentCount bmp :: map (fun kv => fragmentCount (snd kv)) rest))
      with (fragmentCount bmp + sum_list (map (fun kv => fragmentCount (snd kv)) rest))%nat.
    lia.
Qed.

(** C9.  On a working canvas, [#computePixelCountFromTiles] returns, for
    every mapping from fragment keys to bitmaps, the number of cells summed
    over all fragments whose x and y indices are both congruent to 1 modulo 3
    and whose alpha channel is greater than zero. *)
Theorem reconstructor_counts_center_cells (P : Platform) (tileBitmaps : list (string * Image)) :
  canvas_support P = CanvasReady ->
  computePixelCountFromTiles P tileBitmaps = Ok (logicalPixelCount tileBitmaps).
Proof.
  intros Hready. unfold computePixelCountFromTiles. rewrite Hready.
  apply (computePixelCount_loop (mix P) tileBitmaps 0).
Qed.

Lemma reconstructor_counts_center_cells_witness :
  canvas_support (Demo.platform CanvasReady) = CanvasReady
  /\ computePixelCountFromTiles (Demo.platform CanvasReady)
       [("0000,0000,0,0", Demo.two_cells); ("0001,0000,0,0", Demo.dot Demo.opaque_blue)]
     = Ok 2.
Proof.
  split; [reflexivity|].
  apply (reconstructor_counts_center_cells (Demo.platform CanvasReady)
           [("0000,0000,0,0", Demo.two_cells); ("0001,0000,0,0", Demo.dot Demo.opaque_blue)]).
  reflexivity.
Defined.

(** ** Sorting *)


Lemma insert_by_sortID_Permutation (t : Template) (l : list Template) :
  Permutation (insert_by_sortID t l) (t :: l).
Proof.
  induction l as [|u l IH]; simpl; [reflexivity|].
  destruct (sortID t <=? sortID u); [reflexivity|].
  rewrite IH. apply perm_swap.
Qed.

Lemma sort_by_sortID_Permutation (l : list Template) :
  Permutation (sort_by_sortID l) l.
Proof.
  induction l as [|t l IH]; simpl; [reflexivity|].
  rewrite insert_by_sortID_Permutation, IH. reflexivity.
Qed.

Lemma insert_by_sortID_sorted (t : Template) (l : list Template) :
  StronglySorted by_sortID l -> StronglySorted by_sortID (insert_by_sortID t l).
Proof.
  induction l as [|u l IH]; intros Hs; simpl.
  - constructor; constructor.
  - inversion Hs as [|? ? Hl Hu]; subst.
    destruct (Z.leb_spec (sortID t) (sortID u)) as [Hle|Hgt].
    + constructor; [exact Hs|]. constructor; [exact Hle|].
      eapply Forall_impl; [|exact Hu]. unfold by_sortID. intros; lia.
    + constructor; [apply IH; exact Hl|].
      rewrite Forall_forall. intros v Hv.
      apply (Permutation_in _ (insert_by_sortID_Permutation t l)) in Hv.
      destruct Hv as [<-|Hv]; [unfold by_sortID; lia|].
      rewrite Forall_forall in Hu. apply Hu. exact Hv.
Qed.

Lemma sort_by_sortID_sorted (l : list Template) :
  StronglySorted by_sortID (sort_by_sortID l).
Proof.
  induction l as [|t l IH]; simpl; [constructor|].
  apply insert_by_sortID_sorted. exact IH.
Qed.

(** ** Who is drawn *)

Lemma drawOrder_fragments (prefix : string) (l : list Template) :
  map snd (drawOrder prefix l) = templatesToDraw prefix l.
Proof.
  unfold drawOrder, templatesToDraw.
  induction (List.filter enabled l) as [|t r IH]; simpl; [reflexivity|].
  destruct (fragmentFor prefix t); simpl; [f_equal|]; apply IH.
Qed.

Lemma drawOrder_In (prefix : string) (l : list Template) (t : Template) (f : Fragment) :
  In (t, f) (drawOrder prefix l)
  <-> In t l /\ enabled t = true /\ fragmentFor prefix t = Some f.
Proof.
  unfold drawOrder. induction l as [|u l IH]; simpl; [tauto|].
  destruct (enabled u) eqn:Hen; simpl.
  - destruct (fragmentFor prefix u) as [g|] eqn:Hf; simpl.
    + rewrite IH. split.
      * intros [H|H]; [injection H as <- <-; auto|tauto].
      * intros [[->|H] [H1 H2]]; [left; congruence|right; auto].
    + rewrite IH. split; [tauto|].
      intros [[->|H] [H1 H2]]; [congruence|auto].
  - rewrite IH. split; [tauto|].
    intros [[->|H] [H1 H2]]; [congruence|auto].
Qed.

Lemma drawOrder_sorted (prefix : string) (l : list Template) :
  StronglySorted by_sortID l ->
  StronglySorted (fun a b => by_sortID (fst a) (fst b)) (drawOrder prefix l).
Proof.
  intros Hs. induction Hs as [|u l Hl IH Hu]; [constructor|].
  unfold drawOrder in *. simpl.
  destruct (enabled u); simpl; [|exact IH].
  destruct (fragmentFor prefix u) as [g|]; simpl; [|exact IH].
  constructor; [exact IH|].
  rewrite Forall_forall. intros [t f] Hin.
  apply (proj1 (drawOrder_In prefix l t f)) in Hin. destruct Hin as [Hin _].
  rewrite Forall_forall in Hu. simpl. apply Hu. exact Hin.
Qed.

Lemma sorted_lower_first {A} (key : A -> Z) (l : list A) (a b : A) :
  StronglySorted (fun x y => key x <= key y) l ->
  In a l -> In b l -> key a < key b ->
  exists l1 l2 l3, l = (l1 ++ a :: l2 ++ b :: l3)%list.
Proof.
  intros Hs Ha Hb Hlt.
  induction Hs as [|c l Hl IH Hc].
  - destruct Ha.
  - rewrite Forall_forall in Hc.
    destruct Ha as [->|Ha].
    + destruct Hb as [->|Hb]; [lia|].
      apply in_split in Hb. destruct Hb as (l2 & l3 & ->).
      exists [], l2, l3. reflexivity.
    + destruct Hb as [->|Hb].
      * specialize (Hc a Ha). lia.
      * destruct (IH Ha Hb) as (l1 & l2 & l3 & ->).
        exists (c :: l1), l2, l3. reflexivity.
Qed.

(** ** Drawing *)

Section Drawing.

Variable P : Platform.

Lemma drawFragment_size (mult : Z) (c : Image) (f : Fragment) :
  width (drawFragment P mult c f) = width c
  /\ height (drawFragment P mult c f) = height c.
Proof.
  unfold drawFragment.
  destruct (JSString.Number_opt (fst (pixelCoords f))),
    (JSString.Number_opt (snd (pixelCoords f))); split; reflexivity.
Qed.

Lemma drawFragments_size (mult : Z) (fs : list Fragment) (c : Image) :
  width (fold_left (drawFragment P mult) fs c) = width c
  /\ height (fold_left (drawFragment P mult) fs c) = height c.
Proof.
  revert c. induction fs as [|f fs IH]; intros c; simpl; [split; reflexivity|].
  destruct (IH (drawFragment P mult c f)) as [-> ->].
  apply drawFragment_size.
Qed.

Lemma inside_drawFragment (mult : Z) (c : Image) (f : Fragment) (x y : Z) :
  inside (drawFragment P mult c f) x y = inside c x y.
Proof.
  unfold inside. destruct (drawFragment_size mult c f) as [-> ->]. reflexivity.
Qed.

Lemma drawFragment_pixel (mult : Z) (c : Image) (f : Fragment) (x y : Z) :
  pixelAt (drawFragment P mult c f) x y
  = match placed mult f x y with
    | Some p =>
        if inside c x y
        then Canvas2D.source_over (mix P) p (pixelAt c x y)
        else pixelAt c x y
    | None => pixelAt c x y
    end.
Proof.
  unfold drawFragment, placed.
  destruct (JSString.Number_opt (fst (pixelCoords f))) as [px|]; [|reflexivity].
  destruct (JSString.Number_opt (snd (pixelCoords f))) as [py|]; [|reflexivity].
  simpl.
  destruct (inside c x y), (inside (bitmap f) (x - px * mult) (y - py * mult)); reflexivity.
Qed.

Lemma drawFragments_untouched (mult : Z) (fs : list Fragment) (c : Image) (x y : Z) :
  Forall (untouched mult x y) fs ->
  pixelAt (fold_left (drawFragment P mult) fs c) x y = pixelAt c x y.
Proof.
  intros H. revert c. induction H as [|f fs Hf Hfs IH]; intros c; simpl; [reflexivity|].
  rewrite IH, drawFragment_pixel.
  destruct (placed mult f x y) as [q|] eqn:Hq; [|reflexivity].
  destruct (inside c x y); [|reflexivity].
  unfold Canvas2D.source_over.
  replace (alpha q <=? 0) with true; [reflexivity|].
  symmetry. apply Z.leb_le. apply Hf. exact Hq.
Qed.

Lemma source_over_opaque (p dst : RGBA) :
  255 <= alpha p -> Canvas2D.source_over (mix P) p dst = p.
Proof.
  intros H. unfold Canvas2D.source_over.
  replace (alpha p <=? 0) with false by (symmetry; apply Z.leb_gt; lia).
  replace (255 <=? alpha p) with true by (symmetry; apply Z.leb_le; lia).
  reflexivity.
Qed.

Lemma last_opaque_fragment_wins (mult : Z) (before after : list Fragment)
      (f : Fragment) (c : Image) (x y : Z) (p : RGBA) :
  inside c x y = true ->
  placed mult f x y = Some p ->
  255 <= alpha p ->
  Forall (untouched mult x y) after ->
  pixelAt (fold_left (drawFragment P mult) (before ++ f :: after)%list c) x y = p.
Proof.
  intros Hin Hp Ha Hafter.
  rewrite fold_left_app. simpl.
  rewrite drawFragments_untouched by exact Hafter.
  rewrite drawFragment_pixel, Hp.
  assert (Hin' : inside (fold_left (drawFragment P mult) before c) x y = true).
  { unfold inside. destruct (drawFragments_size mult before c) as [-> ->]. exact Hin. }
  rewrite Hin'. apply source_over_opaque. exact Ha.
Qed.

End Drawing.

(** ** The tile compositor *)

Lemma source_over_blank (mix : RGBA -> RGBA -> RGBA) (p : RGBA) :
  Canvas2D.source_over mix p transparent = visiblePixel p.
Proof.
  unfold Canvas2D.source_over, visiblePixel. simpl.
  destruct (alpha p <=? 0); [reflexivity|].
  destruct (255 <=? alpha p); reflexivity.
Qed.

Lemma no_candidates (prefix : string) (l : list Template) :
  (forall t, In t l -> enabled t = true -> matchingTiles prefix t = []) ->
  templatesToDraw prefix l = [].
Proof.
  intros H. unfold templatesToDraw.
  induction l as [|t l IH]; simpl; [reflexivity|].
  assert (IH' := IH (fun u Hu => H u (or_intror Hu))).
  destruct (enabled t) eqn:Hen; [|exact IH'].
  simpl. unfold fragmentFor. rewrite (H t (or_introl eq_refl) Hen). exact IH'.
Qed.

(** C10.  While [templatesShouldBeDrawn] is false, [drawTemplateOnTile]
    returns the blob it was given and leaves the world as it was: nothing is
    composited, nothing is encoded again, no status is shown, whatever
    templates the manager holds. *)
Theorem drawTemplateOnTile_switched_off (P : Platform) (tileBlob : Image)
        (tileXY : Z * Z) (w : World) :
  templatesShouldBeDrawn (mgr w) = false ->
  drawTemplateOnTile P tileBlob tileXY w = Ret tileBlob w.
Proof.
  intros Hoff. unfold drawTemplateOnTile. rewrite Hoff. reflexivity.
Qed.

Lemma drawTemplateOnTile_switched_off_witness :
  let w := with_mgr (setTemplatesShouldBeDrawn false) Demo.imported in
  let tile := Demo.plain_tile 2 2 Demo.opaque_red in
  templatesShouldBeDrawn (mgr w) = false
  /\ length (templatesToDraw (tilePrefix (0, 0)) (templatesArray (mgr w))) = 2%nat
  /\ drawTemplateOnTile (Demo.platform CanvasReady) tile (0, 0) w = Ret tile w.
Proof.
  split; [reflexivity|]. split; [reflexivity|].
  apply drawTemplateOnTile_switched_off. reflexivity.
Defined.

(** What a call of [drawTemplateOnTile] leaves alone: the document, the
    heap of entries and the templates themselves, which are only
    rearranged. *)
Lemma drawTemplateOnTile_frame (P : Platform) (tileBlob : Image) (tileXY : Z * Z) (w : World) :
  let w' := world_of (drawTemplateOnTile P tileBlob tileXY w) in
  templatesJSON (mgr w') = templatesJSON (mgr w)
  /\ heap w' = heap w
  /\ Permutation (templatesArray (mgr w')) (templatesArray (mgr w)).
Proof.
  unfold drawTemplateOnTile.
  destruct (templatesShouldBeDrawn (mgr w)); simpl; [|auto].
  destruct (tileSize (mgr w) * drawMult (mgr w)); simpl;
    (split; [reflexivity|split; [reflexivity|apply sort_by_sortID_Permutation]]).
Qed.

(** What it does to the array: it leaves it sorted. *)
Lemma drawTemplateOnTile_sorts_templatesArray (P : Platform) (tileBlob : Image)
      (tileXY : Z * Z) (w : World) :
  templatesShouldBeDrawn (mgr w) = true ->
  templatesArray (mgr (world_of (drawTemplateOnTile P tileBlob tileXY w)))
  = sort_by_sortID (templatesArray (mgr w)).
Proof.
  intros Hon. unfold drawTemplateOnTile. rewrite Hon. cbn [negb].
  destruct (tileSize (mgr w) * drawMult (mgr w)); reflexivity.
Qed.

(** C5.  A call of [drawTemplateOnTile] sorts the manager's own array: the
    templates imported in the order 5, 2 stand in the order 2, 5 afterwards. *)
Theorem drawTemplateOnTile_reorders_templatesArray :
  let tile := Demo.plain_tile 1000 1000 Demo.opaque_red in
  let w' := world_of (drawTemplateOnTile (Demo.platform CanvasReady) tile (0, 0) Demo.imported) in
  templatesShouldBeDrawn (mgr Demo.imported) = true
  /\ templatesArray (mgr Demo.imported) = [Demo.blue_template; Demo.red_template]
  /\ templatesArray (mgr w') = [Demo.red_template; Demo.blue_template].
Proof. repeat split; reflexivity. Qed.

(** C4, as the code has it.  When no enabled template has a fragment for
    the tile, [drawTemplateOnTile] returns a square image of
    [tileSize * drawMult] cells a side, whatever the size of the input; each
    cell shows the input cell it falls into, and the status line reports
    zero templates. *)
Theorem drawTemplateOnTile_without_candidates (P : Platform) (tileBlob : Image)
        (tileXY : Z * Z) (w : World) (size : positive) :
  templatesShouldBeDrawn (mgr w) = true ->
  tileSize (mgr w) * drawMult (mgr w) = Z.pos size ->
  (forall t, In t (templatesArray (mgr w)) -> enabled t = true ->
             matchingTiles (tilePrefix tileXY) t = []) ->
  exists img w',
    drawTemplateOnTile P tileBlob tileXY w = Ret img w'
    /\ width img = size /\ height img = size
    /\ (forall x y, 0 <= x < Z.pos size -> 0 <= y < Z.pos size ->
          pixelAt img x y
          = visiblePixel (pixelAt tileBlob (x * Z.pos (width tileBlob) / Z.pos size)
                                           (y * Z.pos (height tileBlob) / Z.pos size)))
    /\ events w' = (events w ++ [Status "Displaying 0 templates."])%list.
Proof.
  intros Hon Hsize Hnone.
  assert (Hdraw : templatesToDraw (tilePrefix tileXY) (sort_by_sortID (templatesArray (mgr w))) = []).
  { apply no_candidates. intros t Ht. apply Hnone.
    apply (Permutation_in _ (sort_by_sortID_Permutation _)). exact Ht. }
  unfold drawTemplateOnTile. rewrite Hon, Hsize. cbn [negb].
  unfold displayStatus. rewrite Hdraw. cbn [fold_left length].
  eexists. eexists. split; [reflexivity|].
  split; [reflexivity|]. split; [reflexivity|]. split; [|reflexivity].
  intros x y Hx Hy. unfold Canvas2D.drawImageScaled, Canvas2D.blank, inside.
  cbn [pixelAt width height].
  assert (H0x : (0 <=? x) = true) by (apply Z.leb_le; lia).
  assert (H0y : (0 <=? y) = true) by (apply Z.leb_le; lia).
  assert (H1x : (x <? Z.pos size) = true) by (apply Z.ltb_lt; lia).
  assert (H1y : (y <? Z.pos size) = true) by (apply Z.ltb_lt; lia).
  rewrite H0x, H0y, H1x, H1y.
  cbn [andb]. apply source_over_blank.
Qed.

Lemma drawTemplateOnTile_without_candidates_witness :
  let w := Demo.imported in
  let tile := Demo.plain_tile 1000 1000 Demo.opaque_red in
  map enabled (templatesArray (mgr w)) = [true; true]
  /\ exists img w',
      drawTemplateOnTile (Demo.platform CanvasReady) tile (12, 34) w = Ret img w'
      /\ width img = 3000%positive /\ height img = 3000%positive
      /\ (forall x y, 0 <= x < 3000 -> 0 <= y < 3000 ->
            pixelAt img x y
            = visiblePixel (pixelAt tile (x * Z.pos (width tile) / 3000)
                                         (y * Z.pos (height tile) / 3000)))
      /\ events w' = (events w ++ [Status "Displaying 0 templates."])%list.
Proof.
  split; [reflexivity|].
  apply (drawTemplateOnTile_without_candidates (Demo.platform CanvasReady)
           (Demo.plain_tile 1000 1000 Demo.opaque_red) (12, 34) Demo.imported 3000).
  - reflexivity.
  - reflexivity.
  - intros t [<-|[<-|[]]] _; reflexivity.
Defined.

(** C4 as it is worded fails: with no template at all, a 1000 x 1000 tile
    comes back as a 3000 x 3000 image. *)
Lemma drawTemplateOnTile_resizes_tile :
  let w := Demo.fresh "Blue Peanits" in
  let tile := Demo.plain_tile 1000 1000 Demo.opaque_red in
  templatesToDraw (tilePrefix (12, 34)) (templatesArray (mgr w)) = []
  /\ exists img,
      returned (drawTemplateOnTile (Demo.platform CanvasReady) tile (12, 34) w) = Some img
      /\ width img = 3000%positive
      /\ width img <> width tile.
Proof.
  split; [reflexivity|].
  eexists. split; [reflexivity|]. split; [reflexivity|]. discriminate.
Qed.

(** ** createTemplate and deleteTemplate *)

(** C2, as the code has it.  [createTemplate] gives the new template the
    number of entries of the persisted collection as its sortID. *)
Theorem createTemplate_sortID_is_count (P : Platform) (blob : Image) (nm : string)
        (cs : list JSNum) (w : World) (ch : Chunks) :
  document_usable w ->
  createTemplateTiles P blob cs (tileSize (mgr w)) = Ok ch ->
  exists t w',
    createTemplate P blob nm cs w = Ret tt w'
    /\ templatesArray (mgr w') = (templatesArray (mgr w) ++ [t])%list
    /\ sortID t = Z.of_nat (persistedCount w).
Proof.
  unfold document_usable, persistedCount, createTemplate. run_method.
  intros Hdoc Hch.
  destruct (templatesJSON (mgr w)) as [d|] eqn:Hd.
  - destruct (templates d) as [ts|] eqn:Hts; [|congruence].
    cbn. rewrite Hch. cbn. eexists. eexists.
    split; [reflexivity|]. split; [reflexivity|].
    cbn. unfold JSObject.keys. rewrite length_map. reflexivity.
  - cbn. rewrite Hch. cbn. eexists. eexists.
    split; [reflexivity|]. split; reflexivity.
Qed.

Lemma createTemplate_sortID_is_count_witness :
  let P := Demo.platform CanvasReady in
  let w := Demo.created in
  document_usable w
  /\ persistedCount w = 1%nat
  /\ exists t w',
      createTemplate P Demo.blank_file "second" Demo.somewhere w = Ret tt w'
      /\ templatesArray (mgr w') = (templatesArray (mgr w) ++ [t])%list
      /\ sortID t = 1.
Proof.
  intros P w.
  assert (Hdoc : document_usable w) by (cbn; discriminate).
  split; [exact Hdoc|]. split; [reflexivity|].
  apply (createTemplate_sortID_is_count P Demo.blank_file "second" Demo.somewhere w
           (mkChunks [] [] 0) Hdoc eq_refl).
Defined.

(** C2 as it is worded fails: the sortID of a deleted template is assigned
    again to the next template created. *)
Lemma sortID_reused_after_delete :
  let P := Demo.platform CanvasReady in
  let w1 := Demo.created in
  let w2 := Demo.run (deleteTemplate "0 !") w1 in
  let w3 := Demo.run (createTemplate P Demo.blank_file "second" Demo.somewhere) w2 in
  map (fun t => (displayName t, sortID t)) (templatesArray (mgr w1)) = [("first", 0)]
  /\ templatesArray (mgr w2) = []
  /\ map (fun t => (displayName t, sortID t)) (templatesArray (mgr w3)) = [("second", 0)].
Proof. repeat split; reflexivity. Qed.

(** ** updateTemplateCoordinates *)

(** The only checks are the length of the array and the finiteness of its
    members: four integers are accepted whatever their size, here the safe
    ones, which are printed with all their digits. *)
Lemma updateTemplateCoordinates_no_range_check (templateKey : string)
      (a b c d : Z) (w : World) :
  safe_integer a -> safe_integer b -> safe_integer c -> safe_integer d ->
  document_usable w ->
  exists w',
    updateTemplateCoordinates templateKey [JNum a; JNum b; JNum c; JNum d] w
    = Ret ("Template coordinates updated to: "
             ++ coords_string [JNum a; JNum b; JNum c; JNum d]) w'.
Proof.
  unfold document_usable, updateTemplateCoordinates. run_method. intros _ _ _ _ Hdoc.
  destruct (templatesJSON (mgr w)) as [doc|] eqn:Hd.
  - destruct (templates doc) as [ts|] eqn:Hts; [|congruence].
    cbn. destruct (JSObject.get templateKey ts); eexists; reflexivity.
  - cbn. eexists; reflexivity.
Qed.

(** What the method does reject leaves the stored coordinates alone. *)
Lemma updateTemplateCoordinates_rejects_malformed (templateKey : string)
      (newCoords : list JSNum) (w : World) :
  length newCoords <> 4%nat
  \/ Exists (fun c => JSNum_isFinite c = false) newCoords ->
  exists e w',
    updateTemplateCoordinates templateKey newCoords w = Throw e w'
    /\ heap w' = heap w
    /\ templatesArray (mgr w') = templatesArray (mgr w).
Proof.
  intros Hbad. unfold updateTemplateCoordinates. run_method.
  assert (Hw : exists d w0, (match templatesJSON (mgr w) with
                             | Some d => Ret d w
                             | None => Ret (createJSON (mgr w))
                                           (with_mgr (set_templatesJSON (Some (createJSON (mgr w)))) w)
                             end) = Ret d w0
                            /\ heap w0 = heap w
                            /\ templatesArray (mgr w0) = templatesArray (mgr w)).
  { destruct (templatesJSON (mgr w)); eexists; eexists; repeat split; reflexivity. }
  destruct Hw as (d & w0 & -> & Hh & Ha).
  destruct (Nat.eqb_spec (length newCoords) 4) as [Hlen|Hlen]; cbn [negb].
  - destruct Hbad as [Hbad|Hbad]; [contradiction|].
    assert (Hall : forallb (fun c => negb (JSNum_isNaN c) && JSNum_isFinite c) newCoords = false).
    { apply not_true_is_false. intros Hall. rewrite forallb_forall in Hall.
      apply List.Exists_exists in Hbad. destruct Hbad as (c & Hc & Hfin).
      specialize (Hall c Hc). rewrite Hfin, andb_false_r in Hall. discriminate. }
    rewrite Hall. cbn [negb]. eexists; eexists; repeat split; eassumption.
  - eexists; eexists; repeat split; eassumption.
Qed.

(** C1.  A tile index of 2048 passes the validation: the call returns its
    confirmation and both the document and the Template carry the new
    coordinates. *)
Theorem updateTemplateCoordinates_accepts_tile_2048 :
  let P := Demo.platform CanvasReady in
  let w := Demo.created in
  let o := updateTemplateCoordinates "0 !" [JNum 2048; JNum 0; JNum 0; JNum 0] w in
  storedCoords w "0 !" = Some "1, 2, 3, 4"
  /\ returned o = Some "Template coordinates updated to: 2048, 0, 0, 0"
  /\ storedCoords (world_of o) "0 !" = Some "2048, 0, 0, 0"
  /\ map coords (templatesArray (mgr (world_of o)))
     = [Some [JNum 2048; JNum 0; JNum 0; JNum 0]].
Proof. repeat split; reflexivity. Qed.

(** ** importJSON *)

Lemma get_set_same {V} (k : string) (v : V) (o : list (string * V)) :
  JSObject.get k (JSObject.set k v o) = Some v.
Proof.
  induction o as [|[k' v'] o IH]; simpl.
  - rewrite String.eqb_refl. reflexivity.
  - destruct (String.eqb k' k) eqn:E; simpl.
    + rewrite String.eqb_refl. reflexivity.
    + rewrite E. exact IH.
Qed.

Lemma get_set_other {V} (k k0 : string) (v : V) (o : list (string * V)) :
  k0 <> k -> JSObject.get k0 (JSObject.set k v o) = JSObject.get k0 o.
Proof.
  intros Hne. induction o as [|[k' v'] o IH]; simpl.
  - destruct (String.eqb_spec k k0); [congruence|reflexivity].
  - destruct (String.eqb_spec k' k) as [->|Hk]; simpl.
    + destruct (String.eqb_spec k k0); [congruence|reflexivity].
    + destruct (String.eqb k' k0); [reflexivity|exact IH].
Qed.

(** First wins: a key the manager document holds keeps its entry. *)
Lemma mergeTemplates_keeps_present (incoming current : list (string * addr))
      (key : string) (a : addr) :
  JSObject.get key current = Some a ->
  JSObject.get key (mergeTemplates incoming current) = Some a.
Proof.
  revert current. induction incoming as [|[k b] rest IH]; intros current Hget; simpl.
  - exact Hget.
  - destruct (JSObject.get k current) eqn:Hk; [apply IH; exact Hget|].
    apply IH. rewrite get_set_other; [exact Hget|].
    intros ->. congruence.
Qed.

(** Additive: a key the manager document lacks receives the incoming entry. *)
Lemma mergeTemplates_adds_absent (incoming current : list (string * addr)) (key : string) :
  JSObject.get key current = None ->
  JSObject.get key (mergeTemplates incoming current) = JSObject.get key incoming.
Proof.
  revert current. induction incoming as [|[k b] rest IH]; intros current Hget; simpl.
  - exact Hget.
  - destruct (String.eqb_spec k key) as [->|Hne].
    + rewrite Hget. apply mergeTemplates_keeps_present. apply get_set_same.
    + destruct (JSObject.get k current) eqn:Hk; [apply IH; exact Hget|].
      apply IH. rewrite get_set_other by congruence. exact Hget.
Qed.

(** Merging a map whose keys are all present changes nothing. *)
Lemma mergeTemplates_all_present (incoming current : list (string * addr)) :
  (forall k b, In (k, b) incoming -> JSObject.get k current <> None) ->
  mergeTemplates incoming current = current.
Proof.
  induction incoming as [|[k b] rest IH]; intros Hall; simpl; [reflexivity|].
  destruct (JSObject.get k current) eqn:Hk.
  - apply IH. intros k' b' Hin. apply (Hall k' b'). right. exact Hin.
  - exfalso. apply (Hall k b); [left; reflexivity|exact Hk].
Qed.

Lemma get_of_In {V} (k : string) (v : V) (o : list (string * V)) :
  In (k, v) o -> JSObject.get k o <> None.
Proof.
  induction o as [|[k' v'] o IH]; simpl; [tauto|].
  intros [H|H].
  - injection H as -> ->. rewrite String.eqb_refl. discriminate.
  - destruct (String.eqb k' k); [discriminate|apply IH; exact H].
Qed.

Lemma mergeTemplates_self (ts : list (string * addr)) : mergeTemplates ts ts = ts.
Proof.
  apply mergeTemplates_all_present. intros k b. apply get_of_In.
Qed.

(** Parsing builds templates and annotates entries; it never replaces the
    manager document. *)
Lemma resolvePixelCount_frame (P : Platform) (a : addr) (templateValue : Entry)
      (tiles : list (string * Image)) (w : World) :
  exists pc w',
    resolvePixelCount P a templateValue tiles w = Ret pc w'
    /\ templatesJSON (mgr w') = templatesJSON (mgr w).
Proof.
  unfold resolvePixelCount. run_method.
  destruct (e_pixelCount templateValue) as [|n|];
    try destruct (0 <=? n);
    destruct (computePixelCountFromTiles P tiles);
    eexists; eexists; split; reflexivity.
Qed.

Lemma parseTemplate_frame (P : Platform) (templateKey : string) (a : addr) (w : World) :
  templatesJSON (mgr (world_of (parseTemplate P templateKey a w))) = templatesJSON (mgr w).
Proof.
  unfold parseTemplate, bind, gets, modify, throw.
  destruct (decodeTiles P (e_tiles (deref (heap w) a)) []) as [tiles|e]; [|reflexivity].
  destruct (resolvePixelCount_frame P a (deref (heap w) a) tiles w) as (pc & w' & -> & Hm).
  exact Hm.
Qed.

Lemma parseTemplates_frame (P : Platform) (ts : list (string * addr)) (w : World) :
  templatesJSON (mgr (world_of (parseTemplates P ts w))) = templatesJSON (mgr w).
Proof.
  revert w. induction ts as [|[k a] rest IH]; intros w; [reflexivity|].
  cbn [parseTemplates]. unfold bind.
  pose proof (parseTemplate_frame P k a w) as Hone.
  destruct (parseTemplate P k a w) as [[] w1|e w1]; cbn [world_of] in *.
  - rewrite IH. exact Hone.
  - exact Hone.
Qed.

Lemma injectWhoami_accepted (m : TemplateManager) (json : Doc) :
  whoami_accepted m json = true -> injectWhoami m json = json.
Proof.
  unfold whoami_accepted, injectWhoami, whoami_falsy, acceptedWhoami.
  destruct json as [[[|c s]|] sv sch [ts|]]; cbn; try reflexivity; try discriminate.
  rewrite orb_false_r. intros H.
  destruct (JSString.remove_whitespace (name m)); [reflexivity|discriminate].
Qed.

(** The document half of the idempotence: importing the document the
    manager already holds leaves the manager document as it is. *)
Lemma importJSON_again_keeps_document (P : Platform) (json : Doc) (w : World) :
  templatesJSON (mgr w) = Some json ->
  whoami_accepted (mgr w) json = true ->
  templatesJSON (mgr (world_of (importJSON P json w))) = Some json.
Proof.
  intros Hdoc Hacc. unfold importJSON, bind, gets, modify, catch, ret, parseBlueMarble, throw.
  rewrite (injectWhoami_accepted _ _ Hacc), Hacc, Hdoc.
  destruct json as [who sv sch [ts|]]; cbn [templates].
  - rewrite mergeTemplates_self. cbn [set_templates whoami scriptVersion schemaVersion].
    match goal with |- context [parseTemplates P ts ?w0] =>
      pose proof (parseTemplates_frame P ts w0) as Hframe;
      destruct (parseTemplates P ts w0) as [[] w1|e w1] end;
      cbn [world_of emit mgr] in *; rewrite Hframe; reflexivity.
  - cbn. exact Hdoc.
Qed.

(** C3.  Importing the same document a second time leaves the JSON document
    and its entries as they were, and appends a second copy of every
    template to the runtime array. *)
Theorem importJSON_twice_duplicates_templates :
  let P := Demo.platform CanvasReady in
  let once := Demo.run (importJSON P Demo.two_templates) Demo.parsed in
  let twice := Demo.run (importJSON P Demo.two_templates) once in
  templatesJSON (mgr twice) = templatesJSON (mgr once)
  /\ heap twice = heap once
  /\ map (fun t => (sortID t, authorID t)) (templatesArray (mgr once))
     = [(5, "!"); (2, "!")]
  /\ map (fun t => (sortID t, authorID t)) (templatesArray (mgr twice))
     = [(5, "!"); (2, "!"); (5, "!"); (2, "!")].
Proof. repeat split; reflexivity. Qed.

Lemma existsb_eqb_In (s : string) (l : list string) :
  existsb (String.eqb s) l = true <-> In s l.
Proof.
  rewrite existsb_exists. split.
  - intros (x & Hx & Heq). apply String.eqb_eq in Heq. subst. exact Hx.
  - intros H. exists s. split; [exact H|apply String.eqb_refl].
Qed.

(** C7, as the code has it.  A document whose [whoami] is a non-empty
    string outside the accepted identifiers is rejected: the manager and the
    entries stay as they are and a warning is logged. *)
Theorem importJSON_rejects_unlisted_whoami (P : Platform) (json : Doc) (w : World) (s : string) :
  whoami json = Some s ->
  s <> "" ->
  ~ In s (acceptedWhoami (mgr w)) ->
  exists msg w',
    importJSON P json w = Ret tt w'
    /\ mgr w' = mgr w
    /\ heap w' = heap w
    /\ events w' = (events w ++ [Warned msg])%list.
Proof.
  intros Hwho Hne Hout. unfold importJSON. run_method.
  assert (Hinj : injectWhoami (mgr w) json = json).
  { unfold injectWhoami, whoami_falsy. rewrite Hwho.
    destruct (templates json); [|reflexivity].
    destruct s; [congruence|reflexivity]. }
  rewrite Hinj.
  assert (Hacc : whoami_accepted (mgr w) json = false).
  { unfold whoami_accepted. rewrite Hwho. apply not_true_is_false.
    rewrite existsb_eqb_In. exact Hout. }
  rewrite Hacc. eexists. eexists. repeat split; reflexivity.
Qed.

Lemma importJSON_rejects_unlisted_whoami_witness :
  let P := Demo.platform CanvasReady in
  let json := set_whoami (Some "SomeOtherTool") Demo.two_templates in
  exists msg w',
    importJSON P json Demo.parsed = Ret tt w'
    /\ mgr w' = mgr Demo.parsed
    /\ heap w' = heap Demo.parsed
    /\ events w' = (events Demo.parsed ++ [Warned msg])%list.
Proof.
  intros P json.
  apply (importJSON_rejects_unlisted_whoami P json Demo.parsed "SomeOtherTool").
  - reflexivity.
  - discriminate.
  - simpl. intros [H|[H|[H|[H|[]]]]]; discriminate.
Defined.

(** The other side of the gate: a document with a [templates] map and no
    identifier, or an empty one, receives the current name and passes. *)
Lemma importJSON_injects_identity (m : TemplateManager) (json : Doc)
      (ts : list (string * addr)) :
  whoami_falsy json = true ->
  templates json = Some ts ->
  whoami_accepted m (injectWhoami m json) = true.
Proof.
  intros Hfalsy Hts. unfold injectWhoami. rewrite Hts, Hfalsy.
  unfold whoami_accepted. cbn [whoami set_whoami].
  apply existsb_eqb_In. unfold acceptedWhoami. cbn [In]. tauto.
Qed.

(** A document without a [templates] map is rejected unless it names an
    accepted identifier. *)
Lemma importJSON_rejects_without_templates (P : Platform) (json : Doc) (w : World) :
  templates json = None ->
  (forall s, whoami json = Some s -> ~ In s (acceptedWhoami (mgr w))) ->
  exists msg, importJSON P json w = Ret tt (emit (Warned msg) w).
Proof.
  intros Hts Hout. unfold importJSON. run_method.
  assert (Hinj : injectWhoami (mgr w) json = json).
  { unfold injectWhoami. rewrite Hts. reflexivity. }
  rewrite Hinj.
  assert (Hacc : whoami_accepted (mgr w) json = false).
  { unfold whoami_accepted. destruct (whoami json) as [s|] eqn:Hs; [|reflexivity].
    apply not_true_is_false. rewrite existsb_eqb_In. apply Hout. reflexivity. }
  rewrite Hacc. eexists. reflexivity.
Qed.

(** C7 as it is worded fails: an empty [whoami] is not an accepted
    identifier, yet a document that carries it next to a [templates] map is
    imported. *)
Lemma importJSON_accepts_blank_whoami :
  let P := Demo.platform CanvasReady in
  let json := set_whoami (Some "") Demo.two_templates in
  let w' := Demo.run (importJSON P json) Demo.parsed in
  whoami json = Some ""
  /\ ~ In "" (acceptedWhoami (mgr Demo.parsed))
  /\ templatesJSON (mgr Demo.parsed) = None
  /\ templatesJSON (mgr w') = Some (set_whoami (Some "BluePeanits") Demo.two_templates)
  /\ templatesArray (mgr Demo.parsed) = []
  /\ map sortID (templatesArray (mgr w')) = [5; 2].
Proof.
  intros P json w'. split; [reflexivity|]. split.
  - simpl. intros [H|[H|[H|[H|[]]]]]; discriminate.
  - repeat split; reflexivity.
Qed.

(** ** Pixel count of an imported template *)

Lemma heuristicPixelCount_max (tiles : list (string * Image)) :
  heuristicPixelCount tiles = Z.max 1 (Z.of_nat (length tiles)) * 500.
Proof.
  unfold heuristicPixelCount, or_number, JSObject.keys. rewrite length_map.
  destruct (Z.eqb_spec (Z.of_nat (length tiles)) 0); lia.
Qed.

Lemma deref_insert (h : list Entry) (a : addr) (e : Entry) :
  (a < length h)%nat -> deref (<[a := e]> h) a = e.
Proof.
  intros Ha. unfold deref. rewrite list_lookup_insert_eq by exact Ha. reflexivity.
Qed.

Lemma resolvePixelCount_spec (P : Platform) (a : addr) (templateValue : Entry)
      (tiles : list (string * Image)) (w : World) :
  (a < length (heap w))%nat ->
  exists pc w',
    resolvePixelCount P a templateValue tiles w = Ret pc w'
    /\ mgr w' = mgr w
    /\ (forall n, e_pixelCount templateValue = PCNumber n -> 0 <= n -> pc = n /\ w' = w)
    /\ ((forall n, e_pixelCount templateValue = PCNumber n -> n < 0) ->
          e_pixelCount (deref (heap w') a) = PCNumber pc
          /\ (forall c, computePixelCountFromTiles P tiles = Ok c -> pc = c)
          /\ (forall e, computePixelCountFromTiles P tiles = Err e ->
                pc = Z.max 1 (Z.of_nat (length tiles)) * 500)).
Proof.
  intros Ha.
  assert (Hrecompute :
            exists pc w',
              match computePixelCountFromTiles P tiles with
              | Ok n =>
                  bind (modify (with_heap (fun h => <[a := set_e_pixelCount (PCNumber n) (deref h a)]> h)))
                       (fun _ => ret n)
              | Err e =>
                  bind (modify (emit (Warned ("[BlueMarble] Failed to compute precise pixel count; falling back to heuristic: " ++ e))))
                       (fun _ =>
                          let n := heuristicPixelCount tiles in
                          bind (modify (with_heap (fun h => <[a := set_e_pixelCount (PCNumber n) (deref h a)]> h)))
                               (fun _ => ret n))
              end w = Ret pc w'
              /\ mgr w' = mgr w
              /\ e_pixelCount (deref (heap w') a) = PCNumber pc
              /\ (forall c, computePixelCountFromTiles P tiles = Ok c -> pc = c)
              /\ (forall e, computePixelCountFromTiles P tiles = Err e ->
                    pc = Z.max 1 (Z.of_nat (length tiles)) * 500)).
  { unfold bind, modify, ret.
    destruct (computePixelCountFromTiles P tiles) as [c|e]; eexists; eexists;
      (split; [reflexivity|]); (split; [reflexivity|]); cbn [heap with_heap emit];
      (split; [rewrite deref_insert by exact Ha; reflexivity|]);
      (split; [intros c' Hc'|intros e' He']); try congruence.
    apply heuristicPixelCount_max. }
  destruct Hrecompute as (pc & w' & Hrun & Hm & Hwb & Hok & Herr).
  unfold resolvePixelCount.
  destruct (e_pixelCount templateValue) as [|n|] eqn:Hpc.
  - exists pc, w'. split; [exact Hrun|]. split; [exact Hm|].
    split; [intros n H; discriminate|]. auto.
  - destruct (Z.leb_spec 0 n) as [Hn|Hn].
    + exists n, w. split; [reflexivity|]. split; [reflexivity|]. split.
      * intros n' Hn' _. injection Hn' as <-. split; reflexivity.
      * intros Hneg. specialize (Hneg n eq_refl). lia.
    + exists pc, w'. split; [exact Hrun|]. split; [exact Hm|]. split.
      * intros n' Hn' Hpos. injection Hn' as <-. lia.
      * auto.
  - exists pc, w'. split; [exact Hrun|]. split; [exact Hm|].
    split; [intros n H; discriminate|]. auto.
Qed.

(** One template of an imported document whose tiles decode: a non-negative
    numeric [pixelCount] is taken as it is and nothing is written; otherwise
    the reconstructed count is used and written to the entry that was
    parsed; and when the reconstruction throws, the count is the estimate
    of [heuristicPixelCount], and the template is still added. *)
Theorem parseTemplate_pixelCount (P : Platform) (templateKey : string) (a : addr)
        (w : World) (tiles : list (string * Image)) :
  (a < length (heap w))%nat ->
  decodeTiles P (e_tiles (deref (heap w) a)) [] = Ok tiles ->
  exists t w',
    parseTemplate P templateKey a w = Ret tt w'
    /\ templatesArray (mgr w') = (templatesArray (mgr w) ++ [t])%list
    /\ chunked t = tiles
    /\ (forall n, e_pixelCount (deref (heap w) a) = PCNumber n -> 0 <= n ->
          pixelCount t = n /\ heap w' = heap w)
    /\ ((forall n, e_pixelCount (deref (heap w) a) = PCNumber n -> n < 0) ->
          e_pixelCount (deref (heap w') a) = PCNumber (pixelCount t)
          /\ (forall c, computePixelCountFromTiles P tiles = Ok c -> pixelCount t = c)
          /\ (forall e, computePixelCountFromTiles P tiles = Err e ->
                pixelCount t = Z.max 1 (Z.of_nat (length tiles)) * 500)).
Proof.
  intros Ha Hdec.
  destruct (resolvePixelCount_spec P a (deref (heap w) a) tiles w Ha)
    as (pc & w1 & Hres & Hm & Htrust & Hrecompute).
  unfold parseTemplate, bind, gets, modify. rewrite Hdec, Hres.
  eexists. eexists. split; [reflexivity|].
  cbn [mgr with_mgr templatesArray set_templatesArray heap chunked pixelCount].
  rewrite Hm. split; [reflexivity|]. split; [reflexivity|]. split.
  - intros n Hn Hpos. destruct (Htrust n Hn Hpos) as [-> ->]. split; reflexivity.
  - exact Hrecompute.
Qed.

Lemma parseTemplate_pixelCount_witness :
  let P := Demo.platform ContextNull in
  let w := Demo.uncounted_parsed in
  exists t w',
    parseTemplate P "3 !" 0%nat w = Ret tt w'
    /\ templatesArray (mgr w') = [t]
    /\ chunked t = [("0000,0000,0,0", Demo.two_cells)]
    /\ e_pixelCount (deref (heap w') 0%nat) = PCNumber (pixelCount t)
    /\ pixelCount t = 500.
Proof.
  intros P w.
  destruct (parseTemplate_pixelCount P "3 !" 0%nat w [("0000,0000,0,0", Demo.two_cells)])
    as (t & w' & Hrun & Harr & Hch & _ & Hrecompute).
  - simpl. lia.
  - reflexivity.
  - exists t, w'. split; [exact Hrun|]. split; [exact Harr|]. split; [exact Hch|].
    destruct Hrecompute as (Hwb & _ & Herr); [intros n Hn; discriminate|].
    split; [exact Hwb|]. apply (Herr "TypeError: ctx is null"). reflexivity.
Defined.

(** An import never throws while the manager document is missing or usable:
    what goes wrong while parsing is logged. *)
Lemma importJSON_returns (P : Platform) (json : Doc) (w : World) :
  document_usable w -> exists w', importJSON P json w = Ret tt w'.
Proof.
  unfold document_usable, importJSON, bind, gets, modify, catch. intros Hdoc.
  destruct (whoami_accepted (mgr w) (injectWhoami (mgr w) json)); [|eexists; reflexivity].
  destruct (templatesJSON (mgr w)) as [current|].
  - destruct (templates (injectWhoami (mgr w) json)) as [incoming|].
    + destruct (templates current) as [cur|]; [|congruence].
      match goal with |- context [parseBlueMarble ?P ?j ?w0] =>
        destruct (parseBlueMarble P j w0) as [[] w1|e w1] end; eexists; reflexivity.
    + unfold ret.
      match goal with |- context [parseBlueMarble ?P ?j ?w0] =>
        destruct (parseBlueMarble P j w0) as [[] w1|e w1] end; eexists; reflexivity.
  - match goal with |- context [parseBlueMarble ?P ?j ?w0] =>
      destruct (parseBlueMarble P j w0) as [[] w1|e w1] end; eexists; reflexivity.
Qed.

(** ** Numerals and keys *)

Lemma digit_of_pretty_N_char (d : N) :
  (d < 10)%N -> JSString.digit_of (pretty_N_char d) = Some (Z.of_N d).
Proof.
  intros Hd.
  assert (H : (d = 0 \/ d = 1 \/ d = 2 \/ d = 3 \/ d = 4 \/ d = 5 \/ d = 6 \/ d = 7
               \/ d = 8 \/ d = 9)%N) by lia.
  repeat (destruct H as [->|H]; [reflexivity|]); subst; reflexivity.
Qed.

Lemma digits_go_pretty_N_go (x : N) (s : string) :
  JSString.digits_go (pretty_N_go x s) 0 = JSString.digits_go s (Z.of_N x).
Proof.
  revert s. induction (N.lt_wf_0 x) as [x _ IH]; intros s.
  destruct (N.eq_dec x 0%N) as [->|Hx].
  - rewrite pretty_N_go_0. reflexivity.
  - rewrite pretty_N_go_step by lia.
    rewrite IH by (apply N.div_lt; lia).
    cbn [JSString.digits_go].
    rewrite digit_of_pretty_N_char by (apply N.mod_lt; lia).
    f_equal. rewrite N2Z.inj_div, N2Z.inj_mod. change (Z.of_N 10) with 10.
    rewrite (Z.div_mod (Z.of_N x) 10) at 3 by lia. lia.
Qed.

Lemma digits_go_pretty_N (x : N) :
  JSString.digits_go (pretty x) 0 = Some (Z.of_N x).
Proof.
  unfold pretty, pretty_N. destruct (decide (x = 0%N)) as [->|Hx]; [reflexivity|].
  apply digits_go_pretty_N_go.
Qed.

(** What [Number] reads from a string of digits. *)
Lemma Number_digits (s : string) (v : Z) :
  JSString.digits_go s 0 = Some v -> JSString.Number s = Some v.
Proof.
  intros H. destruct s as [|a r]; [exact H|].
  destruct (JSString.digit_of a) as [d|] eqn:Hd; [|cbn in H; rewrite Hd in H; discriminate].
  destruct a as [[] [] [] [] [] [] [] []]; try discriminate Hd; exact H.
Qed.

Lemma pretty_N_nonempty (x : N) : pretty x <> "".
Proof.
  intros H. pose proof (digits_go_pretty_N x) as Hd. rewrite H in Hd.
  cbn in Hd. injection Hd as Hd.
  unfold pretty, pretty_N in H. destruct (decide (x = 0%N)); [discriminate|lia].
Qed.

(** The decimal numeral of an integer reads back as that integer. *)
Lemma Number_pretty (z : Z) : JSString.Number (pretty z) = Some z.
Proof.
  destruct z as [|p|p]; [reflexivity| |].
  - apply Number_digits. apply (digits_go_pretty_N (N.pos p)).
  - unfold pretty, pretty_Z.
    pose proof (digits_go_pretty_N (N.pos p)) as Hd.
    pose proof (pretty_N_nonempty (N.pos p)) as Hne.
    change (pretty p) with (pretty (N.pos p)).
    destruct (pretty (N.pos p)) as [|a r]; [congruence|].
    change (JSString.Number ("-" +:+ String a r))
      with (option_map Z.opp (JSString.digits_go (String a r) 0)).
    rewrite Hd. reflexivity.
Qed.

(** The characters of a numeral. *)
Lemma lacks_pretty_N_go (c : ascii) (x : N) (s : string) :
  JSString.digit_of c = None -> lacks c s -> lacks c (pretty_N_go x s).
Proof.
  intros Hc. revert s. induction (N.lt_wf_0 x) as [x _ IH]; intros s Hs.
  destruct (N.eq_dec x 0%N) as [->|Hx].
  - rewrite pretty_N_go_0. exact Hs.
  - rewrite pretty_N_go_step by lia. apply IH; [apply N.div_lt; lia|].
    split; [|exact Hs]. intros Heq.
    rewrite <- Heq, digit_of_pretty_N_char in Hc by (apply N.mod_lt; lia). discriminate.
Qed.

Lemma lacks_pretty (c : ascii) (z : Z) :
  JSString.digit_of c = None -> c <> "-"%char -> lacks c (pretty z).
Proof.
  intros Hc Hm.
  assert (HN : forall x : N, lacks c (pretty x)).
  { intros x. unfold pretty, pretty_N. destruct (decide (x = 0%N)).
    - split; [|exact I]. intros <-. discriminate.
    - apply lacks_pretty_N_go; [exact Hc|exact I]. }
  destruct z as [|p|p].
  - split; [|exact I]. intros <-. discriminate.
  - apply (HN (N.pos p)).
  - split; [congruence|]. apply (HN (N.pos p)).
Qed.

(** ** Splitting *)

Lemma append_cons (a : ascii) (s t : string) : String a s ++ t = String a (s ++ t).
Proof. reflexivity. Qed.

Lemma rev_app_rev_app (a b c : string) :
  String.rev_app (String.rev_app a b) c = String.rev_app b (a ++ c).
Proof.
  revert b c. induction a as [|x a IH]; intros b c; [reflexivity|].
  cbn [String.rev_app]. rewrite IH, append_cons. reflexivity.
Qed.

Lemma append_empty_r (s : string) : s ++ "" = s.
Proof. induction s as [|a s IH]; [reflexivity|]. rewrite append_cons. f_equal. exact IH. Qed.

Lemma rev_rev_app (a : string) : String.rev (String.rev_app a "") = a.
Proof.
  unfold String.rev. rewrite rev_app_rev_app. cbn. apply append_empty_r.
Qed.

Lemma split_go_lacks (c : ascii) (a cur : string) :
  lacks c a -> JSString.split_go c a cur = [String.rev (String.rev_app a cur)].
Proof.
  revert cur. induction a as [|x a IH]; intros cur Ha; [reflexivity|].
  destruct Ha as [Hx Ha]. cbn [JSString.split_go String.rev_app].
  destruct (Ascii.eqb_spec x c) as [->|_]; [congruence|]. apply IH. exact Ha.
Qed.

Lemma split_go_first (c : ascii) (a rest cur : string) :
  lacks c a ->
  JSString.split_go c (a ++ String c rest) cur
  = String.rev (String.rev_app a cur) :: JSString.split_go c rest "".
Proof.
  revert cur. induction a as [|x a IH]; intros cur Ha.
  - change ("" ++ String c rest) with (String c rest).
    cbn [JSString.split_go]. rewrite Ascii.eqb_refl. reflexivity.
  - destruct Ha as [Hx Ha]. rewrite append_cons. cbn [JSString.split_go String.rev_app].
    destruct (Ascii.eqb_spec x c) as [->|_]; [congruence|]. apply IH. exact Ha.
Qed.

(** [(a + c + rest).split(c)] starts with [a] when [a] is free of [c]. *)
Lemma split_first (c : ascii) (a rest : string) :
  lacks c a -> JSString.split c (a ++ String c rest) = a :: JSString.split c rest.
Proof.
  intros Ha. unfold JSString.split. rewrite split_go_first by exact Ha.
  rewrite rev_rev_app. reflexivity.
Qed.

Lemma split_lacks (c : ascii) (a : string) :
  lacks c a -> JSString.split c a = [a].
Proof.
  intros Ha. unfold JSString.split. rewrite split_go_lacks by exact Ha.
  rewrite rev_rev_app. reflexivity.
Qed.

(** On the key made of a number and an authorID without a space,
    [key_matches] compares with the two. *)
Lemma key_matches_canonical (sid : Z) (aid : string) (t : Template) :
  lacks " " aid ->
  key_matches (pretty sid ++ " " ++ aid) t
  = (sortID t =? sid) && String.eqb (authorID t) aid.
Proof.
  intros Ha. unfold key_matches.
  change (pretty sid ++ " " ++ aid) with (pretty sid ++ String " " aid).
  rewrite split_first by (apply lacks_pretty; [reflexivity|discriminate]).
  rewrite split_lacks by exact Ha.
  change ((pretty sid :: [aid]) !! 0%nat) with (Some (pretty sid)).
  change ((pretty sid :: [aid]) !! 1%nat) with (Some aid).
  cbn [JSString.Number_opt]. rewrite Number_pretty. reflexivity.
Qed.

(** X1.  The key a Template is filed under addresses that Template: parsed
    back by [key_matches], the key a template makes of its sortID and its
    authorID matches it, whenever the authorID holds no space. *)
Theorem key_matches_compositeKey (t : Template) :
  lacks " " (authorID t) -> key_matches (compositeKey t) t = true.
Proof.
  intros Ha. unfold compositeKey.
  rewrite key_matches_canonical by exact Ha.
  rewrite Z.eqb_refl, String.eqb_refl. reflexivity.
Qed.

Lemma key_matches_compositeKey_witness :
  lacks " " (authorID Demo.blue_template)
  /\ compositeKey Demo.blue_template = "5 !"
  /\ key_matches "5 !" Demo.blue_template = true.
Proof.
  assert (H : lacks " " (authorID Demo.blue_template)).
  { cbn. split; [discriminate|exact I]. }
  split; [exact H|]. split; [reflexivity|].
  apply (key_matches_compositeKey Demo.blue_template H).
Defined.

(** ** Object laws *)

Lemma delete_absent {V} (k : string) (o : list (string * V)) :
  JSObject.get k o = None -> JSObject.delete k o = o.
Proof.
  induction o as [|[k' v] o IH]; simpl; [reflexivity|].
  destruct (String.eqb k' k); [discriminate|]. intros H. rewrite IH by exact H. reflexivity.
Qed.

Lemma delete_set {V} (k : string) (v : V) (o : list (string * V)) :
  JSObject.delete k (JSObject.set k v o) = JSObject.delete k o.
Proof.
  induction o as [|[k' v'] o IH]; simpl.
  - rewrite String.eqb_refl. reflexivity.
  - destruct (String.eqb k' k) eqn:E; simpl.
    + rewrite String.eqb_refl. reflexivity.
    + rewrite E, IH. reflexivity.
Qed.

Lemma keys_set_present {V} (k : string) (v v0 : V) (o : list (string * V)) :
  JSObject.get k o = Some v0 -> JSObject.keys (JSObject.set k v o) = JSObject.keys o.
Proof.
  unfold JSObject.keys. induction o as [|[k' v'] o IH]; simpl; [discriminate|].
  destruct (String.eqb_spec k' k) as [->|Hne]; simpl; [reflexivity|].
  intros H. rewrite IH by exact H. reflexivity.
Qed.

Lemma set_nonempty {V} (k : string) (v : V) (o : list (string * V)) :
  JSObject.set k v o <> [].
Proof. destruct o as [|[k' v'] o]; simpl; [|destruct (String.eqb k' k)]; discriminate. Qed.

Lemma get_delete_same {V} (k : string) (o : list (string * V)) :
  JSObject.get k (JSObject.delete k o) = None.
Proof.
  induction o as [|[k' v] o IH]; simpl; [reflexivity|].
  destruct (String.eqb k' k) eqn:E; simpl; [exact IH|]. rewrite E. exact IH.
Qed.

(** ** What createTemplate and deleteTemplate leave behind *)

Lemma persistedCount_storedTemplates (w : World) :
  persistedCount w = length (storedTemplates w).
Proof. unfold persistedCount, storedTemplates. destruct (templatesJSON (mgr w)); reflexivity. Qed.

(** The world after a successful [createTemplate], field by field. *)
Lemma createTemplate_world (P : Platform) (blob : Image) (nm : string)
      (cs : list JSNum) (w : World) (ch : Chunks) :
  document_usable w ->
  createTemplateTiles P blob cs (tileSize (mgr w)) = Ok ch ->
  let aid := numberToEncoded P (default 0 (userID (mgr w))) (encodingBase (mgr w)) in
  let sid := Z.of_nat (persistedCount w) in
  let key := pretty sid ++ " " ++ aid in
  let t := mkTemplate nm sid aid (Some cs) (template_enabled_default P)
                      (templateTiles ch) (chunkedPixelCount ch) in
  let e := mkEntry (Some nm) (Some (coords_string cs)) (Some true)
                   (templateTilesBuffers ch) (PCNumber (chunkedPixelCount ch)) in
  exists w',
    createTemplate P blob nm cs w = Ret tt w'
    /\ storedTemplates w' = JSObject.set key (length (heap w)) (storedTemplates w)
    /\ templatesArray (mgr w') = (templatesArray (mgr w) ++ [t])%list
    /\ heap w' = (heap w ++ [e])%list
    /\ persisted w'.
Proof.
  unfold document_usable, persistedCount, storedTemplates, createTemplate, persisted.
  run_method. intros Hdoc Hch.
  destruct (templatesJSON (mgr w)) as [d|] eqn:Hd.
  - destruct (templates d) as [ts|] eqn:Hts; [|congruence].
    cbn. rewrite Hch. cbn. unfold JSObject.keys. rewrite length_map.
    eexists. split; [reflexivity|]. cbn.
    split; [reflexivity|]. split; [reflexivity|]. split; [reflexivity|].
    eexists. eexists. split; reflexivity.
  - cbn. rewrite Hch. cbn.
    eexists. split; [reflexivity|]. cbn.
    split; [reflexivity|]. split; [reflexivity|]. split; [reflexivity|].
    eexists. eexists. split; reflexivity.
Qed.

(** The world after [deleteTemplate], field by field. *)
Lemma deleteTemplate_world (templateKey : string) (w : World) :
  document_usable w ->
  exists w',
    deleteTemplate templateKey w = Ret tt w'
    /\ storedTemplates w' = JSObject.delete templateKey (storedTemplates w)
    /\ templatesArray (mgr w')
       = List.filter (fun t => negb (key_matches templateKey t)) (templatesArray (mgr w))
    /\ heap w' = heap w
    /\ persisted w'.
Proof.
  unfold document_usable, storedTemplates, deleteTemplate, persisted. run_method.
  intros Hdoc.
  destruct (templatesJSON (mgr w)) as [d|] eqn:Hd.
  - destruct (templates d) as [ts|] eqn:Hts; [|congruence].
    cbn. eexists. split; [reflexivity|]. cbn.
    split; [reflexivity|]. split; [reflexivity|]. split; [reflexivity|].
    eexists. eexists. split; reflexivity.
  - cbn. eexists. split; [reflexivity|]. cbn.
    split; [reflexivity|]. split; [reflexivity|]. split; [reflexivity|].
    eexists. eexists. split; reflexivity.
Qed.

Lemma filter_none {A} (p : A -> bool) (l : list A) :
  Forall (fun a => p a = true) l -> List.filter p l = l.
Proof.
  induction 1 as [|a l Ha _ IH]; simpl; [reflexivity|]. rewrite Ha, IH. reflexivity.
Qed.

(** X2.  Deleting a template right after creating it, under the key it was
    filed under, restores the array and the document map, provided the key
    was free: no entry under it, no Template answering to it, and an
    authorID without a space. *)
Theorem create_then_delete_restores (P : Platform) (blob : Image) (nm : string)
        (cs : list JSNum) (w : World) (ch : Chunks) :
  let aid := numberToEncoded P (default 0 (userID (mgr w))) (encodingBase (mgr w)) in
  let key := pretty (Z.of_nat (persistedCount w)) ++ " " ++ aid in
  document_usable w ->
  createTemplateTiles P blob cs (tileSize (mgr w)) = Ok ch ->
  lacks " " aid ->
  JSObject.get key (storedTemplates w) = None ->
  Forall (fun t => key_matches key t = false) (templatesArray (mgr w)) ->
  exists w1 w2,
    createTemplate P blob nm cs w = Ret tt w1
    /\ deleteTemplate key w1 = Ret tt w2
    /\ templatesArray (mgr w2) = templatesArray (mgr w)
    /\ storedTemplates w2 = storedTemplates w.
Proof.
  intros aid key Hdoc Hch Haid Hfree Hnone.
  destruct (createTemplate_world P blob nm cs w ch Hdoc Hch)
    as (w1 & Hrun1 & Hts1 & Harr1 & _ & (ev & d1 & Hd1 & _)).
  fold aid in Hts1, Harr1. fold key in Hts1.
  assert (Hdoc1 : document_usable w1).
  { unfold document_usable. rewrite Hd1.
    unfold storedTemplates in Hts1. rewrite Hd1 in Hts1.
    destruct (templates d1); [discriminate|].
    cbn in Hts1. symmetry in Hts1. apply set_nonempty in Hts1. destruct Hts1. }
  destruct (deleteTemplate_world key w1 Hdoc1) as (w2 & Hrun2 & Hts2 & Harr2 & _ & _).
  exists w1, w2. split; [exact Hrun1|]. split; [exact Hrun2|]. split.
  - rewrite Harr2, Harr1, List.filter_app. cbn [List.filter].
    set (t := mkTemplate nm (Z.of_nat (persistedCount w)) aid (Some cs)
                         (template_enabled_default P) (templateTiles ch)
                         (chunkedPixelCount ch)).
    assert (Hkey : key_matches key t = true).
    { unfold key. rewrite key_matches_canonical by exact Haid.
      unfold t. cbn [sortID authorID]. rewrite Z.eqb_refl, String.eqb_refl. reflexivity. }
    rewrite Hkey. cbn [negb]. rewrite app_nil_r.
    apply filter_none. eapply Forall_impl; [|exact Hnone].
    intros u Hu. cbn beta in Hu. rewrite Hu. reflexivity.
  - rewrite Hts2, Hts1, delete_set. apply delete_absent. exact Hfree.
Qed.

Lemma create_then_delete_restores_witness :
  let P := Demo.platform CanvasReady in
  let w := Demo.fresh "Blue Peanits" in
  exists w1 w2,
    createTemplate P Demo.blank_file "first" Demo.somewhere w = Ret tt w1
    /\ deleteTemplate "0 !" w1 = Ret tt w2
    /\ templatesArray (mgr w2) = templatesArray (mgr w)
    /\ storedTemplates w2 = storedTemplates w.
Proof.
  apply (create_then_delete_restores (Demo.platform CanvasReady) Demo.blank_file "first"
           Demo.somewhere (Demo.fresh "Blue Peanits") (mkChunks [] [] 0)).
  - exact I.
  - reflexivity.
  - cbn. split; [discriminate|exact I].
  - reflexivity.
  - constructor.
Defined.

(** X3.  When the key [createTemplate] computes is already in the document,
    the new entry replaces the old one: the document keeps its keys and its
    size, so the next template gets the same sortID again, while the array
    grows by one. *)
Theorem createTemplate_key_collision (P : Platform) (blob : Image) (nm : string)
        (cs : list JSNum) (w : World) (ch : Chunks) (old : addr) :
  let aid := numberToEncoded P (default 0 (userID (mgr w))) (encodingBase (mgr w)) in
  let key := pretty (Z.of_nat (persistedCount w)) ++ " " ++ aid in
  document_usable w ->
  createTemplateTiles P blob cs (tileSize (mgr w)) = Ok ch ->
  JSObject.get key (storedTemplates w) = Some old ->
  exists w',
    createTemplate P blob nm cs w = Ret tt w'
    /\ JSObject.keys (storedTemplates w') = JSObject.keys (storedTemplates w)
    /\ persistedCount w' = persistedCount w
    /\ JSObject.get key (storedTemplates w') = Some (length (heap w))
    /\ length (templatesArray (mgr w')) = S (length (templatesArray (mgr w))).
Proof.
  intros aid key Hdoc Hch Hold.
  destruct (createTemplate_world P blob nm cs w ch Hdoc Hch)
    as (w' & Hrun & Hts & Harr & _ & _).
  fold aid in Hts. fold key in Hts.
  assert (Hkeys : JSObject.keys (storedTemplates w') = JSObject.keys (storedTemplates w)).
  { rewrite Hts. apply (keys_set_present key _ old). exact Hold. }
  exists w'. split; [exact Hrun|]. split; [exact Hkeys|]. split; [|split].
  - rewrite !persistedCount_storedTemplates.
    unfold JSObject.keys in Hkeys.
    rewrite <- (length_map fst (storedTemplates w')), Hkeys, length_map. reflexivity.
  - rewrite Hts. apply get_set_same.
  - rewrite Harr, length_app. cbn. lia.
Qed.

Lemma createTemplate_key_collision_witness :
  let P := Demo.platform CanvasReady in
  let w := Demo.run (deleteTemplate "0 !")
             (Demo.run (createTemplate P Demo.blank_file "second" Demo.somewhere) Demo.created) in
  JSObject.keys (storedTemplates w) = ["1 !"]
  /\ exists w',
      createTemplate P Demo.blank_file "third" Demo.somewhere w = Ret tt w'
      /\ JSObject.keys (storedTemplates w') = JSObject.keys (storedTemplates w)
      /\ persistedCount w' = persistedCount w
      /\ JSObject.get "1 !" (storedTemplates w') = Some (length (heap w))
      /\ length (templatesArray (mgr w')) = S (length (templatesArray (mgr w))).
Proof.
  intros P w. split; [reflexivity|].
  apply (createTemplate_key_collision P Demo.blank_file "third" Demo.somewhere w
           (mkChunks [] [] 0) 1%nat).
  - cbn. discriminate.
  - reflexivity.
  - reflexivity.
Defined.

(** ** Tile prefixes *)

Lemma length_append (a b : string) :
  String.length (a ++ b) = (String.length a + String.length b)%nat.
Proof.
  induction a as [|x a IH]; [reflexivity|].
  rewrite append_cons. cbn [String.length]. rewrite IH. reflexivity.
Qed.

Lemma length_repeat_char (c : ascii) (n : nat) :
  String.length (JSString.repeat_char c n) = n.
Proof. induction n as [|n IH]; [reflexivity|]. cbn. rewrite IH. reflexivity. Qed.

Lemma length_padStart (n : nat) (c : ascii) (s : string) :
  String.length (JSString.padStart n c s) = Nat.max n (String.length s).
Proof.
  unfold JSString.padStart. rewrite length_append, length_repeat_char. lia.
Qed.

Lemma length_pretty_N_go (k : nat) (x : N) (s : string) :
  (x < 10 ^ N.of_nat k)%N ->
  (String.length (pretty_N_go x s) <= k + String.length s)%nat.
Proof.
  revert x s. induction k as [|k IH]; intros x s Hx.
  - assert (x = 0%N) as -> by (cbn in Hx; lia). rewrite pretty_N_go_0. lia.
  - destruct (N.eq_dec x 0%N) as [->|Hne]; [rewrite pretty_N_go_0; lia|].
    rewrite pretty_N_go_step by lia.
    etransitivity; [apply IH|cbn [String.length]; lia].
    apply N.Div0.div_lt_upper_bound.
    rewrite Nat2N.inj_succ, N.pow_succ_r' in Hx. exact Hx.
Qed.

Lemma length_pretty_four (z : Z) :
  four_digits z -> (String.length (pretty z) <= 4)%nat.
Proof.
  intros [Hlo Hhi]. destruct z as [|p|p]; [cbn; lia| |lia].
  change (pretty (Z.pos p)) with (pretty (N.pos p)).
  unfold pretty, pretty_N. destruct (decide (N.pos p = 0%N)); [discriminate|].
  etransitivity; [apply (length_pretty_N_go 4)|cbn; lia].
  change (10 ^ N.of_nat 4)%N with 10000%N. lia.
Qed.

Lemma digits_go_zeros (k : nat) (s : string) :
  JSString.digits_go (JSString.repeat_char "0" k ++ s) 0 = JSString.digits_go s 0.
Proof.
  induction k as [|k IH]; [reflexivity|].
  cbn [JSString.repeat_char]. rewrite append_cons. cbn [JSString.digits_go]. exact IH.
Qed.

(** A padded tile index reads back as the index. *)
Lemma Number_padded (z : Z) :
  0 <= z -> JSString.Number (JSString.padStart 4 "0" (pretty z)) = Some z.
Proof.
  intros Hz. apply Number_digits. unfold JSString.padStart. rewrite digits_go_zeros.
  destruct z as [|p|p]; [reflexivity| |lia].
  apply (digits_go_pretty_N (N.pos p)).
Qed.

Lemma startsWith_append (s p : string) :
  JSString.startsWith s p = true -> exists r, s = p ++ r.
Proof.
  unfold JSString.startsWith. revert s. induction p as [|x p IH]; intros s H.
  - exists s. reflexivity.
  - destruct s as [|y s]; [discriminate|]. cbn in H.
    destruct (Ascii.ascii_dec x y) as [->|]; [|discriminate].
    destruct (IH s H) as (r & ->). exists r. reflexivity.
Qed.

Lemma append_same_length (p1 p2 r1 r2 : string) :
  String.length p1 = String.length p2 -> p1 ++ r1 = p2 ++ r2 -> p1 = p2 /\ r1 = r2.
Proof.
  revert p2. induction p1 as [|x p1 IH]; intros [|y p2] Hlen H; try discriminate.
  - split; [reflexivity|exact H].
  - rewrite !append_cons in H. injection H as -> H. injection Hlen as Hlen.
    destruct (IH p2 Hlen H) as [-> ->]. split; reflexivity.
Qed.

Lemma length_padded_four (z : Z) :
  four_digits z -> String.length (JSString.padStart 4 "0" (pretty z)) = 4%nat.
Proof.
  intros Hz. rewrite length_padStart. pose proof (length_pretty_four z Hz). lia.
Qed.

(** X4.  A fragment key answers to at most one tile: when it starts with
    the prefixes of two tile requests whose indices have at most four
    digits, the two requests are for the same tile. *)
Theorem tile_request_unique (key : string) (t1 t2 : Z * Z) :
  four_digits (fst t1) -> four_digits (snd t1) ->
  four_digits (fst t2) -> four_digits (snd t2) ->
  JSString.startsWith key (tilePrefix t1) = true ->
  JSString.startsWith key (tilePrefix t2) = true ->
  t1 = t2.
Proof.
  intros Hx1 Hy1 Hx2 Hy2 H1 H2.
  destruct (startsWith_append _ _ H1) as (r1 & E1).
  destruct (startsWith_append _ _ H2) as (r2 & E2).
  rewrite E1 in E2. unfold tilePrefix in E2.
  assert (Hlen : forall t, four_digits (fst t) -> four_digits (snd t) ->
                           String.length (JSString.padStart 4 "0" (pretty (fst t)) ++ ","
                                          ++ JSString.padStart 4 "0" (pretty (snd t))) = 9%nat).
  { intros t Hx Hy. rewrite !length_append, !length_padded_four by assumption. reflexivity. }
  destruct (append_same_length _ _ _ _ (eq_trans (Hlen t1 Hx1 Hy1) (eq_sym (Hlen t2 Hx2 Hy2))) E2)
    as [E _].
  apply append_same_length in E;
    [|rewrite !length_padded_four by assumption; reflexivity].
  destruct E as [Ex Ey].
  change ("," ++ ?a) with (String "," a) in Ey. injection Ey as Ey.
  assert (Hfst : Some (fst t1) = Some (fst t2)).
  { rewrite <- (Number_padded (fst t1)), <- (Number_padded (fst t2)), Ex
      by (destruct Hx1, Hx2; assumption). reflexivity. }
  assert (Hsnd : Some (snd t1) = Some (snd t2)).
  { rewrite <- (Number_padded (snd t1)), <- (Number_padded (snd t2)), Ey
      by (destruct Hy1, Hy2; assumption). reflexivity. }
  destruct t1, t2. cbn in *. congruence.
Qed.

Lemma tile_request_unique_witness :
  four_digits 12 /\ four_digits 2047
  /\ JSString.startsWith "0012,2047,183,593" (tilePrefix (12, 2047)) = true
  /\ (12, 2047) = (12, 2047).
Proof.
  assert (H12 : four_digits 12) by (unfold four_digits; lia).
  assert (H2047 : four_digits 2047) by (unfold four_digits; lia).
  split; [exact H12|]. split; [exact H2047|]. split; [reflexivity|].
  apply (tile_request_unique "0012,2047,183,593" (12, 2047) (12, 2047)
           H12 H2047 H12 H2047 eq_refl eq_refl).
Defined.

(** Five digits break the rule: one key answers to two tiles. *)
Lemma tile_request_ambiguous_beyond_four_digits :
  JSString.startsWith "0001,12345,0,0" (tilePrefix (1, 1234)) = true
  /\ JSString.startsWith "0001,12345,0,0" (tilePrefix (1, 12345)) = true.
Proof. split; reflexivity. Qed.

(** ** More on the compositor *)

(** X5.  Whatever templates are drawn, the image [drawTemplateOnTile]
    returns is [tileSize * drawMult] cells wide and high; when that product
    is not positive the call throws after the status line is out. *)
Theorem drawTemplateOnTile_size (P : Platform) (tileBlob : Image) (tileXY : Z * Z)
        (w : World) :
  templatesShouldBeDrawn (mgr w) = true ->
  (forall size, tileSize (mgr w) * drawMult (mgr w) = Z.pos size ->
     exists img w',
       drawTemplateOnTile P tileBlob tileXY w = Ret img w'
       /\ width img = size /\ height img = size)
  /\ (tileSize (mgr w) * drawMult (mgr w) <= 0 ->
      exists e w', drawTemplateOnTile P tileBlob tileXY w = Throw e w').
Proof.
  intros Hon. unfold drawTemplateOnTile. rewrite Hon. cbn [negb]. split.
  - intros size Hsize. rewrite Hsize. eexists. eexists. split; [reflexivity|].
    apply drawFragments_size.
  - intros Hle. destruct (tileSize (mgr w) * drawMult (mgr w)); [| lia |];
      eexists; eexists; reflexivity.
Qed.

Lemma drawTemplateOnTile_size_witness :
  templatesShouldBeDrawn (mgr Demo.imported) = true
  /\ tileSize (mgr Demo.imported) * drawMult (mgr Demo.imported) = 3000
  /\ exists img w',
      drawTemplateOnTile (Demo.platform CanvasReady) (Demo.plain_tile 7 5 Demo.opaque_red)
        (0, 0) Demo.imported = Ret img w'
      /\ width img = 3000%positive /\ height img = 3000%positive.
Proof.
  split; [reflexivity|]. split; [reflexivity|].
  apply (proj1 (drawTemplateOnTile_size (Demo.platform CanvasReady)
                  (Demo.plain_tile 7 5 Demo.opaque_red) (0, 0) Demo.imported eq_refl)).
  reflexivity.
Defined.

(** Sorting and filtering commute, the sort being stable. *)
Lemma insert_by_sortID_least (t : Template) (l : list Template) :
  Forall (by_sortID t) l -> insert_by_sortID t l = t :: l.
Proof.
  intros H. destruct H as [|u l Hu _]; [reflexivity|].
  cbn. unfold by_sortID in Hu.
  replace (sortID t <=? sortID u) with true by (symmetry; apply Z.leb_le; exact Hu).
  reflexivity.
Qed.

Lemma StronglySorted_filter (p : Template -> bool) (l : list Template) :
  StronglySorted by_sortID l -> StronglySorted by_sortID (List.filter p l).
Proof.
  induction 1 as [|u l Hl IH Hu]; cbn; [constructor|].
  destruct (p u); [|exact IH]. constructor; [exact IH|].
  rewrite Forall_forall in *. intros v Hv. apply Hu.
  apply List.filter_In in Hv. apply Hv.
Qed.

Lemma filter_insert_by_sortID (p : Template -> bool) (t : Template) (l : list Template) :
  StronglySorted by_sortID l ->
  List.filter p (insert_by_sortID t l)
  = if p t then insert_by_sortID t (List.filter p l) else List.filter p l.
Proof.
  induction 1 as [|u l Hl IH Hu]; cbn [insert_by_sortID List.filter].
  - destruct (p t); reflexivity.
  - destruct (Z.leb_spec (sortID t) (sortID u)) as [Hle|Hgt]; cbn [List.filter].
    + destruct (p t); [|reflexivity].
      symmetry. apply insert_by_sortID_least.
      assert (Hall : Forall (by_sortID t) (u :: l)).
      { constructor; [exact Hle|]. eapply Forall_impl; [|exact Hu].
        unfold by_sortID. intros; lia. }
      change (if p u then u :: List.filter p l else List.filter p l)
        with (List.filter p (u :: l)).
      rewrite Forall_forall in *. intros v Hv. apply Hall.
      apply List.filter_In in Hv. apply Hv.
    + rewrite IH. destruct (p u), (p t); try reflexivity.
      cbn [insert_by_sortID].
      replace (sortID t <=? sortID u) with false by (symmetry; apply Z.leb_gt; exact Hgt).
      reflexivity.
Qed.

Lemma filter_sort_by_sortID (p : Template -> bool) (l : list Template) :
  List.filter p (sort_by_sortID l) = sort_by_sortID (List.filter p l).
Proof.
  induction l as [|t l IH]; [reflexivity|].
  cbn [sort_by_sortID foldr List.filter].
  rewrite filter_insert_by_sortID by apply sort_by_sortID_sorted.
  fold (sort_by_sortID l). rewrite IH. destruct (p t); reflexivity.
Qed.

Lemma filter_filter_implied {A} (p q : A -> bool) (l : list A) :
  (forall a, q a = true -> p a = true) ->
  List.filter q (List.filter p l) = List.filter q l.
Proof.
  intros H. induction l as [|a l IH]; [reflexivity|]. cbn.
  destruct (p a) eqn:Hp; cbn; rewrite IH; [reflexivity|].
  destruct (q a) eqn:Hq; [|reflexivity]. rewrite (H a Hq) in Hp. discriminate.
Qed.

Lemma templatesToDraw_enabled_only (prefix : string) (l : list Template) :
  templatesToDraw prefix (sort_by_sortID (List.filter enabled l))
  = templatesToDraw prefix (sort_by_sortID l).
Proof.
  unfold templatesToDraw. rewrite !filter_sort_by_sortID.
  rewrite filter_filter_implied by auto. reflexivity.
Qed.

Lemma totalPixels_enabled_only (prefix : string) (l : list Template) :
  totalPixels prefix (sort_by_sortID (List.filter enabled l))
  = totalPixels prefix (sort_by_sortID l).
Proof.
  unfold totalPixels. rewrite !filter_sort_by_sortID.
  rewrite filter_filter_implied; [reflexivity|].
  intros t H. apply andb_true_iff in H. apply H.
Qed.

(** X6.  Disabled templates are invisible to the compositor: the image it
    returns and the status line it shows are those it would produce with
    the disabled templates taken out of the array. *)
Theorem drawTemplateOnTile_ignores_disabled (P : Platform) (tileBlob : Image)
        (tileXY : Z * Z) (w : World) :
  let without := with_mgr (fun m => set_templatesArray
                                      (List.filter enabled (templatesArray m)) m) w in
  returned (drawTemplateOnTile P tileBlob tileXY w)
  = returned (drawTemplateOnTile P tileBlob tileXY without)
  /\ events (world_of (drawTemplateOnTile P tileBlob tileXY w))
     = events (world_of (drawTemplateOnTile P tileBlob tileXY without)).
Proof.
  unfold drawTemplateOnTile. cbn [mgr with_mgr templatesShouldBeDrawn set_templatesArray
                                  tileSize drawMult templatesArray].
  destruct (templatesShouldBeDrawn (mgr w)); cbn [negb]; [|split; reflexivity].
  unfold displayStatus.
  rewrite templatesToDraw_enabled_only, totalPixels_enabled_only.
  destruct (tileSize (mgr w) * drawMult (mgr w)); split; reflexivity.
Qed.

(** The aggregate of the status line is the sum over the templates drawn. *)
Lemma fragmentFor_some (prefix : string) (t : Template) :
  (0 <? length (matchingTiles prefix t))%nat
  = match fragmentFor prefix t with Some _ => true | None => false end.
Proof.
  unfold fragmentFor. destruct (matchingTiles prefix t) as [|[k b] r]; reflexivity.
Qed.

Lemma totalPixels_drawnPixels (prefix : string) (l : list Template) :
  totalPixels prefix l = drawnPixels (drawOrder prefix l).
Proof.
  unfold totalPixels.
  assert (H : forall acc,
             fold_left (fun sum t => sum + pixelCount t)
               (List.filter (fun t => (0 <? length (matchingTiles prefix t))%nat && enabled t) l)
               acc
             = acc + drawnPixels (drawOrder prefix l)).
  { induction l as [|t l IH]; intros acc; [cbn; lia|].
    unfold drawOrder in *. cbn [List.filter].
    rewrite fragmentFor_some.
    destruct (enabled t); cbn [List.filter omap list_omap].
    - destruct (fragmentFor prefix t) as [f|]; cbn [andb option_map fold_left].
      + rewrite IH. cbn [drawnPixels foldr fst]. unfold drawnPixels. lia.
      + apply IH.
    - rewrite andb_false_r. apply IH. }
  rewrite H. lia.
Qed.

(** X7.  The status line counts what is drawn: the number it shows is the
    number of templates drawn for the tile and the total is the sum of
    their pixel counts, no other template contributing. *)
Theorem status_counts_drawn_templates (P : Platform) (tileBlob : Image)
        (tileXY : Z * Z) (w : World) :
  templatesShouldBeDrawn (mgr w) = true ->
  let order := drawOrder (tilePrefix tileXY) (sort_by_sortID (templatesArray (mgr w))) in
  let n := Z.of_nat (length order) in
  events (world_of (drawTemplateOnTile P tileBlob tileXY w))
  = (events w
     ++ [Status (if 0 <? n
                 then "Displaying " ++ pretty n ++ " template"
                      ++ (if n =? 1 then "" else "s") ++ "." ++ newline
                      ++ "Total pixels: " ++ formatNumber P (drawnPixels order)
                 else "Displaying " ++ pretty n ++ " templates.")])%list.
Proof.
  intros Hon order n. unfold drawTemplateOnTile. rewrite Hon. cbn [negb].
  destruct (tileSize (mgr w) * drawMult (mgr w));
    cbn [world_of events emit]; unfold displayStatus;
    rewrite totalPixels_drawnPixels, <- drawOrder_fragments, length_map; reflexivity.
Qed.

Lemma status_counts_drawn_templates_witness :
  templatesShouldBeDrawn (mgr Demo.imported) = true
  /\ events (world_of (drawTemplateOnTile (Demo.platform CanvasReady)
                         (Demo.plain_tile 1000 1000 Demo.opaque_red) (0, 0) Demo.imported))
     = [Status ("Displaying 2 templates." ++ newline ++ "Total pixels: 2")].
Proof.
  split; [reflexivity|].
  apply (status_counts_drawn_templates (Demo.platform CanvasReady)
           (Demo.plain_tile 1000 1000 Demo.opaque_red) (0, 0) Demo.imported eq_refl).
Defined.

(** ** Editing a template *)

Lemma get_In {V} (k : string) (v : V) (o : list (string * V)) :
  JSObject.get k o = Some v -> In (k, v) o.
Proof.
  induction o as [|[k' v'] o IH]; simpl; [discriminate|].
  destruct (String.eqb_spec k' k) as [->|_].
  - intros H. injection H as ->. left. reflexivity.
  - intros H. right. apply IH. exact H.
Qed.

Lemma get_NoDup {V} (k : string) (v : V) (o : list (string * V)) :
  NoDup (map fst o) -> In (k, v) o -> JSObject.get k o = Some v.
Proof.
  induction o as [|[k' v'] o IH]; simpl; [tauto|].
  intros Hnd [H|H].
  - injection H as -> ->. rewrite String.eqb_refl. reflexivity.
  - inversion Hnd as [|? ? Hk Hnd']; subst.
    destruct (String.eqb_spec k' k) as [->|_].
    + exfalso. apply Hk. apply list_elem_of_In. apply (in_map fst _ (k, v)). exact H.
    + apply IH; assumption.
Qed.

Lemma NoDup_snd_key {V} (k1 k2 : string) (v : V) (o : list (string * V)) :
  NoDup (map snd o) -> In (k1, v) o -> In (k2, v) o -> k1 = k2.
Proof.
  induction o as [|[k' v'] o IH]; simpl; [tauto|].
  intros Hnd H1 H2. inversion Hnd as [|? ? Hv Hnd']; subst.
  assert (Hfresh : forall k, ~ In (k, v') o).
  { intros k Hin. apply Hv. apply list_elem_of_In. apply (in_map snd _ (k, v')). exact Hin. }
  destruct H1 as [H1|H1], H2 as [H2|H2].
  - congruence.
  - injection H1 as -> ->. destruct (Hfresh _ H2).
  - injection H2 as -> ->. destruct (Hfresh _ H1).
  - apply IH; assumption.
Qed.

Lemma get_None_not_In {V} (k : string) (v : V) (o : list (string * V)) :
  JSObject.get k o = None -> ~ In (k, v) o.
Proof.
  intros Hnone Hin. apply (get_of_In k v o) in Hin. congruence.
Qed.

(** The world after the shared tail of the three edits. *)
Lemma edit_world (templateKey : string) (onEntry : Entry -> Entry)
      (onTemplate : Template -> Template) (w : World) :
  document_usable w ->
  exists w',
    bind ensureJSON (updateBoth templateKey onEntry onTemplate) w = Ret tt w'
    /\ storedTemplates w' = storedTemplates w
    /\ heap w' = match JSObject.get templateKey (storedTemplates w) with
                 | Some a => <[a := onEntry (deref (heap w) a)]> (heap w)
                 | None => heap w
                 end
    /\ templatesArray (mgr w')
       = update_first (key_matches templateKey) onTemplate (templatesArray (mgr w))
    /\ persisted w'
    /\ document_usable w'
    /\ exists doc, events w' = (events w ++ [Stored doc])%list.
Proof.
  unfold document_usable, storedTemplates, updateBoth, persisted. run_method.
  intros Hdoc.
  destruct (templatesJSON (mgr w)) as [d|] eqn:Hd.
  - destruct (templates d) as [ts|] eqn:Hts; [|congruence].
    cbn [default from_option id]. destruct (JSObject.get templateKey ts) as [a|];
      (eexists; split; [reflexivity|]; cbn; rewrite ?Hd, ?Hts; cbn;
       split; [reflexivity|]; split; [reflexivity|]; split; [reflexivity|];
       split; [eexists; eexists; split; [first [exact Hd|reflexivity]|reflexivity]|];
       split; [discriminate|eexists; reflexivity]).
  - cbn. eexists. split; [reflexivity|]. cbn.
    split; [reflexivity|]. split; [reflexivity|]. split; [reflexivity|].
    split; [eexists; eexists; split; reflexivity|].
    split; [discriminate|eexists; reflexivity].
Qed.

Lemma find_update_first (q p : Template -> bool) (f : Template -> Template)
      (l : list Template) :
  (forall t, q (f t) = q t) -> (forall t, pixelCount (f t) = pixelCount t) ->
  option_map pixelCount (List.find q (update_first p f l))
  = option_map pixelCount (List.find q l).
Proof.
  intros Hq Hpc. induction l as [|t l IH]; [reflexivity|].
  cbn [update_first]. destruct (p t); cbn [List.find].
  - rewrite Hq. destruct (q t); cbn; [rewrite Hpc|]; reflexivity.
  - destruct (q t); [reflexivity|exact IH].
Qed.

Lemma deref_insert_ne (h : list Entry) (a b : addr) (e : Entry) :
  a <> b -> deref (<[a := e]> h) b = deref h b.
Proof. intros H. unfold deref. rewrite list_lookup_insert_ne by exact H. reflexivity. Qed.

(** The listing after an edit: the element under the key shows the change,
    the others are as before. *)
Lemma edit_listing (templateKey : string) (onEntry : Entry -> Entry)
      (onTemplate : Template -> Template) (change : TemplateInfo -> TemplateInfo)
      (w : World) :
  (forall t, compositeKey (onTemplate t) = compositeKey t) ->
  (forall t, pixelCount (onTemplate t) = pixelCount t) ->
  (forall e, e_pixelCount (onEntry e) = e_pixelCount e) ->
  (forall e k pc,
      mkTemplateInfo k (e_name (onEntry e)) (e_coords (onEntry e)) (e_enabled (onEntry e)) pc
      = change (mkTemplateInfo k (e_name e) (e_coords e) (e_enabled e) pc)) ->
  document_usable w -> document_sound w ->
  exists w',
    bind ensureJSON (updateBoth templateKey onEntry onTemplate) w = Ret tt w'
    /\ getAllTemplates w' = relist templateKey change (getAllTemplates w)
    /\ document_sound w'
    /\ document_usable w'.
Proof.
  intros HkeyT HpcT HpcE Hchange Hdoc (Hkeys & Haddrs & Halloc).
  destruct (edit_world templateKey onEntry onTemplate w Hdoc)
    as (w' & Hrun & Hts & Hheap & Harr & (ev & d' & Hd' & _) & Husable' & _).
  assert (Hlen : length (heap w') = length (heap w)).
  { rewrite Hheap. destruct (JSObject.get templateKey (storedTemplates w));
      [apply length_insert|reflexivity]. }
  exists w'. split; [exact Hrun|]. split; [|split; [|exact Husable']].
  - unfold getAllTemplates, relist.
    unfold storedTemplates in Hts, Hheap, Hkeys, Haddrs, Halloc.
    unfold document_usable in Hdoc, Husable'. rewrite Hd' in *.
    destruct (templates d') as [ts'|] eqn:Hts'; [|congruence].
    destruct (templatesJSON (mgr w)) as [d|] eqn:Hd.
    + destruct (templates d) as [ts|] eqn:Hts0; [|congruence].
      cbn [default from_option id] in *. subst ts'. rewrite map_map.
      apply map_ext_in. intros [k a] Hin. cbv beta. cbn [fst snd i_key].
      assert (Hcount : forall e e0 : Entry,
                 e_pixelCount e = e_pixelCount e0 ->
                 match List.find (fun t => String.eqb (compositeKey t) k)
                                 (templatesArray (mgr w')) with
                 | Some t => if pixelCount t =? 0 then entryPixelCount e
                             else PCNumber (pixelCount t)
                 | None => entryPixelCount e
                 end
                 = match List.find (fun t => String.eqb (compositeKey t) k)
                                   (templatesArray (mgr w)) with
                   | Some t => if pixelCount t =? 0 then entryPixelCount e0
                               else PCNumber (pixelCount t)
                   | None => entryPixelCount e0
                   end).
      { intros e e0 He. rewrite Harr.
        pose proof (find_update_first (fun t => String.eqb (compositeKey t) k)
                      (key_matches templateKey) onTemplate (templatesArray (mgr w))
                      (fun t => f_equal (fun s => String.eqb s k) (HkeyT t)) HpcT) as Hf.
        unfold entryPixelCount. rewrite He.
        destruct (List.find _ (update_first _ _ _)) as [t1|],
                 (List.find _ (templatesArray (mgr w))) as [t2|];
          cbn in Hf; try discriminate; [injection Hf as ->|]; reflexivity. }
      destruct (String.eqb_spec k templateKey) as [->|Hne].
      * rewrite (get_NoDup templateKey a ts Hkeys Hin) in Hheap.
        assert (Ha : (a < length (heap w))%nat).
        { rewrite Forall_forall in Halloc. apply (Halloc (templateKey, a) Hin). }
        rewrite Hheap, deref_insert by exact Ha.
        rewrite (Hcount (onEntry (deref (heap w) a)) (deref (heap w) a) (HpcE _)).
        apply Hchange.
      * assert (Hsame : deref (heap w') a = deref (heap w) a).
        { rewrite Hheap. destruct (JSObject.get templateKey ts) as [b|] eqn:Hb; [|reflexivity].
          apply deref_insert_ne. intros ->.
          apply get_In in Hb.
          apply Hne. apply (NoDup_snd_key k templateKey a ts Haddrs Hin Hb). }
        rewrite Hsame. rewrite (Hcount (deref (heap w) a) (deref (heap w) a) eq_refl).
        reflexivity.
    + cbn [default from_option id] in *. subst ts'. reflexivity.
  - unfold document_sound. rewrite Hts, Hlen. repeat split; assumption.
Qed.

(** X8.  [toggleTemplate] shows in the listing: afterwards
    [getAllTemplates] reports the new flag for the template under the key
    and reports every other template as before; the call ends by storing
    the document. *)
Theorem toggleTemplate_listing (templateKey : string) (en : bool) (w : World) :
  document_usable w -> document_sound w ->
  exists w',
    toggleTemplate templateKey en w = Ret tt w'
    /\ getAllTemplates w' = relist templateKey (set_i_enabled (Some en)) (getAllTemplates w)
    /\ persisted w'.
Proof.
  intros Hdoc Hsound.
  destruct (edit_listing templateKey (set_e_enabled (Some en)) (set_enabled en)
              (set_i_enabled (Some en)) w) as (w' & Hrun & Hlist & _ & _);
    try reflexivity; try assumption.
  destruct (edit_world templateKey (set_e_enabled (Some en)) (set_enabled en) w Hdoc)
    as (w2 & Hrun2 & _ & _ & _ & Hp & _).
  unfold toggleTemplate. rewrite Hrun in Hrun2. injection Hrun2 as <-.
  exists w'. split; [exact Hrun|]. split; [exact Hlist|exact Hp].
Qed.

Lemma Demo_imported_sound : document_usable Demo.imported /\ document_sound Demo.imported.
Proof.
  split; [cbn; discriminate|]. unfold document_sound. cbn.
  split; [|split].
  - repeat constructor; rewrite ?list_elem_of_In; cbn; intuition discriminate.
  - repeat constructor; rewrite ?list_elem_of_In; cbn; intuition discriminate.
  - repeat constructor; cbn; lia.
Qed.

Lemma toggleTemplate_listing_witness :
  map (fun i => (i_key i, i_enabled i)) (getAllTemplates Demo.imported)
  = [("5 !", Some true); ("2 !", Some true)]
  /\ exists w',
      toggleTemplate "2 !" false Demo.imported = Ret tt w'
      /\ getAllTemplates w'
         = relist "2 !" (set_i_enabled (Some false)) (getAllTemplates Demo.imported)
      /\ persisted w'.
Proof.
  split; [reflexivity|].
  apply (toggleTemplate_listing "2 !" false Demo.imported
           (proj1 Demo_imported_sound) (proj2 Demo_imported_sound)).
Defined.

(** X9.  [updateTemplateName] shows in the listing in the same way, and the
    manager itself accepts any name, the empty one included. *)
Theorem updateTemplateName_listing (templateKey newName : string) (w : World) :
  document_usable w -> document_sound w ->
  exists w',
    updateTemplateName templateKey newName w = Ret tt w'
    /\ getAllTemplates w' = relist templateKey (set_i_name (Some newName)) (getAllTemplates w)
    /\ persisted w'.
Proof.
  intros Hdoc Hsound.
  destruct (edit_listing templateKey (set_e_name (Some newName)) (set_displayName newName)
              (set_i_name (Some newName)) w) as (w' & Hrun & Hlist & _ & _);
    try reflexivity; try assumption.
  destruct (edit_world templateKey (set_e_name (Some newName)) (set_displayName newName) w Hdoc)
    as (w2 & Hrun2 & _ & _ & _ & Hp & _).
  unfold updateTemplateName. rewrite Hrun in Hrun2. injection Hrun2 as <-.
  exists w'. split; [exact Hrun|]. split; [exact Hlist|exact Hp].
Qed.

Lemma updateTemplateName_listing_witness :
  exists w',
    updateTemplateName "5 !" "" Demo.imported = Ret tt w'
    /\ getAllTemplates w'
       = relist "5 !" (set_i_name (Some "")) (getAllTemplates Demo.imported)
    /\ persisted w'.
Proof.
  apply (updateTemplateName_listing "5 !" "" Demo.imported
           (proj1 Demo_imported_sound) (proj2 Demo_imported_sound)).
Defined.

(** [updateTemplateCoordinates] on four integers is the shared edit
    followed by the confirmation. *)
Lemma updateTemplateCoordinates_as_edit (templateKey : string) (a b c d : Z) (w : World) :
  let cs := [JNum a; JNum b; JNum c; JNum d] in
  updateTemplateCoordinates templateKey cs w
  = match bind ensureJSON
            (updateBoth templateKey (set_e_coords (Some (coords_string cs)))
                        (set_coords (Some cs))) w with
    | Ret _ w' => Ret ("Template coordinates updated to: " ++ coords_string cs) w'
    | Throw e w' => Throw e w'
    end.
Proof.
  intros cs. unfold updateTemplateCoordinates, updateBoth. run_method.
  destruct (templatesJSON (mgr w)) as [doc|]; cbn.
  - destruct (templates doc) as [ts|]; cbn; [|reflexivity].
    destruct (JSObject.get templateKey ts); reflexivity.
  - reflexivity.
Qed.

(** X10.  [updateTemplateCoordinates] on four integers shows in the listing:
    the template under the key is reported at the new coordinates, joined
    by a comma and a space, and every other template as before.  The
    integers are safe ones, which JavaScript holds exactly and prints with
    all their digits. *)
Theorem updateTemplateCoordinates_listing (templateKey : string) (a b c d : Z) (w : World) :
  let cs := [JNum a; JNum b; JNum c; JNum d] in
  safe_integer a -> safe_integer b -> safe_integer c -> safe_integer d ->
  document_usable w -> document_sound w ->
  exists w',
    updateTemplateCoordinates templateKey cs w
    = Ret ("Template coordinates updated to: " ++ coords_string cs) w'
    /\ getAllTemplates w'
       = relist templateKey (set_i_coords (Some (coords_string cs))) (getAllTemplates w)
    /\ persisted w'.
Proof.
  intros cs _ _ _ _ Hdoc Hsound.
  destruct (edit_listing templateKey (set_e_coords (Some (coords_string cs)))
              (set_coords (Some cs)) (set_i_coords (Some (coords_string cs))) w)
    as (w' & Hrun & Hlist & _ & _); try reflexivity; try assumption.
  destruct (edit_world templateKey (set_e_coords (Some (coords_string cs)))
              (set_coords (Some cs)) w Hdoc)
    as (w2 & Hrun2 & _ & _ & _ & Hp & _).
  rewrite Hrun in Hrun2. injection Hrun2 as <-.
  exists w'. split; [|split; [exact Hlist|exact Hp]].
  unfold cs. rewrite updateTemplateCoordinates_as_edit. fold cs. rewrite Hrun. reflexivity.
Qed.

Lemma updateTemplateCoordinates_listing_witness :
  exists w',
    updateTemplateCoordinates "5 !" [JNum 12; JNum 34; JNum 5; JNum 6] Demo.imported
    = Ret "Template coordinates updated to: 12, 34, 5, 6" w'
    /\ getAllTemplates w'
       = relist "5 !" (set_i_coords (Some "12, 34, 5, 6")) (getAllTemplates Demo.imported)
    /\ persisted w'.
Proof.
  apply (updateTemplateCoordinates_listing "5 !" 12 34 5 6 Demo.imported);
    [unfold safe_integer; lia.. | exact (proj1 Demo_imported_sound)
     | exact (proj2 Demo_imported_sound)].
Defined.

(** ** setAllTemplatesEnabled *)

Lemma bind_Ret {A B} (m : M A) (k : A -> M B) (w w1 : World) (a : A) :
  m w = Ret a w1 -> bind m k w = k a w1.
Proof. unfold bind. intros ->. reflexivity. Qed.

Lemma toggleEach_listing (keys : list string) (en : bool) (w : World) :
  document_usable w -> document_sound w ->
  exists w' stored,
    toggleEach keys en w = Ret tt w'
    /\ getAllTemplates w'
       = map (fun i => if existsb (String.eqb (i_key i)) keys
                       then set_i_enabled (Some en) i else i)
             (getAllTemplates w)
    /\ events w' = (events w ++ stored)%list
    /\ length stored = length keys
    /\ forallb is_Stored stored = true.
Proof.
  revert w. induction keys as [|k keys IH]; intros w Hdoc Hsound.
  - exists w, []. split; [reflexivity|]. split; [|split; [|split; reflexivity]].
    + cbn [existsb]. rewrite map_id. reflexivity.
    + rewrite app_nil_r. reflexivity.
  - destruct (edit_listing k (set_e_enabled (Some en)) (set_enabled en)
                (set_i_enabled (Some en)) w) as (w1 & Hrun & Hlist & Hsound1 & Hdoc1);
      try reflexivity; try assumption.
    destruct (edit_world k (set_e_enabled (Some en)) (set_enabled en) w Hdoc)
      as (w2 & Hrun2 & _ & _ & _ & _ & _ & (doc & Hev)).
    rewrite Hrun in Hrun2. injection Hrun2 as <-.
    destruct (IH w1 Hdoc1 Hsound1) as (w' & stored & Hrest & Hlist' & Hev' & Hlen & Hall).
    exists w', (Stored doc :: stored).
    split; [|split; [|split; [|split]]].
    + cbn [toggleEach].
      rewrite (bind_Ret _ _ _ _ _ (Hrun : toggleTemplate k en w = Ret tt w1)).
      exact Hrest.
    + rewrite Hlist', Hlist. unfold relist. rewrite map_map. apply map_ext. intros i.
      cbn [existsb].
      destruct (String.eqb (i_key i) k); cbn [orb set_i_enabled i_key].
      * destruct (existsb (String.eqb (i_key i)) keys); reflexivity.
      * reflexivity.
    + rewrite Hev', Hev, <- app_assoc. reflexivity.
    + cbn. rewrite Hlen. reflexivity.
    + cbn. exact Hall.
Qed.

Lemma keys_getAllTemplates (w : World) :
  map i_key (getAllTemplates w)
  = match templatesJSON (mgr w) with
    | Some d => JSObject.keys (default [] (templates d))
    | None => []
    end.
Proof.
  unfold getAllTemplates, JSObject.keys.
  destruct (templatesJSON (mgr w)) as [d|]; [|reflexivity].
  destruct (templates d) as [ts|]; [|reflexivity].
  rewrite map_map. reflexivity.
Qed.

(** X11.  [setAllTemplatesEnabled] gives every template of the listing the
    flag, leaves the rest of each listing element alone, and stores the
    document once for each template, not once in all. *)
Theorem setAllTemplatesEnabled_listing (en : bool) (w : World) :
  document_sound w ->
  exists w' stored,
    setAllTemplatesEnabled en w = Ret tt w'
    /\ getAllTemplates w' = map (set_i_enabled (Some en)) (getAllTemplates w)
    /\ events w' = (events w ++ stored)%list
    /\ length stored = length (getAllTemplates w)
    /\ forallb is_Stored stored = true.
Proof.
  intros Hsound. unfold setAllTemplatesEnabled.
  assert (Hcase : document_usable w \/ getAllTemplates w = []).
  { unfold document_usable, getAllTemplates.
    destruct (templatesJSON (mgr w)) as [d|]; [|left; exact I].
    destruct (templates d); [left; discriminate|right; reflexivity]. }
  destruct Hcase as [Hdoc|Hempty].
  - destruct (toggleEach_listing (map i_key (getAllTemplates w)) en w Hdoc Hsound)
      as (w' & stored & Hrun & Hlist & Hev & Hlen & Hall).
    exists w', stored. split; [exact Hrun|]. split; [|split; [exact Hev|split; [|exact Hall]]].
    + rewrite Hlist. apply map_ext_in. intros i Hi.
      replace (existsb (String.eqb (i_key i)) (map i_key (getAllTemplates w))) with true;
        [reflexivity|].
      symmetry. apply existsb_exists. exists (i_key i).
      split; [apply in_map; exact Hi|apply String.eqb_refl].
    + rewrite Hlen, length_map. reflexivity.
  - exists w, []. rewrite Hempty. cbn [map toggleEach ret length forallb].
    rewrite app_nil_r. repeat split; reflexivity.
Qed.

Lemma setAllTemplatesEnabled_listing_witness :
  exists w' stored,
    setAllTemplatesEnabled false Demo.imported = Ret tt w'
    /\ getAllTemplates w' = map (set_i_enabled (Some false)) (getAllTemplates Demo.imported)
    /\ events w' = (events Demo.imported ++ stored)%list
    /\ length stored = 2%nat
    /\ forallb is_Stored stored = true.
Proof.
  apply (setAllTemplatesEnabled_listing false Demo.imported (proj2 Demo_imported_sound)).
Defined.

(** ** Persistence *)

(** X12.  Each of the five mutating methods, when it returns, has stored
    the document as its last act, and what it stored is the document as the
    call leaves it. *)
Theorem mutations_end_by_storing (P : Platform) (w w' : World) :
  (forall blob nm cs, createTemplate P blob nm cs w = Ret tt w' -> persisted w')
  /\ (forall key, deleteTemplate key w = Ret tt w' -> persisted w')
  /\ (forall key en, toggleTemplate key en w = Ret tt w' -> persisted w')
  /\ (forall key newName, updateTemplateName key newName w = Ret tt w' -> persisted w')
  /\ (forall key cs msg, updateTemplateCoordinates key cs w = Ret msg w' -> persisted w').
Proof.
  assert (Hedit : forall key onE onT,
             bind ensureJSON (updateBoth key onE onT) w = Ret tt w' -> persisted w').
  { intros key onE onT Hrun.
    assert (Hdoc : document_usable w).
    { unfold document_usable. unfold updateBoth in Hrun. revert Hrun. run_method.
      destruct (templatesJSON (mgr w)) as [d|]; [|auto].
      destruct (templates d); [discriminate|]. cbn. discriminate. }
    destruct (edit_world key onE onT w Hdoc) as (w2 & Hrun2 & _ & _ & _ & Hp & _).
    rewrite Hrun in Hrun2. injection Hrun2 as <-. exact Hp. }
  split; [|split; [|split; [|split]]].
  - intros blob nm cs Hrun.
    assert (Hdoc : document_usable w).
    { unfold document_usable. unfold createTemplate in Hrun. revert Hrun. run_method.
      destruct (templatesJSON (mgr w)) as [d|]; [|auto].
      destruct (templates d); [discriminate|]. cbn. discriminate. }
    destruct (createTemplateTiles P blob cs (tileSize (mgr w))) as [ch|e] eqn:Hch.
    + destruct (createTemplate_world P blob nm cs w ch Hdoc Hch) as (w2 & Hrun2 & _ & _ & _ & Hp).
      rewrite Hrun in Hrun2. injection Hrun2 as <-. exact Hp.
    + exfalso. unfold createTemplate in Hrun. revert Hrun. run_method.
      unfold document_usable in Hdoc.
      destruct (templatesJSON (mgr w)) as [d|]; cbn.
      * destruct (templates d); [|congruence]. cbn. rewrite Hch. discriminate.
      * rewrite Hch. discriminate.
  - intros key Hrun.
    assert (Hdoc : document_usable w).
    { unfold document_usable. unfold deleteTemplate in Hrun. revert Hrun. run_method.
      destruct (templatesJSON (mgr w)) as [d|]; [|auto].
      destruct (templates d); [discriminate|]. cbn. discriminate. }
    destruct (deleteTemplate_world key w Hdoc) as (w2 & Hrun2 & _ & _ & _ & Hp).
    rewrite Hrun in Hrun2. injection Hrun2 as <-. exact Hp.
  - intros key en Hrun. exact (Hedit _ _ _ Hrun).
  - intros key newName Hrun. exact (Hedit _ _ _ Hrun).
  - intros key cs msg Hrun.
    assert (Hshape : exists a b c d, cs = [JNum a; JNum b; JNum c; JNum d]).
    { unfold updateTemplateCoordinates in Hrun. revert Hrun. run_method.
      assert (Hens : exists d0 w0, (match templatesJSON (mgr w) with
                                   | Some d => Ret d w
                                   | None => Ret (createJSON (mgr w))
                                                 (with_mgr (set_templatesJSON
                                                              (Some (createJSON (mgr w)))) w)
                                   end) = Ret d0 w0).
      { destruct (templatesJSON (mgr w)); eexists; eexists; reflexivity. }
      destruct Hens as (d0 & w0 & ->).
      destruct cs as [|[a| | |] [|[b| | |] [|[c| | |] [|[d| | |] [|x cs]]]]];
        cbn; try discriminate.
      intros _. exists a, b, c, d. reflexivity. }
    destruct Hshape as (a & b & c & d & ->).
    rewrite updateTemplateCoordinates_as_edit in Hrun.
    destruct (bind ensureJSON _ w) as [[] w2|e w2] eqn:Hrun2; [|discriminate].
    injection Hrun as _ <-. exact (Hedit _ _ _ Hrun2).
Qed.

Lemma mutations_end_by_storing_witness :
  persisted (Demo.run (deleteTemplate "5 !") Demo.imported)
  /\ persisted (Demo.run (toggleTemplate "2 !" false) Demo.imported).
Proof.
  split.
  - apply (proj1 (proj2 (mutations_end_by_storing (Demo.platform CanvasReady) Demo.imported
                           (Demo.run (deleteTemplate "5 !") Demo.imported))) "5 !").
    reflexivity.
  - apply (proj1 (proj2 (proj2 (mutations_end_by_storing (Demo.platform CanvasReady)
                                  Demo.imported
                                  (Demo.run (toggleTemplate "2 !" false) Demo.imported))))
                 "2 !" false).
    reflexivity.
Defined.

(** ** What an import leaves alone *)

Lemma same_fields_refl (e : Entry) : same_fields e e.
Proof. repeat split. Qed.

Lemma same_fields_trans (e1 e2 e3 : Entry) :
  same_fields e1 e2 -> same_fields e2 e3 -> same_fields e1 e3.
Proof.
  unfold same_fields. intros (A1 & A2 & A3 & A4) (B1 & B2 & B3 & B4).
  repeat split; congruence.
Qed.

Lemma grows_refl (w : World) : grows w w.
Proof.
  unfold grows. split; [exists []; rewrite app_nil_r; reflexivity|].
  split; [exists []; rewrite app_nil_r; split; reflexivity|].
  split; [reflexivity|]. intros a. apply same_fields_refl.
Qed.

Lemma grows_trans (w1 w2 w3 : World) : grows w1 w2 -> grows w2 w3 -> grows w1 w3.
Proof.
  intros ((a1 & A) & (l1 & L & S1) & H1 & F1) ((a2 & B) & (l2 & L2 & S2) & H2 & F2).
  unfold grows. split; [|split; [|split]].
  - exists (a1 ++ a2)%list. rewrite B, A, app_assoc. reflexivity.
  - exists (l1 ++ l2)%list. split; [rewrite L2, L, app_assoc; reflexivity|].
    rewrite existsb_app, S1, S2. reflexivity.
  - congruence.
  - intros a. eapply same_fields_trans; [apply F1|apply F2].
Qed.

Lemma same_fields_write_back (h : list Entry) (a b : addr) (p : PixelCountField) :
  same_fields (deref h b) (deref (<[a := set_e_pixelCount p (deref h a)]> h) b).
Proof.
  destruct (Nat.eq_dec a b) as [->|Hne].
  - destruct (Nat.lt_ge_cases b (length h)) as [Hlt|Hge].
    + rewrite deref_insert by exact Hlt. repeat split.
    + rewrite list_insert_ge by exact Hge. apply same_fields_refl.
  - rewrite deref_insert_ne by exact Hne. apply same_fields_refl.
Qed.

Lemma grows_write_back (w : World) (a : addr) (p : PixelCountField) :
  grows w (with_heap (fun h => <[a := set_e_pixelCount p (deref h a)]> h) w).
Proof.
  unfold grows. cbn [mgr heap events with_heap].
  split; [exists []; rewrite app_nil_r; reflexivity|].
  split; [exists []; rewrite app_nil_r; split; reflexivity|].
  split; [apply length_insert|]. intros b. apply same_fields_write_back.
Qed.

Lemma grows_log (w : World) (e : Event) : is_Stored e = false -> grows w (emit e w).
Proof.
  intros He. unfold grows. cbn [mgr heap events emit].
  split; [exists []; rewrite app_nil_r; reflexivity|].
  split; [exists [e]; split; [reflexivity|cbn; rewrite He; reflexivity]|].
  split; [reflexivity|]. intros a. apply same_fields_refl.
Qed.

Lemma grows_push (w : World) (t : Template) :
  grows w (with_mgr (fun m => set_templatesArray (templatesArray m ++ [t])%list m) w).
Proof.
  unfold grows. cbn [mgr heap events with_mgr templatesArray set_templatesArray].
  split; [exists [t]; reflexivity|].
  split; [exists []; rewrite app_nil_r; split; reflexivity|].
  split; [reflexivity|]. intros a. apply same_fields_refl.
Qed.

Lemma resolvePixelCount_grows (P : Platform) (a : addr) (templateValue : Entry)
      (tiles : list (string * Image)) (w : World) :
  exists pc w',
    resolvePixelCount P a templateValue tiles w = Ret pc w'
    /\ grows w w' /\ templatesJSON (mgr w') = templatesJSON (mgr w).
Proof.
  assert (Hrecompute :
            exists pc w',
              match computePixelCountFromTiles P tiles with
              | Ok n =>
                  bind (modify (with_heap (fun h => <[a := set_e_pixelCount (PCNumber n) (deref h a)]> h)))
                       (fun _ => ret n)
              | Err e =>
                  bind (modify (emit (Warned ("[BlueMarble] Failed to compute precise pixel count; falling back to heuristic: " ++ e))))
                       (fun _ =>
                          let n := heuristicPixelCount tiles in
                          bind (modify (with_heap (fun h => <[a := set_e_pixelCount (PCNumber n) (deref h a)]> h)))
                               (fun _ => ret n))
              end w = Ret pc w'
              /\ grows w w' /\ templatesJSON (mgr w') = templatesJSON (mgr w)).
  { unfold bind, modify, ret.
    destruct (computePixelCountFromTiles P tiles) as [c|e]; eexists; eexists;
      (split; [reflexivity|]); (split; [|reflexivity]).
    - apply grows_write_back.
    - eapply grows_trans; [|apply grows_write_back]. apply grows_log. reflexivity. }
  destruct Hrecompute as (pc & w' & Hrun & Hg & Hj).
  unfold resolvePixelCount.
  destruct (e_pixelCount templateValue) as [|n|].
  - exists pc, w'. split; [exact Hrun|]. split; assumption.
  - destruct (0 <=? n).
    + exists n, w. split; [reflexivity|]. split; [apply grows_refl|reflexivity].
    + exists pc, w'. split; [exact Hrun|]. split; assumption.
  - exists pc, w'. split; [exact Hrun|]. split; assumption.
Qed.

Lemma parseTemplate_grows (P : Platform) (templateKey : string) (a : addr) (w : World) :
  grows w (world_of (parseTemplate P templateKey a w))
  /\ templatesJSON (mgr (world_of (parseTemplate P templateKey a w))) = templatesJSON (mgr w).
Proof.
  unfold parseTemplate, bind, gets, modify, throw.
  destruct (decodeTiles P (e_tiles (deref (heap w) a)) []) as [tiles|e];
    [|split; [apply grows_refl|reflexivity]].
  destruct (resolvePixelCount_grows P a (deref (heap w) a) tiles w)
    as (pc & w' & -> & Hg & Hj).
  cbn [world_of]. split; [|exact Hj].
  eapply grows_trans; [exact Hg|apply grows_push].
Qed.

Lemma parseTemplates_grows (P : Platform) (ts : list (string * addr)) (w : World) :
  grows w (world_of (parseTemplates P ts w))
  /\ templatesJSON (mgr (world_of (parseTemplates P ts w))) = templatesJSON (mgr w).
Proof.
  revert w. induction ts as [|[k a] rest IH]; intros w;
    [split; [apply grows_refl|reflexivity]|].
  cbn [parseTemplates]. unfold bind.
  pose proof (parseTemplate_grows P k a w) as [Hg Hj].
  destruct (parseTemplate P k a w) as [[] w1|e w1]; cbn [world_of] in *.
  - destruct (IH w1) as [Hg' Hj']. split; [|congruence].
    eapply grows_trans; eassumption.
  - split; assumption.
Qed.

Lemma grows_set_document (w : World) (d : option Doc) :
  grows w (with_mgr (set_templatesJSON d) w).
Proof.
  unfold grows. cbn [mgr heap events with_mgr templatesArray set_templatesJSON].
  split; [exists []; rewrite app_nil_r; reflexivity|].
  split; [exists []; rewrite app_nil_r; split; reflexivity|].
  split; [reflexivity|]. intros a. apply same_fields_refl.
Qed.

Lemma grows_catch_parse (P : Platform) (json : Doc) (w : World) :
  let w' := world_of (catch (parseBlueMarble P json)
                        (fun e => modify (emit (Errored ("[BlueMarble] Failed to parse templates: " ++ e)))) w) in
  grows w w' /\ templatesJSON (mgr w') = templatesJSON (mgr w).
Proof.
  unfold catch, parseBlueMarble, modify, throw.
  destruct (templates json) as [ts|].
  - pose proof (parseTemplates_grows P ts w) as [Hg Hj].
    destruct (parseTemplates P ts w) as [[] w1|e w1]; cbn [world_of] in *.
    + split; assumption.
    + split; [|exact Hj]. eapply grows_trans; [exact Hg|apply grows_log; reflexivity].
  - cbn [world_of]. split; [apply grows_log; reflexivity|reflexivity].
Qed.

(** X13.  [importJSON] only adds.  Whatever the document, the templates the
    manager held stay at the head of the array, every key of the manager
    document keeps its entry, no entry changes in more than its pixel
    count, and nothing is written to storage. *)
Theorem importJSON_only_adds (P : Platform) (json : Doc) (w : World) :
  let w' := world_of (importJSON P json w) in
  grows w w'
  /\ (forall key a, JSObject.get key (storedTemplates w) = Some a ->
                    JSObject.get key (storedTemplates w') = Some a).
Proof.
  unfold importJSON, bind, gets. cbv zeta.
  destruct (whoami_accepted (mgr w) (injectWhoami (mgr w) json));
    [|cbn [modify world_of]; split; [apply grows_log; reflexivity|auto]].
  set (j := injectWhoami (mgr w) json).
  assert (Hfirst : forall w1 : World,
             grows w w1 ->
             (forall key a, JSObject.get key (storedTemplates w) = Some a ->
                            JSObject.get key (storedTemplates w1) = Some a) ->
             let w' := world_of (catch (parseBlueMarble P j)
                                   (fun e => modify (emit (Errored ("[BlueMarble] Failed to parse templates: " ++ e)))) w1) in
             grows w w'
             /\ (forall key a, JSObject.get key (storedTemplates w) = Some a ->
                               JSObject.get key (storedTemplates w') = Some a)).
  { intros w1 Hg Hkeys. destruct (grows_catch_parse P j w1) as [Hg' Hj'].
    cbv zeta. split; [eapply grows_trans; eassumption|].
    intros key a Hget. unfold storedTemplates. rewrite Hj'. apply Hkeys. exact Hget. }
  destruct (templatesJSON (mgr w)) as [current|] eqn:Hcur.
  - destruct (templates j) as [incoming|].
    + destruct (templates current) as [cur|] eqn:Hts.
      * apply Hfirst; [apply grows_set_document|].
        intros key a Hget. unfold storedTemplates in *.
        cbn [mgr with_mgr templatesJSON set_templatesJSON set_templates templates default
                 from_option id].
        rewrite Hcur, Hts in Hget. cbn [default from_option id] in Hget.
        apply mergeTemplates_keeps_present. exact Hget.
      * destruct incoming as [|x incoming].
        -- apply Hfirst; [apply grows_refl|auto].
        -- cbn [throw world_of]. split; [apply grows_refl|auto].
    + apply Hfirst; [apply grows_refl|auto].
  - apply Hfirst; [apply grows_set_document|].
    intros key a Hget. unfold storedTemplates in Hget. rewrite Hcur in Hget. discriminate.
Qed.

(** ** Templates built by an import *)

Lemma split_go_nonempty (c : ascii) (s cur : string) :
  exists x r, JSString.split_go c s cur = x :: r.
Proof.
  revert cur. induction s as [|a s IH]; intros cur; cbn [JSString.split_go].
  - eexists. eexists. reflexivity.
  - destruct (Ascii.eqb a c); [eexists; eexists; reflexivity|apply IH].
Qed.

(** X14.  A template imported under a key whose sortID part is 0, into a
    manager that already holds templates, gets the number of those
    templates as its sortID; the key it came under then no longer addresses
    it, so [deleteTemplate], [toggleTemplate] and the two updates called
    with that key pass it by. *)
Theorem import_under_sortID_zero (P : Platform) (aid : string) (a : addr) (w : World)
        (tiles : list (string * Image)) :
  (a < length (heap w))%nat ->
  decodeTiles P (e_tiles (deref (heap w) a)) [] = Ok tiles ->
  templatesArray (mgr w) <> [] ->
  exists t w',
    parseTemplate P ("0 " ++ aid) a w = Ret tt w'
    /\ templatesArray (mgr w') = (templatesArray (mgr w) ++ [t])%list
    /\ sortID t = Z.of_nat (length (templatesArray (mgr w)))
    /\ key_matches ("0 " ++ aid) t = false.
Proof.
  intros Ha Hdec Hne.
  destruct (resolvePixelCount_spec P a (deref (heap w) a) tiles w Ha)
    as (pc & w1 & Hres & Hm & _ & _).
  assert (Hsplit : JSString.split " " ("0 " ++ aid) = "0" :: JSString.split " " aid).
  { change ("0 " ++ aid) with ("0" ++ String " " aid).
    apply split_first. cbn. split; [discriminate|exact I]. }
  unfold parseTemplate, bind, gets, modify. rewrite Hdec, Hres, Hsplit.
  eexists. eexists. split; [reflexivity|].
  cbn [mgr with_mgr templatesArray set_templatesArray sortID]. rewrite Hm.
  split; [reflexivity|].
  assert (Hsid : or_number (JSString.Number_opt (("0" :: JSString.split " " aid) !! 0%nat))
                           (Z.of_nat (length (templatesArray (mgr w))))
                 = Z.of_nat (length (templatesArray (mgr w)))) by reflexivity.
  split; [exact Hsid|].
  unfold key_matches. rewrite Hsplit. cbn [sortID]. rewrite Hsid.
  change (JSString.Number_opt (("0" :: JSString.split " " aid) !! 0%nat)) with (Some 0).
  destruct (split_go_nonempty " " aid "") as (x & r & Hx).
  unfold JSString.split. rewrite Hx.
  change (("0" :: x :: r) !! 1%nat) with (Some x).
  replace (Z.of_nat (length (templatesArray (mgr w))) =? 0) with false; [reflexivity|].
  symmetry. apply Z.eqb_neq. destruct (templatesArray (mgr w)); [congruence|cbn; lia].
Qed.

Lemma import_under_sortID_zero_witness :
  let P := Demo.platform CanvasReady in
  let w := mkWorld (mgr Demo.imported) [Demo.entry_uncounted] [] in
  exists t w',
    parseTemplate P "0 !" 0%nat w = Ret tt w'
    /\ templatesArray (mgr w') = (templatesArray (mgr w) ++ [t])%list
    /\ sortID t = 2
    /\ key_matches "0 !" t = false.
Proof.
  intros P w.
  apply (import_under_sortID_zero P "!" 0%nat w [("0000,0000,0,0", Demo.two_cells)]).
  - cbn. lia.
  - reflexivity.
  - discriminate.
Defined.

Lemma fold_Err_stays {A} (f : Result Z -> A -> Result Z) (l : list A) (e : string) :
  (forall x e', f (Err e') x = Err e') -> exists e', fold_left f l (Err e) = Err e'.
Proof.
  intros Hf. revert e. induction l as [|x l IH]; intros e; [exists e; reflexivity|].
  cbn [fold_left]. rewrite Hf. apply IH.
Qed.

Lemma computePixelCount_nonnegative (P : Platform) (tiles : list (string * Image)) (c : Z) :
  computePixelCountFromTiles P tiles = Ok c -> 0 <= c.
Proof.
  unfold computePixelCountFromTiles.
  destruct (canvas_support P) eqn:Hs.
  - intros H.
    assert (Hc : Ok c = Ok (0 + PixelCountSpec.logicalPixelCount tiles))
      by (rewrite <- H; apply (computePixelCount_loop (mix P) tiles 0)).
    injection Hc as ->. unfold PixelCountSpec.logicalPixelCount. lia.
  - destruct tiles as [|kv tiles]; [intros H; injection H as <-; lia|].
    cbn [fold_left].
    destruct (fold_Err_stays
                (fun (acc : Result Z) (kv : string * Image) =>
                   match acc with
                   | Ok _ => Err "TypeError: ctx is null"
                   | Err e => Err e
                   end) tiles "TypeError: ctx is null" (fun _ _ => eq_refl)) as (e' & ->).
    discriminate.
Qed.

(** X15.  After a template of an imported document is parsed, the entry
    and the Template agree on the pixel count, and the count is not
    negative, whichever way it was resolved. *)
Theorem parseTemplate_counts_agree (P : Platform) (templateKey : string) (a : addr)
        (w : World) (tiles : list (string * Image)) :
  (a < length (heap w))%nat ->
  decodeTiles P (e_tiles (deref (heap w) a)) [] = Ok tiles ->
  exists t w',
    parseTemplate P templateKey a w = Ret tt w'
    /\ templatesArray (mgr w') = (templatesArray (mgr w) ++ [t])%list
    /\ e_pixelCount (deref (heap w') a) = PCNumber (pixelCount t)
    /\ 0 <= pixelCount t.
Proof.
  intros Ha Hdec.
  destruct (resolvePixelCount_spec P a (deref (heap w) a) tiles w Ha)
    as (pc & w1 & Hres & Hm & Htrust & Hrecompute).
  unfold parseTemplate, bind, gets, modify. rewrite Hdec, Hres.
  eexists. eexists. split; [reflexivity|].
  cbn [mgr with_mgr templatesArray set_templatesArray heap pixelCount]. rewrite Hm.
  split; [reflexivity|].
  destruct (e_pixelCount (deref (heap w) a)) as [|n|] eqn:Hpc.
  - destruct Hrecompute as (Hwb & Hok & Herr); [intros n H; discriminate|].
    split; [exact Hwb|].
    destruct (computePixelCountFromTiles P tiles) as [c|e] eqn:Hc.
    + rewrite (Hok c eq_refl). apply (computePixelCount_nonnegative P tiles c Hc).
    + rewrite (Herr e eq_refl). cbn [pixelCount]. lia.
  - destruct (Z.le_gt_cases 0 n) as [Hn|Hn].
    + destruct (Htrust n eq_refl Hn) as [-> ->]. split; [exact Hpc|exact Hn].
    + destruct Hrecompute as (Hwb & Hok & Herr);
        [intros n' H; injection H as <-; lia|].
      split; [exact Hwb|].
      destruct (computePixelCountFromTiles P tiles) as [c|e] eqn:Hc.
      * rewrite (Hok c eq_refl). apply (computePixelCount_nonnegative P tiles c Hc).
      * rewrite (Herr e eq_refl). cbn [pixelCount]. lia.
  - destruct Hrecompute as (Hwb & Hok & Herr); [intros n H; discriminate|].
    split; [exact Hwb|].
    destruct (computePixelCountFromTiles P tiles) as [c|e] eqn:Hc.
    + rewrite (Hok c eq_refl). apply (computePixelCount_nonnegative P tiles c Hc).
    + rewrite (Herr e eq_refl). cbn [pixelCount]. lia.
Qed.

Lemma parseTemplate_counts_agree_witness :
  let P := Demo.platform CanvasReady in
  exists t w',
    parseTemplate P "3 !" 0%nat Demo.uncounted_parsed = Ret tt w'
    /\ templatesArray (mgr w') = (templatesArray (mgr Demo.uncounted_parsed) ++ [t])%list
    /\ e_pixelCount (deref (heap w') 0%nat) = PCNumber (pixelCount t)
    /\ 0 <= pixelCount t.
Proof.
  intros P.
  apply (parseTemplate_counts_agree P "3 !" 0%nat Demo.uncounted_parsed
           [("0000,0000,0,0", Demo.two_cells)]).
  - cbn. lia.
  - reflexivity.
Defined.

(** ** The identity of a document *)

Lemma remove_whitespace_remove_first_space (s : string) :
  JSString.remove_whitespace (JSString.remove_first_space s) = JSString.remove_whitespace s.
Proof.
  induction s as [|a s IH]; [reflexivity|].
  cbn [JSString.remove_first_space].
  destruct (Ascii.eqb_spec a " ") as [->|Hne]; [reflexivity|].
  cbn [JSString.remove_whitespace]. rewrite IH. reflexivity.
Qed.

(** X16.  A document the manager creates is one its own [importJSON]
    accepts, provided the script name holds no white space beyond one
    space: [createJSON] drops the first space only, [importJSON] compares
    with the name freed of all white space. *)
Theorem own_document_accepted (m : TemplateManager) :
  whitespace_free (JSString.remove_first_space (name m)) ->
  whoami_accepted m (createJSON m) = true.
Proof.
  unfold whitespace_free. intros Hfree.
  unfold whoami_accepted, createJSON, acceptedWhoami. cbn [whoami].
  apply existsb_eqb_In.
  rewrite <- remove_whitespace_remove_first_space, Hfree. cbn [In]. tauto.
Qed.

Lemma own_document_accepted_witness :
  whitespace_free (JSString.remove_first_space (name (constructor "Blue Peanits" "0.81.1")))
  /\ whoami_accepted (constructor "Blue Peanits" "0.81.1")
                     (createJSON (constructor "Blue Peanits" "0.81.1")) = true.
Proof.
  assert (H : whitespace_free
                (JSString.remove_first_space (name (constructor "Blue Peanits" "0.81.1"))))
    by reflexivity.
  split; [exact H|]. apply (own_document_accepted _ H).
Defined.

(** With a second space in the name the manager turns its own document
    away. *)
Lemma own_document_rejected_with_two_spaces :
  whoami (createJSON (constructor "Blue Peanits Plus" "0.81.1")) = Some "BluePeanits Plus"
  /\ whoami_accepted (constructor "Blue Peanits Plus" "0.81.1")
                     (createJSON (constructor "Blue Peanits Plus" "0.81.1")) = false.
Proof. split; reflexivity. Qed.

(** ** The edit dialogs *)

Lemma checkCoordinates_Ok (c0 c1 c2 c3 : JSNum) :
  Dialog.checkCoordinates [c0; c1; c2; c3] = Ok tt ->
  exists x y i j,
    c0 = JNum x /\ c1 = JNum y /\ c2 = JNum i /\ c3 = JNum j
    /\ 0 <= x <= 2047 /\ 0 <= y <= 2047 /\ 0 <= i <= 999 /\ 0 <= j <= 999.
Proof.
  unfold Dialog.checkCoordinates.
  destruct (existsb _ _) eqn:Hneg; [discriminate|].
  cbn [existsb] in Hneg.
  repeat (apply orb_false_elim in Hneg; destruct Hneg as [? Hneg]).
  change (Dialog.nth_coord 0 [c0; c1; c2; c3]) with c0.
  change (Dialog.nth_coord 1 [c0; c1; c2; c3]) with c1.
  change (Dialog.nth_coord 2 [c0; c1; c2; c3]) with c2.
  change (Dialog.nth_coord 3 [c0; c1; c2; c3]) with c3.
  destruct (Dialog.JSNum_gt c0 2047) eqn:G0; [discriminate|].
  destruct (Dialog.JSNum_gt c1 2047) eqn:G1; [discriminate|].
  destruct (Dialog.JSNum_gt c2 999) eqn:G2; [discriminate|].
  destruct (Dialog.JSNum_gt c3 999) eqn:G3; [discriminate|].
  intros _.
  destruct c0 as [x| | |]; try discriminate.
  destruct c1 as [y| | |]; try discriminate.
  destruct c2 as [i| | |]; try discriminate.
  destruct c3 as [j| | |]; try discriminate.
  cbn in *. exists x, y, i, j. repeat split; lia.
Qed.

Lemma catch_throw {A} (e : string) (handler : string -> M A) (w : World) :
  catch (throw e) handler w = handler e w.
Proof. reflexivity. Qed.

(** X17.  The save button of the coordinate editor passes nothing on to
    the manager unless each of the four inputs reads as an integer in its
    range, 0 to 2047 for a tile and 0 to 999 for a pixel: otherwise all
    that happens is the error report. *)
Theorem saveCoordinates_guard (templateKey tileX tileY pixelX pixelY : string) (w : World) :
  ~ (reads_within tileX 2047 /\ reads_within tileY 2047
     /\ reads_within pixelX 999 /\ reads_within pixelY 999) ->
  exists message,
    Dialog.saveCoordinates templateKey tileX tileY pixelX pixelY w
    = Ret tt (emit (Errored message) w).
Proof.
  intros Hout. unfold Dialog.saveCoordinates.
  destruct (Dialog.checkCoordinates _) as [[]|e] eqn:Hcheck.
  - exfalso. apply Hout.
    destruct (checkCoordinates_Ok _ _ _ _ Hcheck)
      as (x & y & i & j & Hx & Hy & Hi & Hj & Rx & Ry & Ri & Rj).
    unfold reads_within. repeat split; eauto.
  - rewrite catch_throw. eexists. reflexivity.
Qed.

Lemma saveCoordinates_guard_witness :
  exists message,
    Dialog.saveCoordinates "5 !" "2048" "0" "0" "0" Demo.imported
    = Ret tt (emit (Errored message) Demo.imported).
Proof.
  apply (saveCoordinates_guard "5 !" "2048" "0" "0" "0" Demo.imported).
  intros ((z & Hz & Hr) & _). vm_compute in Hz. injection Hz as <-. lia.
Defined.

(** X18.  The save button of the name editor passes nothing on to the
    manager when the input, trimmed, is empty or longer than 100
    characters: all that happens is the error report. *)
Theorem saveName_guard (templateKey input : string) (w : World) :
  Dialog.trim input = "" \/ (100 < String.length (Dialog.trim input))%nat ->
  exists message,
    Dialog.saveName templateKey input w = Ret tt (emit (Errored message) w).
Proof.
  intros Hbad. unfold Dialog.saveName.
  destruct (Dialog.trim input) as [|a r] eqn:Htrim.
  - rewrite catch_throw. eexists. reflexivity.
  - destruct Hbad as [Hbad|Hbad]; [discriminate|].
    apply Nat.ltb_lt in Hbad. rewrite Hbad, catch_throw. eexists. reflexivity.
Qed.

Lemma saveName_guard_witness :
  exists message,
    Dialog.saveName "5 !" "   " Demo.imported = Ret tt (emit (Errored message) Demo.imported).
Proof.
  apply (saveName_guard "5 !" "   " Demo.imported). left. reflexivity.
Defined.

(** ** Reading the coordinates back *)

Lemma space_not_digit (c : ascii) :
  JSString.is_space c = true -> JSString.digit_of c = None /\ c <> "-"%char /\ c <> ","%char.
Proof.
  destruct c as [[] [] [] [] [] [] [] []]; intros H; try discriminate H;
    (split; [reflexivity|split; discriminate]).
Qed.

Lemma trimStart_id (s : string) :
  (forall c, JSString.is_space c = true -> lacks c s) -> Dialog.trimStart s = s.
Proof.
  intros H. destruct s as [|a r]; [reflexivity|]. cbn [Dialog.trimStart].
  destruct (JSString.is_space a) eqn:Ha; [|reflexivity].
  destruct (H a Ha) as [Hne _]. congruence.
Qed.

Lemma trimEnd_id (s : string) :
  (forall c, JSString.is_space c = true -> lacks c s) -> Dialog.trimEnd s = s.
Proof.
  induction s as [|a r IH]; intros H; [reflexivity|]. cbn [Dialog.trimEnd].
  rewrite IH by (intros c Hc; apply (H c Hc)).
  destruct r; [|reflexivity].
  destruct (JSString.is_space a) eqn:Ha; [|reflexivity].
  destruct (H a Ha) as [Hne _]. congruence.
Qed.

Lemma lacks_space_pretty (z : Z) (c : ascii) :
  JSString.is_space c = true -> lacks c (pretty z).
Proof.
  intros Hc. destruct (space_not_digit c Hc) as (Hd & Hm & _).
  apply lacks_pretty; assumption.
Qed.

Lemma trim_pretty (z : Z) : Dialog.trim (pretty z) = pretty z.
Proof.
  unfold Dialog.trim.
  rewrite trimStart_id by (intros c Hc; apply lacks_space_pretty; exact Hc).
  apply trimEnd_id. intros c Hc. apply lacks_space_pretty. exact Hc.
Qed.

Lemma trim_space_pretty (z : Z) : Dialog.trim (String " " (pretty z)) = pretty z.
Proof. apply trim_pretty. Qed.

Lemma lacks_comma_pretty (z : Z) : lacks "," (pretty z).
Proof. apply lacks_pretty; [reflexivity|discriminate]. Qed.

Lemma currentCoords_coords_string (a b c d : Z) :
  Dialog.currentCoords (coords_string [JNum a; JNum b; JNum c; JNum d])
  = map (fun z => Dialog.parseInt (pretty z)) [a; b; c; d].
Proof.
  unfold Dialog.currentCoords, coords_string.
  cbn [map JSNum_toString JSString.join].
  change (pretty a ++ ", " ++ pretty b ++ ", " ++ pretty c ++ ", " ++ pretty d)
    with (pretty a ++ String "," (String " " (pretty b)
                     ++ String "," (String " " (pretty c)
                     ++ String "," (String " " (pretty d))))).
  rewrite split_first by apply lacks_comma_pretty.
  rewrite split_first by (split; [discriminate|apply lacks_comma_pretty]).
  rewrite split_first by (split; [discriminate|apply lacks_comma_pretty]).
  rewrite split_lacks by (split; [discriminate|apply lacks_comma_pretty]).
  cbn [map]. rewrite trim_pretty, !trim_space_pretty. reflexivity.
Qed.

Lemma leading_digits_all (s : string) (acc v : Z) :
  JSString.digits_go s acc = Some v ->
  Dialog.leading_digits JSString.digit_of 10 s (Some acc) = Some v.
Proof.
  revert acc. induction s as [|a r IH]; intros acc H; [exact H|].
  cbn [JSString.digits_go] in H. cbn [Dialog.leading_digits].
  destruct (JSString.digit_of a) as [d|]; [|discriminate]. apply IH. exact H.
Qed.

Lemma leading_digits_start (a : ascii) (r : string) (v : Z) :
  JSString.digits_go (String a r) 0 = Some v ->
  Dialog.leading_digits JSString.digit_of 10 (String a r) None = Some v.
Proof.
  intros H. cbn [JSString.digits_go] in H. cbn [Dialog.leading_digits].
  destruct (JSString.digit_of a) as [d|]; [|discriminate].
  apply leading_digits_all. exact H.
Qed.

Lemma parseInt_digits (s : string) (v : Z) :
  s <> "" -> JSString.digits_go s 0 = Some v -> Dialog.parseInt s = JNum v.
Proof.
  intros Hne H. destruct s as [|a r]; [congruence|].
  pose proof (leading_digits_start a r v H) as Hl.
  destruct (JSString.digit_of a) as [d|] eqn:Hd;
    [|cbn [JSString.digits_go] in H; rewrite Hd in H; discriminate].
  destruct r as [|b r'].
  - destruct a as [[] [] [] [] [] [] [] []]; try discriminate Hd;
      by_leading_digits Hl.
  - assert (Hb : exists e, JSString.digit_of b = Some e).
    { cbn [JSString.digits_go] in H. rewrite Hd in H.
      destruct (JSString.digit_of b) as [e|]; [exists e; reflexivity|discriminate]. }
    destruct Hb as (e & Hb).
    destruct a as [[] [] [] [] [] [] [] []]; try discriminate Hd;
      try (by_leading_digits Hl).
    destruct b as [[] [] [] [] [] [] [] []]; try discriminate Hb;
      by_leading_digits Hl.
Qed.

Lemma parseInt_pretty (z : Z) : 0 <= z -> Dialog.parseInt (pretty z) = JNum z.
Proof.
  intros Hz. destruct z as [|p|p]; [reflexivity| |lia].
  apply parseInt_digits; [apply (pretty_N_nonempty (N.pos p))|].
  apply (digits_go_pretty_N (N.pos p)).
Qed.

Lemma checkCoordinates_NaN (cs : list JSNum) :
  In JNaN cs ->
  Dialog.checkCoordinates cs = Err "All coordinates must be non-negative numbers".
Proof.
  intros Hin. unfold Dialog.checkCoordinates.
  replace (existsb (fun c => JSNum_isNaN c || Dialog.JSNum_lt c 0) cs) with true;
    [reflexivity|].
  symmetry. apply existsb_exists. exists JNaN. split; [exact Hin|reflexivity].
Qed.

(** X19.  Opening the coordinate editor on a template one of whose
    coordinates is 0 and saving without typing anything is turned away: the
    edit button leaves the input of a 0 empty, and the save button reads an
    empty input as no number. *)
Theorem edit_then_save_rejects_zero (templateKey : string) (a b c d : Z) (w : World) :
  a = 0 \/ b = 0 \/ c = 0 \/ d = 0 ->
  Dialog.editThenSave templateKey (coords_string [JNum a; JNum b; JNum c; JNum d]) w
  = Ret tt (emit (Errored "Failed to update coordinates: All coordinates must be non-negative numbers") w).
Proof.
  intros Hzero. unfold Dialog.editThenSave, Dialog.saveCoordinates.
  rewrite currentCoords_coords_string. cbn [map].
  rewrite checkCoordinates_NaN; [reflexivity|].
  destruct Hzero as [-> | [-> | [-> | ->]]].
  - left. reflexivity.
  - right. left. reflexivity.
  - right. right. left. reflexivity.
  - right. right. right. left. reflexivity.
Qed.

Lemma edit_then_save_rejects_zero_witness :
  Dialog.editThenSave "5 !" "0, 34, 5, 6" Demo.imported
  = Ret tt (emit (Errored "Failed to update coordinates: All coordinates must be non-negative numbers")
                 Demo.imported).
Proof.
  apply (edit_then_save_rejects_zero "5 !" 0 34 5 6 Demo.imported). left. reflexivity.
Defined.

Lemma relist_same (templateKey : string) (change : TemplateInfo -> TemplateInfo)
      (l : list TemplateInfo) :
  (forall i, In i l -> i_key i = templateKey -> change i = i) ->
  relist templateKey change l = l.
Proof.
  intros H. unfold relist. rewrite <- (map_id l) at 2. apply map_ext_in.
  intros i Hi. destruct (String.eqb_spec (i_key i) templateKey) as [Hk|_]; [|reflexivity].
  apply H; assumption.
Qed.

Lemma populate_parsed (z : Z) :
  1 <= z -> Dialog.parseInt (Dialog.populate (Some (Dialog.parseInt (pretty z)))) = JNum z.
Proof.
  intros Hz. rewrite parseInt_pretty by lia. cbn [Dialog.populate].
  replace (z =? 0) with false by (symmetry; apply Z.eqb_neq; lia).
  apply parseInt_pretty. lia.
Qed.

Lemma checkCoordinates_in_range (a b c d : Z) :
  0 <= a <= 2047 -> 0 <= b <= 2047 -> 0 <= c <= 999 -> 0 <= d <= 999 ->
  Dialog.checkCoordinates [JNum a; JNum b; JNum c; JNum d] = Ok tt.
Proof.
  intros Ha Hb Hc Hd. unfold Dialog.checkCoordinates.
  cbn [existsb JSNum_isNaN Dialog.JSNum_lt orb].
  change (Dialog.nth_coord 0 [JNum a; JNum b; JNum c; JNum d]) with (JNum a).
  change (Dialog.nth_coord 1 [JNum a; JNum b; JNum c; JNum d]) with (JNum b).
  change (Dialog.nth_coord 2 [JNum a; JNum b; JNum c; JNum d]) with (JNum c).
  change (Dialog.nth_coord 3 [JNum a; JNum b; JNum c; JNum d]) with (JNum d).
  cbn [Dialog.JSNum_gt].
  replace (a <? 0) with false by (symmetry; apply Z.ltb_ge; lia).
  replace (b <? 0) with false by (symmetry; apply Z.ltb_ge; lia).
  replace (c <? 0) with false by (symmetry; apply Z.ltb_ge; lia).
  replace (d <? 0) with false by (symmetry; apply Z.ltb_ge; lia).
  replace (2047 <? a) with false by (symmetry; apply Z.ltb_ge; lia).
  replace (2047 <? b) with false by (symmetry; apply Z.ltb_ge; lia).
  replace (999 <? c) with false by (symmetry; apply Z.ltb_ge; lia).
  replace (999 <? d) with false by (symmetry; apply Z.ltb_ge; lia).
  reflexivity.
Qed.

(** X20.  With four coordinates from 1 up to the limits the same two
    buttons are a round trip: the inputs read back the coordinates shown,
    the manager stores them again, and the listing is as it was. *)
Theorem edit_then_save_round_trip (templateKey : string) (a b c d : Z) (w : World) :
  let shown := coords_string [JNum a; JNum b; JNum c; JNum d] in
  1 <= a <= 2047 -> 1 <= b <= 2047 -> 1 <= c <= 999 -> 1 <= d <= 999 ->
  document_usable w -> document_sound w ->
  (forall i, In i (getAllTemplates w) -> i_key i = templateKey -> i_coords i = Some shown) ->
  exists w',
    Dialog.editThenSave templateKey shown w = Ret tt w'
    /\ getAllTemplates w' = getAllTemplates w
    /\ persisted (mkWorld (mgr w') (heap w') (removelast (events w')))
    /\ last (events w') (Status "") = Status ("Template coordinates updated to: " ++ shown).
Proof.
  intros shown Ha Hb Hc Hd Hdoc Hsound Hshown.
  destruct (edit_listing templateKey (set_e_coords (Some shown))
              (set_coords (Some [JNum a; JNum b; JNum c; JNum d]))
              (set_i_coords (Some shown)) w)
    as (w1 & Hrun & Hlist & _ & _); try reflexivity; try assumption.
  destruct (edit_world templateKey (set_e_coords (Some shown))
              (set_coords (Some [JNum a; JNum b; JNum c; JNum d])) w Hdoc)
    as (w2 & Hrun2 & _ & _ & _ & Hp & _).
  rewrite Hrun in Hrun2. injection Hrun2 as <-.
  exists (emit (Status ("Template coordinates updated to: " ++ shown)) w1).
  split; [|split; [|split]].
  - unfold Dialog.editThenSave, Dialog.saveCoordinates.
    unfold shown. rewrite currentCoords_coords_string. fold shown.
    cbn [map].
    change ([Dialog.parseInt (pretty a); Dialog.parseInt (pretty b);
             Dialog.parseInt (pretty c); Dialog.parseInt (pretty d)] !! 0%nat)
      with (Some (Dialog.parseInt (pretty a))).
    change ([Dialog.parseInt (pretty a); Dialog.parseInt (pretty b);
             Dialog.parseInt (pretty c); Dialog.parseInt (pretty d)] !! 1%nat)
      with (Some (Dialog.parseInt (pretty b))).
    change ([Dialog.parseInt (pretty a); Dialog.parseInt (pretty b);
             Dialog.parseInt (pretty c); Dialog.parseInt (pretty d)] !! 2%nat)
      with (Some (Dialog.parseInt (pretty c))).
    change ([Dialog.parseInt (pretty a); Dialog.parseInt (pretty b);
             Dialog.parseInt (pretty c); Dialog.parseInt (pretty d)] !! 3%nat)
      with (Some (Dialog.parseInt (pretty d))).
    rewrite !populate_parsed by lia.
    rewrite checkCoordinates_in_range by lia.
    unfold catch, bind.
    rewrite (updateTemplateCoordinates_as_edit templateKey a b c d w).
    fold shown. rewrite Hrun. reflexivity.
  - change (getAllTemplates (emit (Status ("Template coordinates updated to: " ++ shown)) w1))
      with (getAllTemplates w1).
    rewrite Hlist. apply relist_same. intros i Hi Hk.
    pose proof (Hshown _ Hi Hk) as Hco. destruct i as [k n co en pc].
    cbn [i_coords] in Hco. rewrite Hco. reflexivity.
  - cbn [emit events mgr heap]. rewrite removelast_last.
    destruct w1 as [m1 h1 ev1]. exact Hp.
  - cbn [emit events]. apply last_last.
Qed.

Lemma edit_then_save_round_trip_witness :
  let w := world_of (updateTemplateCoordinates "5 !" [JNum 12; JNum 34; JNum 5; JNum 6]
                                            Demo.imported) in
  exists w',
    Dialog.editThenSave "5 !" "12, 34, 5, 6" w = Ret tt w'
    /\ getAllTemplates w' = getAllTemplates w
    /\ persisted (mkWorld (mgr w') (heap w') (removelast (events w')))
    /\ last (events w') (Status "") = Status "Template coordinates updated to: 12, 34, 5, 6".
Proof.
  intros w.
  apply (edit_then_save_round_trip "5 !" 12 34 5 6 w); try lia.
  - cbn. discriminate.
  - unfold document_sound. cbn. split; [|split].
    + repeat constructor; rewrite ?list_elem_of_In; cbn; intuition discriminate.
    + repeat constructor; rewrite ?list_elem_of_In; cbn; intuition discriminate.
    + repeat constructor; cbn; lia.
  - intros i Hi Hk. cbn in Hi. destruct Hi as [<-|[<-|[]]]; [reflexivity|discriminate Hk].
Defined.

(** ** From one session to the next *)

Lemma lastStored_last (evs : list Event) (d : option Snapshot) :
  lastStored (evs ++ [Stored d]) = d.
Proof. unfold lastStored. rewrite fold_left_app. reflexivity. Qed.

Lemma storageTemplates_same (s : Snapshot) :
  Startup.storageTemplates (Some s) (Some s) = s.
Proof.
  unfold Startup.storageTemplates. cbn [default from_option id].
  destruct (Startup.has_templates s); reflexivity.
Qed.

Lemma listed_parsed (es : list (string * Entry)) (off : nat) (h : list Entry) :
  (forall (i : nat) ke, es !! i = Some ke -> same_fields (snd ke) (deref h (off + i)%nat)) ->
  map (fun ka : string * addr =>
         (fst ka, e_name (deref h (snd ka)), e_coords (deref h (snd ka)),
          e_enabled (deref h (snd ka))))
      (combine (map fst es) (seq off (length es)))
  = map (fun ke : string * Entry =>
           (fst ke, e_name (snd ke), e_coords (snd ke), e_enabled (snd ke))) es.
Proof.
  revert off. induction es as [|[k e] es IH]; intros off H; [reflexivity|].
  cbn [map length seq combine fst snd]. f_equal.
  - destruct (H 0%nat (k, e) eq_refl) as (Hn & Hc & He & _).
    rewrite Nat.add_0_r in Hn, Hc, He. cbn [snd] in Hn, Hc, He.
    rewrite Hn, Hc, He. reflexivity.
  - apply IH. intros i ke Hi.
    replace (S off + i)%nat with (off + S i)%nat by lia. apply (H (S i) ke Hi).
Qed.

Lemma deref_parsed (es : list (string * Entry)) (i : nat) (ke : string * Entry) :
  es !! i = Some ke -> deref (map snd es) i = snd ke.
Proof.
  intros Hi. unfold deref.
  change (map snd es) with (snd <$> es). rewrite list_lookup_fmap, Hi. reflexivity.
Qed.

Lemma accepted_by_whoami (m : TemplateManager) (d json : Doc) :
  whoami json = whoami d ->
  (templates json = None <-> templates d = None) ->
  whoami_accepted m (injectWhoami m json) = whoami_accepted m (injectWhoami m d).
Proof.
  intros Hw Ht. unfold injectWhoami, whoami_falsy, whoami_accepted.
  destruct (templates json) as [tj|], (templates d) as [td|].
  - rewrite Hw. destruct (whoami d) as [[|? ?]|] eqn:Hd; cbn [whoami set_whoami];
      rewrite ?Hw, ?Hd; reflexivity.
  - destruct Ht as [_ Ht]. discriminate (Ht eq_refl).
  - destruct Ht as [Ht _]. discriminate (Ht eq_refl).
  - rewrite Hw. reflexivity.
Qed.

Lemma templates_injectWhoami (m : TemplateManager) (json : Doc) :
  templates (injectWhoami m json) = templates json.
Proof.
  unfold injectWhoami. destruct (templates json) eqn:Ht; [|exact Ht].
  destruct (whoami_falsy json); exact Ht.
Qed.

Lemma listed_getAllTemplates (w : World) :
  map listed (getAllTemplates w)
  = match templatesJSON (mgr w) with
    | Some d =>
        map (fun ka : string * addr =>
               (fst ka, e_name (deref (heap w) (snd ka)), e_coords (deref (heap w) (snd ka)),
                e_enabled (deref (heap w) (snd ka))))
            (default [] (templates d))
    | None => []
    end.
Proof.
  unfold getAllTemplates. destruct (templatesJSON (mgr w)) as [d|]; [|reflexivity].
  destruct (templates d) as [ts|]; [|reflexivity].
  rewrite map_map. reflexivity.
Qed.

(** X21.  What a session stored last is what the next session lists:
    started on the two sinks as [#storeTemplates] left them, the new
    manager shows the same templates in the same order, with the same
    names, coordinates and on/off flags, provided the identity of the
    document is one it accepts. *)
Theorem next_session_lists_the_same (P : Platform) (nm ver : string) (w : World) (d : Doc) :
  templatesJSON (mgr w) = Some d ->
  persisted w ->
  whoami_accepted (constructor nm ver) (injectWhoami (constructor nm ver) d) = true ->
  exists w',
    Startup.start P nm ver (lastStored (events w)) (lastStored (events w)) = Ret tt w'
    /\ map listed (getAllTemplates w') = map listed (getAllTemplates w).
Proof.
  intros Hd (earlier & d' & Hd' & Hev) Hacc.
  rewrite Hd in Hd'. injection Hd' as <-.
  rewrite Hev, lastStored_last.
  unfold Startup.start. rewrite storageTemplates_same.
  set (s := snapshot (heap w) d).
  set (json := fst (Startup.parse s [])).
  set (h0 := snd (Startup.parse s [])).
  set (m := constructor nm ver) in *.
  assert (Hjacc : whoami_accepted m (injectWhoami m json) = true).
  { rewrite (accepted_by_whoami m d json); [exact Hacc|reflexivity|].
    unfold json, s, snapshot, Startup.parse. cbn [fst templates s_templates].
    destruct (templates d); simpl; split; intros H; solve [discriminate H|reflexivity]. }
  unfold importJSON, bind, gets. cbv zeta.
  cbn [mgr]. rewrite Hjacc.
  change (templatesJSON m) with (@None Doc). cbn [modify].
  set (w1 := with_mgr (set_templatesJSON (Some (injectWhoami m json)))
                      (mkWorld m h0 [])).
  destruct (grows_catch_parse P (injectWhoami m json) w1) as [(_ & _ & _ & Hsame) Hjson].
  set (run := catch (parseBlueMarble P (injectWhoami m json))
                (fun e => modify (emit (Errored ("[BlueMarble] Failed to parse templates: " ++ e))))
                w1) in *.
  assert (Hret : run = Ret tt (world_of run)).
  { unfold run, catch, modify.
    destruct (parseBlueMarble P (injectWhoami m json) w1) as [[] w2|e w2]; reflexivity. }
  exists (world_of run). split; [exact Hret|].
  rewrite !listed_getAllTemplates, Hjson, Hd.
  cbn [w1 with_mgr mgr templatesJSON set_templatesJSON].
  rewrite templates_injectWhoami. unfold json, s, snapshot, Startup.parse. cbn [fst templates s_templates].
  destruct (templates d) as [ts|] eqn:Hts; [|reflexivity].
  cbn [option_map default from_option id length].
  set (es := map (fun '(k, a) => (k, deref (heap w) a)) ts).
  rewrite (listed_parsed es 0 (heap (world_of run))).
  - unfold es. rewrite map_map. apply map_ext. intros [k a]. reflexivity.
  - intros i ke Hi. cbn [Nat.add].
    pose proof (Hsame i) as Hf. cbn [w1 with_mgr heap] in Hf.
    assert (Hh0 : deref h0 i = snd ke).
    { unfold h0, s, snapshot, Startup.parse. cbn [snd s_templates option_map].
      rewrite Hts. cbn [default from_option id app]. apply deref_parsed. exact Hi. }
    rewrite Hh0 in Hf. exact Hf.
Qed.

Lemma next_session_lists_the_same_witness :
  let P := Demo.platform CanvasReady in
  let w := Demo.run (toggleTemplate "2 !" false) Demo.imported in
  exists w',
    Startup.start P "Blue Peanits" "0.81.1" (lastStored (events w)) (lastStored (events w))
    = Ret tt w'
    /\ map listed (getAllTemplates w')
       = [("5 !", Some "blue", Some "0, 0, 1, 1", Some true);
          ("2 !", Some "red", Some "0, 0, 1, 1", Some false)].
Proof.
  intros P w.
  apply (next_session_lists_the_same P "Blue Peanits" "0.81.1" w Demo.two_templates).
  - reflexivity.
  - exists (removelast (events w)), Demo.two_templates. split; reflexivity.
  - reflexivity.
Defined.

(** X22.  When the identity of the stored document is not one the new
    manager accepts, the next session starts without any template: nothing
    is listed and nothing is drawn, and all that is left is a warning. *)
Theorem next_session_drops_unaccepted (P : Platform) (nm ver : string) (w : World) (d : Doc) :
  templatesJSON (mgr w) = Some d ->
  persisted w ->
  whoami_accepted (constructor nm ver) (injectWhoami (constructor nm ver) d) = false ->
  exists w' warning,
    Startup.start P nm ver (lastStored (events w)) (lastStored (events w)) = Ret tt w'
    /\ getAllTemplates w' = []
    /\ templatesArray (mgr w') = []
    /\ events w' = [Warned warning].
Proof.
  intros Hd (earlier & d' & Hd' & Hev) Hacc.
  rewrite Hd in Hd'. injection Hd' as <-.
  rewrite Hev, lastStored_last.
  unfold Startup.start. rewrite storageTemplates_same.
  set (s := snapshot (heap w) d).
  set (m := constructor nm ver) in *.
  assert (Hjacc : whoami_accepted m (injectWhoami m (fst (Startup.parse s []))) = false).
  { rewrite (accepted_by_whoami m d _); [exact Hacc|reflexivity|].
    unfold s, snapshot, Startup.parse. cbn [fst templates s_templates].
    destruct (templates d); simpl; split; intros H; solve [discriminate H|reflexivity]. }
  unfold importJSON, bind, gets. cbv zeta. cbn [mgr]. rewrite Hjacc.
  eexists. eexists. split; [reflexivity|]. split; [|split]; reflexivity.
Qed.

Lemma next_session_drops_unaccepted_witness :
  let P := Demo.platform CanvasReady in
  let w := Demo.run (createTemplate P Demo.blank_file "first" Demo.somewhere)
                    (Demo.fresh "Blue Peanits Plus") in
  map i_key (getAllTemplates w) = ["0 !"]
  /\ exists w' warning,
      Startup.start P "Blue Peanits Plus" "0.81.1" (lastStored (events w)) (lastStored (events w))
      = Ret tt w'
      /\ getAllTemplates w' = []
      /\ templatesArray (mgr w') = []
      /\ events w' = [Warned warning].
Proof.
  intros P w. split; [reflexivity|].
  apply (next_session_drops_unaccepted P "Blue Peanits Plus" "0.81.1" w
           (mkDoc (Some "BluePeanits Plus") (Some "0.81.1") (Some "1.0.0")
                  (Some [("0 !", 0%nat)]))).
  - reflexivity.
  - eexists (removelast (events w)). eexists. split; reflexivity.
  - reflexivity.
Defined.

(** ** Deleting *)

Lemma listed_delete (templateKey : string) (h : list Entry) (array : list Template)
      (ts : list (string * addr)) :
  map (fun ka : string * addr =>
         (fst ka, e_name (deref h (snd ka)), e_coords (deref h (snd ka)),
          e_enabled (deref h (snd ka))))
      (JSObject.delete templateKey ts)
  = map listed
      (List.filter (fun i => negb (String.eqb (i_key i) templateKey))
         (map (fun ka : string * addr =>
                 let e := deref h (snd ka) in
                 mkTemplateInfo (fst ka) (e_name e) (e_coords e) (e_enabled e)
                   (match List.find (fun t => String.eqb (compositeKey t) (fst ka)) array with
                    | Some t =>
                        if pixelCount t =? 0 then entryPixelCount e
                        else PCNumber (pixelCount t)
                    | None => entryPixelCount e
                    end))
              ts)).
Proof.
  induction ts as [|[k a] ts IH]; [reflexivity|].
  cbn [JSObject.delete map List.filter fst snd i_key].
  destruct (String.eqb k templateKey); cbn [negb]; [exact IH|].
  cbn [map]. rewrite IH. reflexivity.
Qed.

Lemma filter_negb_all {A} (p : A -> bool) (l : list A) :
  Forall (fun a => p a = false) (List.filter (fun a => negb (p a)) l).
Proof.
  induction l as [|a l IH]; cbn [List.filter]; [constructor|].
  destruct (p a) eqn:Hp; cbn [negb]; [exact IH|]. constructor; assumption.
Qed.

(** X23.  [deleteTemplate] takes the template under the key, and no other,
    out of the listing, keeps the order of the rest, leaves no Template in
    the array that answers to the key, and stores the document. *)
Theorem deleteTemplate_listing (templateKey : string) (w : World) :
  document_usable w ->
  exists w',
    deleteTemplate templateKey w = Ret tt w'
    /\ map listed (getAllTemplates w')
       = map listed (List.filter (fun i => negb (String.eqb (i_key i) templateKey))
                                 (getAllTemplates w))
    /\ Forall (fun t => key_matches templateKey t = false) (templatesArray (mgr w'))
    /\ persisted w'.
Proof.
  intros Hdoc.
  destruct (deleteTemplate_world templateKey w Hdoc)
    as (w' & Hrun & Hts & Harr & Hheap & Hp).
  exists w'. split; [exact Hrun|]. split; [|split; [|exact Hp]].
  - rewrite listed_getAllTemplates.
    destruct Hp as (ev & d' & Hd' & _).
    unfold storedTemplates in Hts. rewrite Hd' in Hts |- *. rewrite Hts, Hheap.
    unfold getAllTemplates. unfold document_usable in Hdoc.
    destruct (templatesJSON (mgr w)) as [d|].
    + destruct (templates d) as [ts|]; [|congruence].
      cbn [default from_option id]. apply listed_delete.
    + reflexivity.
  - rewrite Harr. apply filter_negb_all.
Qed.

Lemma deleteTemplate_listing_witness :
  exists w',
    deleteTemplate "5 !" Demo.imported = Ret tt w'
    /\ map listed (getAllTemplates w')
       = map listed (List.filter (fun i => negb (String.eqb (i_key i) "5 !"))
                                 (getAllTemplates Demo.imported))
    /\ Forall (fun t => key_matches "5 !" t = false) (templatesArray (mgr w'))
    /\ persisted w'.
Proof.
  apply (deleteTemplate_listing "5 !" Demo.imported). cbn. discriminate.
Defined.

(** ** The compositor against the key grammar *)

Lemma append_assoc_string (a b c : string) : (a ++ b) ++ c = a ++ (b ++ c).
Proof.
  induction a as [|x a IH]; [reflexivity|]. rewrite !append_cons. f_equal. exact IH.
Qed.

Lemma startsWith_prefix (p r : string) : JSString.startsWith (p ++ r) p = true.
Proof.
  unfold JSString.startsWith. induction p as [|x p IH].
  - destruct ("" ++ r); reflexivity.
  - rewrite append_cons. cbn [String.prefix].
    destruct (Ascii.ascii_dec x x) as [_|Hne]; [exact IH|congruence].
Qed.

Lemma lacks_append (c : ascii) (a b : string) :
  lacks c a -> lacks c b -> lacks c (a ++ b).
Proof.
  intros Ha Hb. induction a as [|x a IH]; [exact Hb|].
  destruct Ha as [Hx Ha]. rewrite append_cons. split; [exact Hx|apply IH; exact Ha].
Qed.

Lemma lacks_repeat_char (c d : ascii) (n : nat) :
  d <> c -> lacks c (JSString.repeat_char d n).
Proof. intros Hd. induction n as [|n IH]; [exact I|]. split; assumption. Qed.

Lemma lacks_padStart (c : ascii) (n : nat) (z : Z) :
  JSString.digit_of c = None -> c <> "-"%char ->
  lacks c (JSString.padStart n "0" (pretty z)).
Proof.
  intros Hc Hm. unfold JSString.padStart. apply lacks_append.
  - apply lacks_repeat_char. intros <-. discriminate Hc.
  - apply lacks_pretty; assumption.
Qed.

Lemma Number_padStart (n : nat) (z : Z) :
  0 <= z -> JSString.Number (JSString.padStart n "0" (pretty z)) = Some z.
Proof.
  intros Hz. apply Number_digits. unfold JSString.padStart. rewrite digits_go_zeros.
  destruct z as [|p|p]; [reflexivity| |lia].
  apply (digits_go_pretty_N (N.pos p)).
Qed.

Lemma tilePrefix_inj (t1 t2 : Z * Z) (r1 r2 : string) :
  four_digits (fst t1) -> four_digits (snd t1) ->
  four_digits (fst t2) -> four_digits (snd t2) ->
  tilePrefix t1 ++ r1 = tilePrefix t2 ++ r2 -> t1 = t2.
Proof.
  intros Hx1 Hy1 Hx2 Hy2 E. unfold tilePrefix in E.
  assert (Hlen : forall t, four_digits (fst t) -> four_digits (snd t) ->
                           String.length (JSString.padStart 4 "0" (pretty (fst t)) ++ ","
                                          ++ JSString.padStart 4 "0" (pretty (snd t))) = 9%nat).
  { intros t Hx Hy. rewrite !length_append, !length_padded_four by assumption. reflexivity. }
  destruct (append_same_length _ _ _ _ (eq_trans (Hlen t1 Hx1 Hy1) (eq_sym (Hlen t2 Hx2 Hy2))) E)
    as [E' _].
  apply append_same_length in E';
    [|rewrite !length_padded_four by assumption; reflexivity].
  destruct E' as [Ex Ey].
  change ("," ++ ?a) with (String "," a) in Ey. injection Ey as Ey.
  assert (Hfst : Some (fst t1) = Some (fst t2)).
  { rewrite <- (Number_padded (fst t1)), <- (Number_padded (fst t2)), Ex
      by (destruct Hx1, Hx2; assumption). reflexivity. }
  assert (Hsnd : Some (snd t1) = Some (snd t2)).
  { rewrite <- (Number_padded (snd t1)), <- (Number_padded (snd t2)), Ey
      by (destruct Hy1, Hy2; assumption). reflexivity. }
  destruct t1, t2. cbn in *. congruence.
Qed.

Lemma fragmentKey_prefix (p : CompositorSpec.Placement) :
  CompositorSpec.fragmentKey p
  = tilePrefix (CompositorSpec.p_tile p)
      ++ "," ++ JSString.padStart (CompositorSpec.p_padding p) "0"
                  (pretty (fst (CompositorSpec.p_offset p)))
      ++ "," ++ JSString.padStart (CompositorSpec.p_padding p) "0"
                  (pretty (snd (CompositorSpec.p_offset p))).
Proof.
  unfold CompositorSpec.fragmentKey, tilePrefix. rewrite !append_assoc_string. reflexivity.
Qed.

Lemma startsWith_fragmentKey (xy : Z * Z) (p : CompositorSpec.Placement) :
  CompositorSpec.wellPlaced p -> four_digits (fst xy) -> four_digits (snd xy) ->
  JSString.startsWith (CompositorSpec.fragmentKey p) (tilePrefix xy)
  = CompositorSpec.in_tile xy p.
Proof.
  intros [[Hx Hy] _] Hx' Hy'. rewrite fragmentKey_prefix.
  destruct (CompositorSpec.in_tile xy p) eqn:Hin.
  - unfold CompositorSpec.in_tile in Hin. apply andb_true_iff in Hin.
    destruct Hin as [E1 E2]. apply Z.eqb_eq in E1, E2.
    replace (CompositorSpec.p_tile p) with xy
      by (destruct xy, (CompositorSpec.p_tile p); cbn in *; congruence).
    apply startsWith_prefix.
  - destruct (JSString.startsWith _ _) eqn:Hs; [|reflexivity]. exfalso.
    destruct (startsWith_append _ _ Hs) as (r & E).
    apply tilePrefix_inj in E; try assumption.
    unfold CompositorSpec.in_tile in Hin. rewrite E in Hin.
    rewrite !Z.eqb_refl in Hin. discriminate Hin.
Qed.

Lemma split_fragmentKey (p : CompositorSpec.Placement) :
  JSString.split "," (CompositorSpec.fragmentKey p)
  = [JSString.padStart 4 "0" (pretty (fst (CompositorSpec.p_tile p)));
     JSString.padStart 4 "0" (pretty (snd (CompositorSpec.p_tile p)));
     JSString.padStart (CompositorSpec.p_padding p) "0" (pretty (fst (CompositorSpec.p_offset p)));
     JSString.padStart (CompositorSpec.p_padding p) "0" (pretty (snd (CompositorSpec.p_offset p)))].
Proof.
  unfold CompositorSpec.fragmentKey.
  set (a := JSString.padStart 4 "0" (pretty (fst (CompositorSpec.p_tile p)))).
  set (b := JSString.padStart 4 "0" (pretty (snd (CompositorSpec.p_tile p)))).
  set (c := JSString.padStart (CompositorSpec.p_padding p) "0"
                              (pretty (fst (CompositorSpec.p_offset p)))).
  set (d := JSString.padStart (CompositorSpec.p_padding p) "0"
                              (pretty (snd (CompositorSpec.p_offset p)))).
  change (a ++ "," ++ b ++ "," ++ c ++ "," ++ d)
    with (a ++ String "," (b ++ String "," (c ++ String "," d))).
  rewrite (split_first "," a) by (apply lacks_padStart; [reflexivity|discriminate]).
  rewrite (split_first "," b) by (apply lacks_padStart; [reflexivity|discriminate]).
  rewrite (split_first "," c) by (apply lacks_padStart; [reflexivity|discriminate]).
  rewrite (split_lacks "," d) by (apply lacks_padStart; [reflexivity|discriminate]).
  reflexivity.
Qed.

Lemma matchingTiles_described (xy : Z * Z) (t : Template)
      (fragments : list (CompositorSpec.Placement * Image)) :
  chunked t = map (fun pf => (CompositorSpec.fragmentKey (fst pf), snd pf)) fragments ->
  Forall (fun pf => CompositorSpec.wellPlaced (fst pf)) fragments ->
  four_digits (fst xy) -> four_digits (snd xy) ->
  matchingTiles (tilePrefix xy) t
  = map (fun pf => (CompositorSpec.fragmentKey (fst pf), snd pf))
        (List.filter (fun pf => CompositorSpec.in_tile xy (fst pf)) fragments).
Proof.
  intros Hch Hwp Hx Hy. unfold matchingTiles. rewrite Hch. clear Hch.
  induction Hwp as [|pf fragments Hp _ IH]; [reflexivity|].
  cbn [map List.filter fst]. rewrite startsWith_fragmentKey by assumption.
  destruct (CompositorSpec.in_tile xy (fst pf)); cbn [map]; rewrite IH; reflexivity.
Qed.

Lemma find_filter {A} (f : A -> bool) (l : list A) :
  List.find f l = match List.filter f l with [] => None | x :: _ => Some x end.
Proof.
  induction l as [|a l IH]; [reflexivity|]. cbn [List.find List.filter].
  destruct (f a); [reflexivity|exact IH].
Qed.

(** The fragment the code takes for a template is the one the grammar
    says lies in the tile, and the code draws it where the grammar says. *)
Lemma fragmentFor_described (P : Platform) (mult : Z) (xy : Z * Z)
      (fragmentsOf : Template -> list (CompositorSpec.Placement * Image)) (t : Template) :
  follows_grammar fragmentsOf t ->
  four_digits (fst xy) -> four_digits (snd xy) ->
  match fragmentFor (tilePrefix xy) t, CompositorSpec.fragmentAt xy (fragmentsOf t) with
  | Some f, Some pf =>
      forall surface, drawFragment P mult surface f
                      = CompositorSpec.draw (mix P) mult surface (t, pf)
  | None, None => True
  | _, _ => False
  end.
Proof.
  intros [Hch Hwp] Hx Hy. unfold fragmentFor, CompositorSpec.fragmentAt.
  rewrite (matchingTiles_described xy t (fragmentsOf t) Hch Hwp Hx Hy), find_filter.
  destruct (List.filter _ (fragmentsOf t)) as [|[p img] rest] eqn:Hf; [exact I|].
  cbn [map fst snd]. intros surface.
  assert (Hin : In (p, img) (fragmentsOf t)).
  { apply (proj1 (filter_In (fun pf => CompositorSpec.in_tile xy (fst pf))
                            (p, img) (fragmentsOf t))).
    rewrite Hf. left. reflexivity. }
  rewrite Forall_forall in Hwp. destruct (Hwp _ Hin) as [_ [Hpx Hpy]]. cbn [fst] in Hpx, Hpy.
  unfold drawFragment. cbn [pixelCoords fst snd]. rewrite split_fragmentKey.
  change ([?a; ?b; ?c; ?d] !! 2%nat) with (Some c).
  change ([?a; ?b; ?c; ?d] !! 3%nat) with (Some d).
  cbn [JSString.Number_opt]. rewrite !Number_padStart by lia. reflexivity.
Qed.

Lemma omap_cons_eq {A B} (f : A -> option B) (x : A) (l : list A) :
  omap f (x :: l) = match f x with Some y => y :: omap f l | None => omap f l end.
Proof. reflexivity. Qed.

Lemma paint_described (P : Platform) (mult : Z) (xy : Z * Z)
      (fragmentsOf : Template -> list (CompositorSpec.Placement * Image))
      (l : list Template) (base : Image) :
  (forall t, In t l -> follows_grammar fragmentsOf t) ->
  four_digits (fst xy) -> four_digits (snd xy) ->
  fold_left (drawFragment P mult) (templatesToDraw (tilePrefix xy) l) base
  = CompositorSpec.paint (mix P) mult (CompositorSpec.candidates xy fragmentsOf l) base.
Proof.
  intros Hall Hx Hy. revert base. induction l as [|t l IH]; intros base; [reflexivity|].
  assert (IH' := IH (fun u Hu => Hall u (or_intror Hu))). clear IH.
  unfold templatesToDraw, CompositorSpec.candidates, CompositorSpec.paint in *.
  cbn [List.filter]. rewrite (omap_cons_eq _ t l).
  destruct (enabled t); [|apply IH'].
  pose proof (fragmentFor_described P mult xy fragmentsOf t (Hall t (or_introl eq_refl)) Hx Hy)
    as Hone.
  rewrite (omap_cons_eq (fragmentFor (tilePrefix xy)) t).
  destruct (fragmentFor (tilePrefix xy) t) as [f|],
           (CompositorSpec.fragmentAt xy (fragmentsOf t)) as [pf|];
    try contradiction; cbn [option_map fold_left].
  - rewrite Hone. apply IH'.
  - apply IH'.
Qed.

Lemma candidates_In (xy : Z * Z)
      (fragmentsOf : Template -> list (CompositorSpec.Placement * Image))
      (l : list Template) (c : Template * (CompositorSpec.Placement * Image)) :
  In c (CompositorSpec.candidates xy fragmentsOf l) <->
  In (fst c) l /\ enabled (fst c) = true
  /\ CompositorSpec.fragmentAt xy (fragmentsOf (fst c)) = Some (snd c).
Proof.
  unfold CompositorSpec.candidates. induction l as [|t l IH]; [cbn; tauto|].
  rewrite omap_cons_eq. cbn [In].
  destruct (enabled t) eqn:He.
  - destruct (CompositorSpec.fragmentAt xy (fragmentsOf t)) as [pf|] eqn:Hf; cbn [option_map In].
    + rewrite IH. split.
      * intros [<-|(H1 & H2 & H3)]; [cbn; auto|auto].
      * intros ([Ht|H1] & H2 & H3); [left|auto].
        destruct c as [u g]. cbn [fst snd] in *. subst u. congruence.
    + rewrite IH. split; [intros (H1 & H2 & H3); auto|].
      intros ([<-|H1] & H2 & H3); [congruence|auto].
  - rewrite IH. split; [intros (H1 & H2 & H3); auto|].
    intros ([<-|H1] & H2 & H3); [congruence|auto].
Qed.

Lemma candidates_sorted (xy : Z * Z)
      (fragmentsOf : Template -> list (CompositorSpec.Placement * Image))
      (l : list Template) :
  StronglySorted by_sortID l ->
  StronglySorted (fun a b => sortID (fst a) <= sortID (fst b))
                 (CompositorSpec.candidates xy fragmentsOf l).
Proof.
  intros Hs. induction Hs as [|t l Hl IH Ht]; [constructor|].
  unfold CompositorSpec.candidates in *. rewrite omap_cons_eq.
  destruct (enabled t); [|exact IH].
  destruct (CompositorSpec.fragmentAt xy (fragmentsOf t)) as [pf|]; cbn [option_map]; [|exact IH].
  constructor; [exact IH|].
  rewrite Forall_forall. intros c Hc.
  apply (proj1 (candidates_In xy fragmentsOf l c)) in Hc. destruct Hc as [Hc _].
  rewrite Forall_forall in Ht. apply (Ht _ Hc).
Qed.

Lemma draw_size (mix : RGBA -> RGBA -> RGBA) (mult : Z) (surface : Image)
      (c : Template * (CompositorSpec.Placement * Image)) :
  width (CompositorSpec.draw mix mult surface c) = width surface
  /\ height (CompositorSpec.draw mix mult surface c) = height surface.
Proof. split; reflexivity. Qed.

Lemma inside_paint (mix : RGBA -> RGBA -> RGBA) (mult : Z)
      (order : list (Template * (CompositorSpec.Placement * Image))) (base : Image) (x y : Z) :
  inside (CompositorSpec.paint mix mult order base) x y = inside base x y.
Proof.
  unfold CompositorSpec.paint. revert base.
  induction order as [|c order IH]; intros base; [reflexivity|].
  cbn [fold_left]. rewrite IH. reflexivity.
Qed.

Lemma draw_pixel (mix : RGBA -> RGBA -> RGBA) (mult : Z) (surface : Image)
      (c : Template * (CompositorSpec.Placement * Image)) (x y : Z) :
  pixelAt (CompositorSpec.draw mix mult surface c) x y
  = match CompositorSpec.shows mult c x y with
    | Some p =>
        if inside surface x y
        then Canvas2D.source_over mix p (pixelAt surface x y)
        else pixelAt surface x y
    | None => pixelAt surface x y
    end.
Proof.
  unfold CompositorSpec.draw, CompositorSpec.shows, Canvas2D.drawImage. cbn [pixelAt].
  destruct (inside surface x y), (inside (snd (snd c)) _ _); reflexivity.
Qed.

Lemma paint_passes (mix : RGBA -> RGBA -> RGBA) (mult : Z)
      (order : list (Template * (CompositorSpec.Placement * Image))) (base : Image) (x y : Z) :
  Forall (CompositorSpec.passes mult x y) order ->
  pixelAt (CompositorSpec.paint mix mult order base) x y = pixelAt base x y.
Proof.
  unfold CompositorSpec.paint. intros H. revert base.
  induction H as [|c order Hc _ IH]; intros base; [reflexivity|].
  cbn [fold_left]. rewrite IH, draw_pixel.
  destruct (CompositorSpec.shows mult c x y) as [q|] eqn:Hq; [|reflexivity].
  destruct (inside base x y); [|reflexivity].
  unfold Canvas2D.source_over.
  replace (alpha q <=? 0) with true; [reflexivity|].
  symmetry. apply Z.leb_le. apply Hc. exact Hq.
Qed.

Lemma last_opaque_candidate_wins (P : Platform) (mult : Z)
      (before after : list (Template * (CompositorSpec.Placement * Image)))
      (c : Template * (CompositorSpec.Placement * Image)) (base : Image) (x y : Z) (p : RGBA) :
  inside base x y = true ->
  CompositorSpec.shows mult c x y = Some p ->
  255 <= alpha p ->
  Forall (CompositorSpec.passes mult x y) after ->
  pixelAt (CompositorSpec.paint (mix P) mult (before ++ c :: after)%list base) x y = p.
Proof.
  intros Hin Hp Ha Hafter.
  pose proof (fun b => paint_passes (mix P) mult after b x y Hafter) as Hlater.
  pose proof (inside_paint (mix P) mult before base x y) as Hbefore.
  unfold CompositorSpec.paint in *. rewrite fold_left_app. cbn [fold_left].
  rewrite Hlater, draw_pixel, Hp, Hbefore, Hin.
  apply source_over_opaque. exact Ha.
Qed.

(** C6.  When the fragments of the templates are filed under keys of the
    Chunker's grammar, what [drawTemplateOnTile] returns for a tile is the
    scaled tile with the candidates painted over it in an order of
    ascending sortID: the candidates are the enabled templates with a
    fragment in that tile, each with its first such fragment, drawn at its
    offset times the multiplier.  So of two candidates the one with the
    higher sortID is drawn later, and a cell ends up with the opaque
    pixel of the last candidate that reaches it. *)
Theorem drawTemplateOnTile_ascending_sortID (P : Platform) (tileBlob : Image)
        (tileXY : Z * Z) (w : World) (size : positive)
        (fragmentsOf : Template -> list (CompositorSpec.Placement * Image)) :
  templatesShouldBeDrawn (mgr w) = true ->
  tileSize (mgr w) * drawMult (mgr w) = Z.pos size ->
  four_digits (fst tileXY) -> four_digits (snd tileXY) ->
  (forall t, In t (templatesArray (mgr w)) -> follows_grammar fragmentsOf t) ->
  let mult := drawMult (mgr w) in
  let base :=
    Canvas2D.drawImageScaled (mix P) tileBlob (Z.pos size) (Z.pos size)
      (Canvas2D.blank size size) in
  exists order,
    returned (drawTemplateOnTile P tileBlob tileXY w)
    = Some (CompositorSpec.paint (mix P) mult order base)
    /\ Permutation order
         (CompositorSpec.candidates tileXY fragmentsOf (templatesArray (mgr w)))
    /\ StronglySorted (fun a b => sortID (fst a) <= sortID (fst b)) order
    /\ (forall lo hi, In lo order -> In hi order -> sortID (fst lo) < sortID (fst hi) ->
          exists l1 l2 l3, order = (l1 ++ lo :: l2 ++ hi :: l3)%list)
    /\ (forall l1 hi l3 x y p,
          order = (l1 ++ hi :: l3)%list ->
          0 <= x < Z.pos size -> 0 <= y < Z.pos size ->
          CompositorSpec.shows mult hi x y = Some p -> 255 <= alpha p ->
          Forall (CompositorSpec.passes mult x y) l3 ->
          pixelAt (CompositorSpec.paint (mix P) mult order base) x y = p).
Proof.
  intros Hon Hsize Hx Hy Hgrammar mult base.
  set (sorted := sort_by_sortID (templatesArray (mgr w))).
  exists (CompositorSpec.candidates tileXY fragmentsOf sorted).
  assert (Hsorted : StronglySorted (fun a b => sortID (fst a) <= sortID (fst b))
                                   (CompositorSpec.candidates tileXY fragmentsOf sorted)).
  { apply candidates_sorted. apply sort_by_sortID_sorted. }
  split; [|split; [|split; [exact Hsorted|split]]].
  - unfold drawTemplateOnTile. rewrite Hon, Hsize. cbn [negb returned]. f_equal.
    apply paint_described; [|exact Hx|exact Hy].
    intros t Ht. apply Hgrammar.
    apply (Permutation_in _ (sort_by_sortID_Permutation _)). exact Ht.
  - unfold CompositorSpec.candidates. apply omap_Permutation.
    apply sort_by_sortID_Permutation.
  - intros lo hi Hlo Hhi Hlt.
    apply (sorted_lower_first (fun c => sortID (fst c)) _ lo hi Hsorted Hlo Hhi Hlt).
  - intros l1 hi l3 x y p Horder Hxs Hys Hp Ha Hl3.
    rewrite Horder. apply last_opaque_candidate_wins; try assumption.
    unfold inside, base. cbn [width height Canvas2D.drawImageScaled Canvas2D.blank].
    apply andb_true_iff; split; [apply andb_true_iff; split; [apply andb_true_iff; split|]|].
    + apply Z.leb_le; lia.
    + apply Z.ltb_lt; lia.
    + apply Z.leb_le; lia.
    + apply Z.ltb_lt; lia.
Qed.

Lemma drawTemplateOnTile_ascending_sortID_witness :
  let P := Demo.platform CanvasReady in
  let tile := Demo.plain_tile 1000 1000 Demo.opaque_red in
  let w := CompositorDemo.world in
  map sortID (templatesArray (mgr w)) = [7; 5; 9; 2]
  /\ map (fun c => (sortID (fst c), CompositorSpec.p_offset (fst (snd c))))
         (CompositorSpec.candidates (0, 0) CompositorDemo.fragmentsOf (templatesArray (mgr w)))
     = [(5, (1, 1)); (2, (1, 1))]
  /\ (exists img,
        returned (drawTemplateOnTile P tile (0, 0) w) = Some img
        /\ pixelAt img 4 4 = Demo.opaque_blue)
  /\ exists order,
      returned (drawTemplateOnTile P tile (0, 0) w)
      = Some (CompositorSpec.paint (mix P) 3 order
                (Canvas2D.drawImageScaled (mix P) tile 3000 3000 (Canvas2D.blank 3000 3000)))
      /\ Permutation order
           (CompositorSpec.candidates (0, 0) CompositorDemo.fragmentsOf (templatesArray (mgr w)))
      /\ StronglySorted (fun a b => sortID (fst a) <= sortID (fst b)) order
      /\ (forall lo hi, In lo order -> In hi order -> sortID (fst lo) < sortID (fst hi) ->
            exists l1 l2 l3, order = (l1 ++ lo :: l2 ++ hi :: l3)%list)
      /\ (forall l1 hi l3 x y p,
            order = (l1 ++ hi :: l3)%list ->
            0 <= x < 3000 -> 0 <= y < 3000 ->
            CompositorSpec.shows 3 hi x y = Some p -> 255 <= alpha p ->
            Forall (CompositorSpec.passes 3 x y) l3 ->
            pixelAt (CompositorSpec.paint (mix P) 3 order
                       (Canvas2D.drawImageScaled (mix P) tile 3000 3000
                          (Canvas2D.blank 3000 3000))) x y = p).
Proof.
  intros P tile w.
  split; [reflexivity|]. split; [reflexivity|].
  split; [eexists; split; reflexivity|].
  apply (drawTemplateOnTile_ascending_sortID P tile (0, 0) w 3000 CompositorDemo.fragmentsOf).
  - reflexivity.
  - reflexivity.
  - unfold four_digits. cbn. lia.
  - unfold four_digits. cbn. lia.
  - intros t [<-|[<-|[<-|[<-|[]]]]]; (split; [reflexivity|]);
      repeat constructor; cbn; lia.
Defined.

(** ** Where an import leaves the pixel counts *)

(** The reconstruction throws inside its loop only, so with a fragment at
    hand, and the estimate is then 500 times the number of fragments. *)
Lemma reconstruction_throws_on_a_fragment (P : Platform) (tiles : list (string * Image))
      (e : string) :
  computePixelCountFromTiles P tiles = Err e ->
  tiles <> [] /\ heuristicPixelCount tiles = Z.of_nat (length tiles) * 500.
Proof.
  intros H.
  assert (Hne : tiles <> []) by (intros ->; discriminate H).
  split; [exact Hne|]. rewrite heuristicPixelCount_max.
  destruct tiles; [congruence|]. cbn [length]. lia.
Qed.

Lemma resolvePixelCount_heap (P : Platform) (a : addr) (templateValue : Entry)
      (tiles : list (string * Image)) (w : World) :
  exists pc w',
    resolvePixelCount P a templateValue tiles w = Ret pc w'
    /\ mgr w' = mgr w
    /\ ((e_pixelCount templateValue = PCNumber pc /\ heap w' = heap w)
        \/ heap w' = <[a := set_e_pixelCount (PCNumber pc) (deref (heap w) a)]> (heap w)).
Proof.
  unfold resolvePixelCount. run_method.
  destruct (e_pixelCount templateValue) as [|n|];
    try destruct (0 <=? n);
    try (eexists; eexists; split; [reflexivity|]; split; [reflexivity|];
         left; split; reflexivity);
    destruct (computePixelCountFromTiles P tiles);
    eexists; eexists; (split; [reflexivity|]); (split; [reflexivity|]); right; reflexivity.
Qed.

Lemma parseTemplate_step (P : Platform) (templateKey : string) (a : addr) (w : World)
      (tiles : list (string * Image)) :
  (a < length (heap w))%nat ->
  decodeTiles P (e_tiles (deref (heap w) a)) [] = Ok tiles ->
  exists t w',
    parseTemplate P templateKey a w = Ret tt w'
    /\ templatesArray (mgr w') = (templatesArray (mgr w) ++ [t])%list
    /\ templatesJSON (mgr w') = templatesJSON (mgr w)
    /\ length (heap w') = length (heap w)
    /\ e_pixelCount (deref (heap w') a) = PCNumber (pixelCount t)
    /\ (forall b, b <> a -> deref (heap w') b = deref (heap w) b).
Proof.
  intros Ha Hdec.
  destruct (resolvePixelCount_heap P a (deref (heap w) a) tiles w)
    as (pc & w1 & Hres & Hm & Hheap).
  unfold parseTemplate, bind, gets, modify. rewrite Hdec, Hres.
  eexists. eexists. split; [reflexivity|].
  cbn [mgr with_mgr templatesArray templatesJSON set_templatesArray heap pixelCount].
  rewrite Hm. split; [reflexivity|]. split; [reflexivity|].
  destruct Hheap as [[Hpc ->]| ->].
  - split; [reflexivity|]. split; [exact Hpc|]. reflexivity.
  - split; [apply length_insert|]. split.
    + rewrite deref_insert by exact Ha. reflexivity.
    + intros b Hb. apply deref_insert_ne. congruence.
Qed.

(** Every template the loop builds agrees with the entry it was built
    from, once the loop is through. *)
Lemma parseTemplates_counts (P : Platform) (ts : list (string * addr)) (w : World) :
  NoDup (map snd ts) ->
  Forall (fun ka : string * addr =>
            (snd ka < length (heap w))%nat
            /\ exists tiles, decodeTiles P (e_tiles (deref (heap w) (snd ka))) [] = Ok tiles)
         ts ->
  exists w' new,
    parseTemplates P ts w = Ret tt w'
    /\ templatesArray (mgr w') = (templatesArray (mgr w) ++ new)%list
    /\ templatesJSON (mgr w') = templatesJSON (mgr w)
    /\ length (heap w') = length (heap w)
    /\ Forall2 (fun (ka : string * addr) t =>
                  e_pixelCount (deref (heap w') (snd ka)) = PCNumber (pixelCount t))
               ts new
    /\ (forall b, ~ In b (map snd ts) -> deref (heap w') b = deref (heap w) b).
Proof.
  revert w. induction ts as [|[k a] ts IH]; intros w Hnd Hall.
  - exists w, []. split; [reflexivity|]. split; [rewrite app_nil_r; reflexivity|].
    split; [reflexivity|]. split; [reflexivity|]. split; [constructor|]. reflexivity.
  - inversion Hnd as [|? ? Ha Hnd']; subst.
    inversion Hall as [|? ? [Hlt (tiles & Hdec)] Hall']; subst. cbn [snd] in Hlt, Hdec.
    destruct (parseTemplate_step P k a w tiles Hlt Hdec)
      as (t & w1 & Hrun & Harr & Hjson & Hlen & Hcount & Hframe).
    assert (Hin : forall b, In b (map snd ts) -> b <> a).
    { intros b Hb ->. apply Ha. apply list_elem_of_In. exact Hb. }
    destruct (IH w1 Hnd') as (w' & new & Hrest & Harr' & Hjson' & Hlen' & Hcounts & Hframe').
    { rewrite Forall_forall in Hall' |- *. intros [k' b] Hb.
      destruct (Hall' _ Hb) as [Hlt' Hdec']. cbn [snd] in *.
      rewrite Hlen, (Hframe b (Hin b (in_map snd _ _ Hb))). split; assumption. }
    exists w', (t :: new). cbn [parseTemplates]. unfold bind. rewrite Hrun.
    split; [exact Hrest|]. split; [rewrite Harr', Harr, <- app_assoc; reflexivity|].
    split; [congruence|]. split; [congruence|]. split.
    + constructor; [|exact Hcounts]. cbn [snd].
      rewrite (Hframe' a) by (intros Hb; apply (Hin a Hb); reflexivity). exact Hcount.
    + intros b Hb. cbn [map snd In] in Hb.
      rewrite (Hframe' b) by tauto. apply Hframe. intros ->. apply Hb. left. reflexivity.
Qed.

Lemma Forall2_with_In {A B} (Q : A -> B -> Prop) (l : list A) (k : list B) :
  Forall2 Q l k -> Forall2 (fun x y => In x l /\ Q x y) l k.
Proof.
  induction 1 as [|x y l k Hxy _ IH]; constructor.
  - split; [left; reflexivity|exact Hxy].
  - eapply Forall2_impl; [|exact IH]. intros x' y' [Hin HQ]. split; [right; exact Hin|exact HQ].
Qed.

(** The write-back reaches the manager document for every template whose
    key the manager does not hold yet, and so at the start of main.js, where
    the manager holds nothing: the count of the Template is the one the
    manager document carries under the key, which is what is stored. *)
Lemma importJSON_persists_counts (P : Platform) (json : Doc) (w : World)
      (ts : list (string * addr)) :
  document_usable w ->
  whoami_accepted (mgr w) (injectWhoami (mgr w) json) = true ->
  templates json = Some ts ->
  NoDup (map fst ts) -> NoDup (map snd ts) ->
  Forall (fun ka : string * addr =>
            (snd ka < length (heap w))%nat
            /\ exists tiles, decodeTiles P (e_tiles (deref (heap w) (snd ka))) [] = Ok tiles)
         ts ->
  exists w' new,
    importJSON P json w = Ret tt w'
    /\ templatesArray (mgr w') = (templatesArray (mgr w) ++ new)%list
    /\ Forall2 (fun (ka : string * addr) t =>
                  JSObject.get (fst ka) (storedTemplates w) = None ->
                  option_map e_pixelCount (storedEntry w' (fst ka))
                  = Some (PCNumber (pixelCount t)))
               ts new.
Proof.
  intros Hdoc Hacc Hts Hkeys Haddrs Hall.
  assert (Hts' : templates (injectWhoami (mgr w) json) = Some ts)
    by (rewrite templates_injectWhoami; exact Hts).
  assert (Hparse : forall w1 d stored,
             heap w1 = heap w -> templatesArray (mgr w1) = templatesArray (mgr w) ->
             templatesJSON (mgr w1) = Some d -> templates d = Some stored ->
             (forall k a, In (k, a) ts -> JSObject.get k (storedTemplates w) = None ->
                          JSObject.get k stored = Some a) ->
             exists w' new,
               catch (parseBlueMarble P (injectWhoami (mgr w) json))
                     (fun e => modify (emit (Errored ("[BlueMarble] Failed to parse templates: " ++ e))))
                     w1 = Ret tt w'
               /\ templatesArray (mgr w') = (templatesArray (mgr w) ++ new)%list
               /\ Forall2 (fun (ka : string * addr) t =>
                             JSObject.get (fst ka) (storedTemplates w) = None ->
                             option_map e_pixelCount (storedEntry w' (fst ka))
                             = Some (PCNumber (pixelCount t)))
                          ts new).
  { intros w1 d stored Hheap Harr Hd Hstored Hget.
    destruct (parseTemplates_counts P ts w1 Haddrs)
      as (w' & new & Hrun & Harr' & Hjson & _ & Hcounts & _).
    { rewrite Hheap. exact Hall. }
    exists w', new. unfold catch, parseBlueMarble. rewrite Hts', Hrun.
    split; [reflexivity|]. split; [rewrite Harr', Harr; reflexivity|].
    eapply Forall2_impl; [|apply Forall2_with_In; exact Hcounts].
    intros [k a] t [Hin Hcount] Habsent. cbn [fst snd] in *.
    unfold storedEntry. rewrite Hjson, Hd, Hstored. cbn [default from_option id].
    rewrite (Hget k a Hin Habsent). cbn [option_map]. rewrite Hcount. reflexivity. }
  unfold importJSON, bind, gets. cbv zeta. rewrite Hacc, Hts'.
  unfold document_usable in Hdoc. unfold storedTemplates in Hparse |- *.
  destruct (templatesJSON (mgr w)) as [current|] eqn:Hcur.
  - destruct (templates current) as [cur|] eqn:Hc; [|congruence].
    cbn [modify].
    apply (Hparse _ (set_templates (Some (mergeTemplates ts cur)) current)
                  (mergeTemplates ts cur)); try reflexivity.
    cbn [default from_option id]. intros k a Hin Habsent.
    rewrite mergeTemplates_adds_absent by exact Habsent.
    apply get_NoDup; assumption.
  - cbn [modify].
    apply (Hparse _ (injectWhoami (mgr w) json) ts); try reflexivity; [exact Hts'|].
    intros k a Hin _. apply get_NoDup; assumption.
Qed.

(** C8.  A document imported while the manager holds another template
    under the same key: the template is parsed all the same, its count is
    reconstructed and written to the entry that was parsed, but the manager
    document keeps the entry it had under the key.  The reconstructed
    count is in the Template only; the manager document, and what the next
    [#storeTemplates] writes, carry the old one. *)
Theorem importJSON_collision_loses_pixelCount :
  let P := Demo.platform CanvasReady in
  let w := Demo.colliding_parsed in
  let w' := Demo.run (importJSON P Demo.colliding_document) w in
  let later := Demo.run (toggleTemplate "5 !" true) w' in
  e_pixelCount (deref (heap w) 2%nat) = PCAbsent
  /\ option_map e_pixelCount (storedEntry w "5 !") = Some (PCNumber 1)
  /\ map (fun t => (sortID t, displayName t, pixelCount t)) (templatesArray (mgr w'))
     = [(5, "blue", 1); (2, "red", 1); (5, "recount", 2)]
  /\ e_pixelCount (deref (heap w') 2%nat) = PCNumber 2
  /\ option_map e_pixelCount (storedEntry w' "5 !") = Some (PCNumber 1)
  /\ option_map
       (fun s => map (fun ke => (fst ke, e_name (snd ke), e_pixelCount (snd ke)))
                     (default [] (s_templates s)))
       (lastStored (events later))
     = Some [("5 !", Some "blue", PCNumber 1); ("2 !", Some "red", PCNumber 1)].
Proof. repeat split; reflexivity. Qed.
